(** * Codebase ingestion and retrieval: a shallow embedding

    The development follows the service modules of the backend:
    [codebase_ingestion.py] (file filter, content loader, orchestrator),
    [vector_store.py] (collection names, collection deletion) and
    [rag_agent.py] (retriever, answer composer).

    Python values are modelled as follows.
    - [str] is a sequence of Unicode code points: [list N].
    - [bytes] is a sequence of octets: [list byte].
    - [int] is [Z].
    - a [dict] with string keys is a [gmap string _], a constant [set] used
      only for membership is a [gset].
    - a call that may raise returns a [result]; [try]/[except] is a match on
      it.  Only instances of [Exception] are modelled: asynchronous signals
      ([KeyboardInterrupt], [SystemExit]) are outside the model. *)

From Stdlib Require Import ZArith NArith List String Ascii Lia.
From Stdlib.Strings Require Import Byte.
From stdpp Require Import base option list gmap sets strings sorting.

Local Open Scope N_scope.

(** ** Python strings *)

Abbreviation pystr := (list N).
Abbreviation pybytes := (list byte).

(** Code points of an ASCII literal. *)
Definition str (s : string) : pystr :=
  map N_of_ascii (list_ascii_of_string s).

(** [c in "_-"] and friends: membership of a character in a literal. *)
Definition char_in (c : N) (s : pystr) : bool := bool_decide (c ∈ s).

(** [str.isspace] on one character, as CPython's [_PyUnicode_IsWhitespace]. *)
Definition isspace (c : N) : bool :=
  ((9 <=? c) && (c <=? 13)) || ((28 <=? c) && (c <=? 32))
  || (c =? 133) || (c =? 160) || (c =? 5760)
  || ((8192 <=? c) && (c <=? 8202))
  || (c =? 8232) || (c =? 8233) || (c =? 8239) || (c =? 8287) || (c =? 12288).

(** [s.lstrip()], [s.rstrip()], [s.strip()] with no argument. *)
Fixpoint lstrip (s : pystr) : pystr :=
  match s with
  | c :: s' => if isspace c then lstrip s' else s
  | [] => []
  end.

Definition rstrip (s : pystr) : pystr := reverse (lstrip (reverse s)).

Definition strip (s : pystr) : pystr := rstrip (lstrip s).

(** [s.lstrip(chars)] for a given set of characters. *)
Fixpoint lstrip_chars (chars : pystr) (s : pystr) : pystr :=
  match s with
  | c :: s' => if char_in c chars then lstrip_chars chars s' else s
  | [] => []
  end.

(** [sep.join(parts)]. *)
Fixpoint join (sep : pystr) (parts : list pystr) : pystr :=
  match parts with
  | [] => []
  | [p] => p
  | p :: rest => p ++ sep ++ join sep rest
  end.

(** [s.replace(old, new)] for a one-character [old]. *)
Definition replace_char (old : N) (new : pystr) (s : pystr) : pystr :=
  flat_map (fun c => if c =? old then new else [c]) s.

(** [s.rfind(c)] for a one-character needle: [None] stands for [-1]. *)
Fixpoint rfind_char (c : N) (s : pystr) : option nat :=
  match s with
  | [] => None
  | x :: s' =>
      match rfind_char c s' with
      | Some i => Some (S i)
      | None => if x =? c then Some O else None
      end
  end.

(** ** Decimal rendering of integers: [str(n)] and [f"{n}"] *)

Fixpoint digits_fuel (fuel : nat) (n : N) : pystr :=
  match fuel with
  | O => []
  | S fuel' =>
      if n <? 10 then [48 + n]
      else digits_fuel fuel' (n / 10) ++ [48 + n mod 10]
  end.

(** A number has no more decimal digits than binary ones. *)
Definition str_of_N (n : N) : pystr :=
  digits_fuel (S (N.to_nat (N.log2 n))) n.

Definition str_of_Z (z : Z) : pystr :=
  match z with
  | Zneg p => 45 :: str_of_N (Npos p)
  | _ => str_of_N (Z.to_N z)
  end.

(** ** Exceptions *)

Inductive exn_class :=
| Exception | ValueError | UnicodeError | UnicodeDecodeError
| OSError | AttributeError | IndexError | NotFoundError | RuntimeError.

Global Instance exn_class_eq_dec : EqDecision exn_class.
Proof. solve_decision. Defined.

(** Direct base class; [Exception] is the root of the modelled hierarchy. *)
Definition base_class (c : exn_class) : option exn_class :=
  match c with
  | Exception => None
  | UnicodeDecodeError => Some UnicodeError
  | UnicodeError => Some ValueError
  | _ => Some Exception
  end.

Fixpoint issubclass_fuel (fuel : nat) (c d : exn_class) : bool :=
  bool_decide (c = d) ||
  match fuel, base_class c with
  | S fuel', Some b => issubclass_fuel fuel' b d
  | _, _ => false
  end.

Definition issubclass (c d : exn_class) : bool := issubclass_fuel 4 c d.

(** An exception instance: its class and [str(e)]. *)
Record exn := Exn { exn_cls : exn_class; exn_str : pystr }.

Inductive result (A : Type) :=
| Ok (a : A)
| Raise (e : exn).
Arguments Ok {A} a.
Arguments Raise {A} e.

Global Instance result_ret : MRet result := fun A a => Ok a.

Global Instance result_bind : MBind result := fun A B k r =>
  match r with
  | Ok a => k a
  | Raise e => Raise e
  end.

Global Instance result_fmap : FMap result := fun A B f r =>
  match r with
  | Ok a => Ok (f a)
  | Raise e => Raise e
  end.

(** [except (C1, ..., Cn)]: does the clause catch [e]? *)
Definition catches (classes : list exn_class) (e : exn) : bool :=
  existsb (issubclass (exn_cls e)) classes.

(** ** Paths ([pathlib.PurePosixPath]) *)

Record Path := MkPath {
  absolute : bool;          (* does the path start at the root "/"? *)
  parts : list pystr        (* the components after the anchor *)
}.

(** [p.name]: the final component, [''] when there is none. *)
Definition name (p : Path) : pystr := default [] (last (parts p)).

(** [p.suffix]:
    [i = name.rfind('.'); name[i:] if 0 < i < len(name) - 1 else '']. *)
Definition suffix (p : Path) : pystr :=
  match rfind_char 46 (name p) with
  | Some i =>
      if bool_decide (0 < i)%nat && bool_decide (i < length (name p) - 1)%nat
      then drop i (name p)
      else []
  | None => []
  end.

(** [p.parents]: the logical ancestors, nearest first. *)
Fixpoint parents_from (a : bool) (ps : list pystr) (n : nat) : list Path :=
  match n with
  | O => []
  | S n' => MkPath a (take n' ps) :: parents_from a ps n'
  end.

Definition parents (p : Path) : list Path :=
  parents_from (absolute p) (parts p) (length (parts p)).

(** [str(p)]. *)
Definition str_of_path (p : Path) : pystr :=
  if absolute p then 47 :: join [47] (parts p)
  else match parts p with [] => [46] | _ => join [47] (parts p) end.

(** [p.relative_to(root)]: [ValueError] unless [root] is a prefix of [p]. *)
Definition relative_to (p root : Path) : result Path :=
  if bool_decide (absolute p = absolute root)
     && bool_decide (take (length (parts root)) (parts p) = parts root)
  then Ok (MkPath false (drop (length (parts root)) (parts p)))
  else Raise (Exn ValueError (str "path is not in the subpath of root")).

(** ** The file filter *)

Definition CODE_EXTENSIONS : gset pystr :=
  list_to_set (map str
    [".py"; ".js"; ".jsx"; ".ts"; ".tsx"; ".java"; ".cpp"; ".c"; ".h"; ".hpp";
     ".cs"; ".go"; ".rs"; ".rb"; ".php"; ".swift"; ".kt"; ".scala"; ".r";
     ".html"; ".css"; ".scss"; ".sass"; ".vue"; ".svelte";
     ".json"; ".yaml"; ".yml"; ".toml"; ".xml"; ".md"; ".txt";
     ".sql"; ".sh"; ".bash"; ".ps1"; ".dockerfile"]%string).

Definition IGNORE_DIRS : gset pystr :=
  list_to_set (map str
    ["node_modules"; "__pycache__"; ".git"; ".venv"; "venv"; "env";
     "dist"; "build"; "target"; ".next"; ".nuxt"; "out";
     "coverage"; ".pytest_cache"; ".mypy_cache"; ".tox";
     "vendor"; "packages"; "bin"; "obj"]%string).

Definition IGNORE_FILES : gset pystr :=
  list_to_set (map str
    [".DS_Store"; "package-lock.json"; "yarn.lock"; "poetry.lock";
     "Pipfile.lock"; ".gitignore"; ".env"; ".env.local"]%string).

(** The part of the operating system the ingestion reads: the walk of
    the tree, the kind and the size of an entry, and the bytes of a file.
    [stat_size] is [p.stat().st_size], which may raise; [read_bytes] is
    what opening the file and reading it to its end gives: the bytes, or
    the error that [open] or [read] raises (an [OSError] for a file that
    cannot be opened or read). *)
Record FileSystem := {
  rglob : Path -> list Path;
  is_file : Path -> bool;
  stat_size : Path -> result Z;
  read_bytes : Path -> result pybytes
}.

Section Filter.
(** [str.lower], which follows the Unicode case mapping. *)
Variable lower : pystr -> pystr.
Variable fs : FileSystem.

(** The [for parent in file_path.parents] loop with its early return:
    [true] when some parent's name is an ignored directory. *)
Fixpoint in_ignored_dir (ps : list Path) : bool :=
  match ps with
  | [] => false
  | parent :: ps' =>
      if bool_decide (name parent ∈ IGNORE_DIRS) then true
      else in_ignored_dir ps'
  end.

Definition should_process_file (file_path : Path) : result bool :=
  if negb (bool_decide (lower (suffix file_path) ∈ CODE_EXTENSIONS))
  then Ok false
  else if bool_decide (name file_path ∈ IGNORE_FILES) then Ok false
  else if in_ignored_dir (parents file_path) then Ok false
  else
    match stat_size fs file_path with
    | Ok size => if (size >? 1000000)%Z then Ok false else Ok true
    | Raise _ => Ok false          (* the bare [except:] *)
    end.
End Filter.

(** ** The content loader *)

Inductive Encoding := UTF_8 | LATIN_1 | CP1252.

Definition decode_error (codec : string) : exn :=
  Exn UnicodeDecodeError (str codec ++ str " codec can't decode byte").

(** The [latin-1] codec: byte [b] is the code point [b]. *)
Definition latin_1_decode (bs : pybytes) : result pystr :=
  Ok (map Byte.to_N bs).

Definition is_continuation (b : N) : bool := (128 <=? b) && (b <=? 191).

(** The strict [utf-8] codec: shortest forms only, no surrogates, nothing
    above U+10FFFF.  [None] is a decoding error. *)
Fixpoint utf_8_scan (bs : list N) : option pystr :=
  match bs with
  | [] => Some []
  | b0 :: r0 =>
      if b0 <? 128 then cons b0 <$> utf_8_scan r0
      else if (194 <=? b0) && (b0 <=? 223) then
        match r0 with
        | b1 :: r1 =>
            if is_continuation b1
            then cons ((b0 - 192) * 64 + (b1 - 128)) <$> utf_8_scan r1
            else None
        | _ => None
        end
      else if (224 <=? b0) && (b0 <=? 239) then
        match r0 with
        | b1 :: b2 :: r2 =>
            if is_continuation b1 && is_continuation b2
               && negb ((b0 =? 224) && (b1 <? 160))
               && negb ((b0 =? 237) && (159 <? b1))
            then cons ((b0 - 224) * 4096 + (b1 - 128) * 64 + (b2 - 128))
                   <$> utf_8_scan r2
            else None
        | _ => None
        end
      else if (240 <=? b0) && (b0 <=? 244) then
        match r0 with
        | b1 :: b2 :: b3 :: r3 =>
            if is_continuation b1 && is_continuation b2 && is_continuation b3
               && negb ((b0 =? 240) && (b1 <? 144))
               && negb ((b0 =? 244) && (143 <? b1))
            then cons ((b0 - 240) * 262144 + (b1 - 128) * 4096
                       + (b2 - 128) * 64 + (b3 - 128))
                   <$> utf_8_scan r3
            else None
        | _ => None
        end
      else None
  end.

Definition utf_8_decode (bs : pybytes) : result pystr :=
  match utf_8_scan (map Byte.to_N bs) with
  | Some s => Ok s
  | None => Raise (decode_error "utf-8")
  end.

(** The [cp1252] codec: Windows-1252 with five unassigned bytes. *)
Definition cp1252_high : list (option N) :=
  [Some 8364; None; Some 8218; Some 402; Some 8222; Some 8230; Some 8224;
   Some 8225; Some 710; Some 8240; Some 352; Some 8249; Some 338; None;
   Some 381; None; None; Some 8216; Some 8217; Some 8220; Some 8221;
   Some 8226; Some 8211; Some 8212; Some 732; Some 8482; Some 353;
   Some 8250; Some 339; None; Some 382; Some 376].

Definition cp1252_char (b : N) : option N :=
  if (128 <=? b) && (b <? 160)
  then mjoin (cp1252_high !! N.to_nat (b - 128))
  else Some b.

Definition cp1252_decode (bs : pybytes) : result pystr :=
  match mapM cp1252_char (map Byte.to_N bs) with
  | Some s => Ok s
  | None => Raise (decode_error "charmap")
  end.

Definition decode (enc : Encoding) (bs : pybytes) : result pystr :=
  match enc with
  | UTF_8 => utf_8_decode bs
  | LATIN_1 => latin_1_decode bs
  | CP1252 => cp1252_decode bs
  end.

(** Text mode with [newline=None]: a CR LF pair and a lone CR both
    read as LF. *)
Fixpoint universal_newlines (s : pystr) : pystr :=
  match s with
  | [] => []
  | 13 :: r =>
      match r with
      | 10 :: r' => 10 :: universal_newlines r'
      | _ => 10 :: universal_newlines r
      end
  | c :: r => c :: universal_newlines r
  end.

(** [with open(file_path, 'r', encoding=enc) as f: return f.read()]: the
    error of opening or reading the file, or else what decoding its bytes
    gives. *)
Definition open_text (fs : FileSystem) (file_path : Path) (enc : Encoding)
  : result pystr :=
  bytes ← read_bytes fs file_path;
  universal_newlines <$> decode enc bytes.

Section Loader.
(** What opening and reading the file in a given encoding does. *)
Variable open_read : Path -> Encoding -> result pystr.

(** The [for encoding in encodings] loop; falling off its end returns
    the empty string. *)
Fixpoint read_with (encodings : list Encoding) (file_path : Path)
  : result pystr :=
  match encodings with
  | [] => Ok []
  | encoding :: rest =>
      match open_read file_path encoding with
      | Ok text => Ok text
      | Raise e =>
          if catches [UnicodeDecodeError; UnicodeError] e
          then read_with rest file_path
          else Raise e
      end
  end.

Definition read_file_content (file_path : Path) : result pystr :=
  read_with [UTF_8; LATIN_1; CP1252] file_path.
End Loader.

(** ** The chunker

    Modelled on the library: [RecursiveCharacterTextSplitter] belongs to the
    [langchain_text_splitters] package, which the repository imports and
    configures in [CodebaseIngestion.__init__] but does not contain.  The
    definitions below follow that library's algorithm ([_split_text],
    [_split_text_with_regex], [_merge_splits], [_join_docs]) for the
    arguments the constructor call leaves at their defaults
    ([keep_separator=True], [is_separator_regex=False],
    [strip_whitespace=True]) and for [length_function=len].  The
    orchestrator does not depend on them: it takes its splitter as a field
    of [CodebaseIngestion]. *)

Fixpoint is_prefix (p s : pystr) : bool :=
  match p, s with
  | [], _ => true
  | a :: p', b :: s' => (a =? b) && is_prefix p' s'
  | _ :: _, [] => false
  end.

(** [re.search(re.escape(sep), text)] for a literal separator. *)
Fixpoint contains (sep text : pystr) : bool :=
  is_prefix sep text ||
  match text with
  | [] => false
  | _ :: text' => contains sep text'
  end.

(** The pieces of [text] between the leftmost non-overlapping occurrences
    of a non-empty [sep].  [skip] counts the characters of a matched
    separator still to be consumed, [cur] is the piece being read. *)
Fixpoint pieces_aux (sep : pystr) (skip : nat) (cur text : pystr)
  : list pystr :=
  match text with
  | [] => [cur]
  | c :: rest =>
      match skip with
      | S k => pieces_aux sep k cur rest
      | O =>
          if is_prefix sep text
          then cur :: pieces_aux sep (length sep - 1) [] rest
          else pieces_aux sep O (cur ++ [c]) rest
      end
  end.

Definition pieces (sep text : pystr) : list pystr := pieces_aux sep O [] text.

(** [_split_text_with_regex(text, re.escape(separator), keep_separator=True)]:
    every piece but the first keeps the separator in front of it; the
    empty separator splits into characters; empty pieces are dropped. *)
Definition split_text_with_regex (text separator : pystr) : list pystr :=
  let splits :=
    match separator with
    | [] => map (fun c => [c]) text
    | _ =>
        match pieces separator text with
        | [] => []
        | first :: others => first :: map (app separator) others
        end
    end in
  filter (fun s => s ≠ []) splits.

(** [len] of a string or a list. *)
Definition len {A} (l : list A) : Z := Z.of_nat (length l).

Section TextSplitter.
Variables chunk_size chunk_overlap : Z.

(** [_join_docs]: join, strip, and drop the result when it is empty. *)
Definition join_docs (docs : list pystr) (separator : pystr)
  : option pystr :=
  let text := strip (join separator docs) in
  if bool_decide (text = []) then None else Some text.

Definition emit (doc : option pystr) : list pystr :=
  match doc with Some d => [d] | None => [] end.

(** The [while] loop of [_merge_splits] that pops pieces off the front of
    [current_doc] until the kept overlap is small enough.  [total] is the
    length of what [current_doc] joins to, so it is 0 when [current_doc]
    is empty and the loop condition is false there. *)
Fixpoint pop_overlap (separator_len _len total : Z)
    (current_doc : list pystr) : Z * list pystr :=
  match current_doc with
  | [] => (total, [])
  | first :: rest =>
      if ((total >? chunk_overlap)
          || ((total + _len + separator_len >? chunk_size) && (total >? 0)))%Z
      then pop_overlap separator_len _len
             (total - (len first
                       + (if bool_decide (rest ≠ []) then separator_len else 0)))%Z
             rest
      else (total, current_doc)
  end.

(** The [for d in splits] loop of [_merge_splits]. *)
Fixpoint merge_loop (separator : pystr) (splits docs current_doc : list pystr)
    (total : Z) : list pystr :=
  match splits with
  | [] => docs ++ emit (join_docs current_doc separator)
  | d :: splits' =>
      let separator_len := len separator in
      let _len := len d in
      let '(docs, current_doc, total) :=
        if ((total + _len
             + (if bool_decide (current_doc ≠ []) then separator_len else 0)
             >? chunk_size)%Z
            && bool_decide (current_doc ≠ []))
        then
          let docs := docs ++ emit (join_docs current_doc separator) in
          let '(total, current_doc) :=
            pop_overlap separator_len _len total current_doc in
          (docs, current_doc, total)
        else (docs, current_doc, total) in
      let current_doc := current_doc ++ [d] in
      let total :=
        (total + _len
         + (if bool_decide (1 < length current_doc)%nat
            then separator_len else 0))%Z in
      merge_loop separator splits' docs current_doc total
  end.

Definition merge_splits (splits : list pystr) (separator : pystr)
  : list pystr :=
  merge_loop separator splits [] [] 0%Z.

Definition flush (good_splits final_chunks : list pystr) : list pystr :=
  match good_splits with
  | [] => final_chunks
  | _ => final_chunks ++ merge_splits good_splits []
  end.

(** The [for s in splits] loop of [_split_text]: short pieces are
    collected and merged, a long piece is split again with the remaining
    separators ([recurse]) or kept whole when none is left. *)
Fixpoint split_loop (new_separators : list pystr)
    (recurse : pystr -> list pystr)
    (splits good_splits final_chunks : list pystr) : list pystr :=
  match splits with
  | [] => flush good_splits final_chunks
  | s :: splits' =>
      if (len s <? chunk_size)%Z
      then split_loop new_separators recurse splits'
             (good_splits ++ [s]) final_chunks
      else
        let final_chunks := flush good_splits final_chunks in
        let final_chunks :=
          match new_separators with
          | [] => final_chunks ++ [s]
          | _ => final_chunks ++ recurse s
          end in
        split_loop new_separators recurse splits' [] final_chunks
  end.

(** [_split_text(text, separators)].  The library first picks the
    separator: the first one that is empty or occurs in [text], with the
    ones after it as [new_separators]; the last one, with no
    [new_separators], when none does.  Here the choice is made while
    descending the list, which gives the same separator and the same
    remaining list. *)
Fixpoint _split_text (separators : list pystr) (text : pystr)
    {struct separators} : list pystr :=
  match separators with
  | [] => []
  | s :: rest =>
      if bool_decide (s = []) then
        split_loop [] (fun _ => []) (split_text_with_regex text s) [] []
      else if contains s text then
        split_loop rest (_split_text rest) (split_text_with_regex text s) [] []
      else
        match rest with
        | [] =>
            split_loop [] (fun _ => []) (split_text_with_regex text s) [] []
        | _ => _split_text rest text
        end
  end.
End TextSplitter.

Record TextSplitter := { split_text : pystr -> list pystr }.

Definition RecursiveCharacterTextSplitter (chunk_size chunk_overlap : Z)
    (separators : list pystr) : TextSplitter :=
  {| split_text := _split_text chunk_size chunk_overlap separators |}.

(** ** The ingestion orchestrator *)

Inductive pyval :=
| VStr (s : pystr)
| VInt (z : Z).

Global Instance pyval_eq_dec : EqDecision pyval.
Proof. solve_decision. Defined.

Global Instance pyval_countable : Countable pyval.
Proof.
  refine (inj_countable'
            (fun v => match v with VStr s => inl s | VInt z => inr z end)
            (fun x => match x with inl s => VStr s | inr z => VInt z end) _).
  by intros [].
Defined.

Abbreviation Metadata := (gmap string pyval).

Record CodebaseIngestion := { text_splitter : TextSplitter }.

(** [CodebaseIngestion.__init__]. *)
Definition CodebaseIngestion_init : CodebaseIngestion :=
  {| text_splitter :=
       RecursiveCharacterTextSplitter 1500 200
         [ [10; 10] ++ str "class "; [10; 10] ++ str "def ";
           [10; 10] ++ str "function "; [10; 10]; [10]; str " "; [] ] |}.

(** The accumulators of [process_codebase]. *)
Record IngestState := {
  all_chunks : list pystr;
  all_metadatas : list Metadata;
  all_ids : list pystr;
  file_count : Z;
  chunk_id : Z
}.

Definition chunk_metadata (relative_path : pystr) (file_path : Path)
    (i : Z) (total : Z) : Metadata :=
  <["file_path" := VStr relative_path]>
  (<["file_name" := VStr (name file_path)]>
  (<["file_extension" := VStr (suffix file_path)]>
  (<["chunk_index" := VInt i]>
  (<["total_chunks" := VInt total]> ∅)))).

(** The [for i, chunk in enumerate(chunks)] loop. *)
Fixpoint add_chunks (relative_path : pystr) (file_path : Path) (total : Z)
    (i : Z) (chunks : list pystr) (st : IngestState) : IngestState :=
  match chunks with
  | [] => st
  | chunk :: chunks' =>
      add_chunks relative_path file_path total (i + 1)%Z chunks'
        {| all_chunks := all_chunks st ++ [chunk];
           all_metadatas :=
             all_metadatas st ++ [chunk_metadata relative_path file_path i total];
           all_ids := all_ids st ++ [str "chunk_" ++ str_of_Z (chunk_id st)];
           file_count := file_count st;
           chunk_id := (chunk_id st + 1)%Z |}
  end.

Section Orchestrator.
Variable lower : pystr -> pystr.
Variable fs : FileSystem.
Variable self : CodebaseIngestion.

(** [str(relative_path)] after the [try]/[except ValueError]. *)
Definition relative_path_str (file_path root_path : Path) : result pystr :=
  match relative_to file_path root_path with
  | Ok p => Ok (str_of_path p)
  | Raise e => if catches [ValueError] e then Ok (name file_path) else Raise e
  end.

(** One iteration of the walk. *)
Definition process_file (root_path : Path) (st : IngestState)
    (file_path : Path) : result IngestState :=
  if negb (is_file fs file_path) then Ok st
  else
    ok ← should_process_file lower fs file_path;
    if negb ok then Ok st
    else
      content ← read_file_content (open_text fs) file_path;
      if bool_decide (strip content = []) then Ok st
      else
        relative_path ← relative_path_str file_path root_path;
        let chunks := split_text (text_splitter self) content in
        Ok (add_chunks relative_path file_path (len chunks) 0 chunks
              {| all_chunks := all_chunks st;
                 all_metadatas := all_metadatas st;
                 all_ids := all_ids st;
                 file_count := (file_count st + 1)%Z;
                 chunk_id := chunk_id st |}).

Fixpoint walk (root_path : Path) (files : list Path) (st : IngestState)
  : result IngestState :=
  match files with
  | [] => Ok st
  | file_path :: files' =>
      st' ← process_file root_path st file_path;
      walk root_path files' st'
  end.

Definition process_codebase (root_path : Path)
  : result (list pystr * list Metadata * list pystr) :=
  st ← walk root_path (rglob fs root_path)
         {| all_chunks := []; all_metadatas := []; all_ids := [];
            file_count := 0; chunk_id := 0 |};
  Ok (all_chunks st, all_metadatas st, all_ids st).
End Orchestrator.

(** ** Python sets

    A [set] is modelled by its elements in order of insertion.  Iterating
    over it ([list(s)]) follows the slots of its hash table, an order the
    language leaves unspecified: a [SetOrder] is any way of listing the
    elements once each. *)

Abbreviation pyset := (list pyval).

Definition set_add (x : pyval) (s : pyset) : pyset :=
  if bool_decide (x ∈ s) then s else s ++ [x].

Record SetOrder := {
  list_of_set : pyset -> list pyval;
  list_of_set_perm : forall s, NoDup s -> list_of_set s ≡ₚ s
}.

(** The order of a table in which every element sits in the slot of its
    hash and the slots are read in increasing order. *)
Definition slot_le (hash : pyval -> N) (x y : pyval) : Prop := hash x <= hash y.

Global Instance slot_le_dec hash x y : Decision (slot_le hash x y).
Proof. unfold slot_le. apply _. Defined.

Definition slot_order (hash : pyval -> N) : SetOrder :=
  {| list_of_set := merge_sort (slot_le hash);
     list_of_set_perm := fun s _ => merge_sort_Permutation (slot_le hash) s |}.

(** A set that happens to iterate in insertion order. *)
Definition insertion_order : SetOrder :=
  {| list_of_set := fun s => s;
     list_of_set_perm := fun s _ => reflexivity s |}.

(** ** The retriever *)

(** What [collection.query] returns for the included fields: one row per
    query embedding. *)
Record QueryResult (Distance : Type) := {
  documents : list (list pystr);
  metadatas : list (list Metadata);
  distances : list (list Distance)
}.
Arguments documents {Distance} _.
Arguments metadatas {Distance} _.
Arguments distances {Distance} _.

(** [l[0]]. *)
Definition index0 {A} (l : list A) : result A :=
  match l with
  | x :: _ => Ok x
  | [] => Raise (Exn IndexError (str "list index out of range"))
  end.

(** [d.get(key, default)]. *)
Definition dict_get (d : Metadata) (key : string) (dflt : pyval) : pyval :=
  default dflt (d !! key).

(** [f"{v}"]. *)
Definition format_value (v : pyval) : pystr :=
  match v with
  | VStr s => s
  | VInt z => str_of_Z z
  end.

(** [v.lstrip('.')]: only a string has the method. *)
Definition lstrip_dot (v : pyval) : result pystr :=
  match v with
  | VStr s => Ok (lstrip_chars [46] s)
  | VInt _ =>
      Raise (Exn AttributeError (str "'int' object has no attribute 'lstrip'"))
  end.

Definition NO_CODE_FOUND : pystr := str "No relevant code found in the codebase.".

Section Retriever.
Context {Distance : Type}.
(** [f"{1 - distance:.2f}"]. *)
Variable format_score : Distance -> pystr.
Variable order : SetOrder.
(** [self.vector_store.search], which may raise. *)
Variable search : pystr -> Z -> result (QueryResult Distance).

Definition context_part (file_path : pyval) (distance : Distance)
    (extension doc : pystr) : pystr :=
  [10] ++ str "### File: `" ++ format_value file_path ++ str "`" ++ [10]
  ++ str "**Relevance Score**: " ++ format_score distance ++ [10; 10]
  ++ str "```" ++ extension ++ [10] ++ doc ++ [10] ++ str "```" ++ [10].

(** The loop over [zip(documents[0], metadatas[0], distances[0])]. *)
Fixpoint context_loop (hits : list (pystr * Metadata * Distance))
    (context_parts : list pystr) (file_paths : pyset)
  : result (list pystr * pyset) :=
  match hits with
  | [] => Ok (context_parts, file_paths)
  | (doc, metadata, distance) :: hits' =>
      let file_path := dict_get metadata "file_path" (VStr (str "unknown")) in
      let file_paths := set_add file_path file_paths in
      extension ← lstrip_dot (dict_get metadata "file_extension" (VStr []));
      context_loop hits'
        (context_parts ++ [context_part file_path distance extension doc])
        file_paths
  end.

Definition retrieve_context (query : pystr) (n_results : Z)
  : result (pystr * list pyval) :=
  results ← search query n_results;
  if bool_decide (documents results = [])
     || bool_decide (head (documents results) = Some [])
  then Ok (NO_CODE_FOUND, [])
  else
    docs ← index0 (documents results);
    metas ← index0 (metadatas results);
    dists ← index0 (distances results);
    '(context_parts, file_paths) ← context_loop (zip (zip docs metas) dists) [] [];
    Ok (join [10] context_parts, list_of_set order file_paths).
End Retriever.

(** ** Collection names *)

Definition ascii_isalnum (c : N) : bool :=
  ((48 <=? c) && (c <=? 57)) || ((65 <=? c) && (c <=? 90))
  || ((97 <=? c) && (c <=? 122)).

Definition hex_char (d : N) : N := if d <? 10 then 48 + d else 87 + d.

(** The last [k] hexadecimal digits of [n], lower case, zero padded. *)
Fixpoint hex_digits (k : nat) (n : N) : pystr :=
  match k with
  | O => []
  | S k' => hex_digits k' (n / 16) ++ [hex_char (n mod 16)]
  end.

Section CollectionName.
(** [str.lower] and, beyond ASCII, [str.isalnum] follow the Unicode
    character database. *)
Variable lower : pystr -> pystr.
Variable unicode_isalnum : N -> bool.
(** [str.encode()] and the MD5 digest, read as a big-endian number. *)
Variable encode : pystr -> pybytes.
Variable md5 : pybytes -> N.

Definition isalnum (c : N) : bool :=
  if c <? 128 then ascii_isalnum c else unicode_isalnum c.

(** [hashlib.md5(data).hexdigest()]: 16 bytes as 32 hexadecimal digits. *)
Definition md5_hexdigest (data : pybytes) : pystr := hex_digits 32 (md5 data).

(** [now] is [int(time.time())], read when the function is called. *)
Definition create_collection_name (now : Z) (user_id : Z)
    (project_name : pystr) : pystr :=
  let unique_str :=
    str_of_Z user_id ++ str "_" ++ project_name ++ str "_" ++ str_of_Z now in
  let hash_suffix := take 8 (md5_hexdigest (encode unique_str)) in
  let safe_name := take 30 (replace_char 32 (str "_") (lower project_name)) in
  let safe_name :=
    filter (fun c => isalnum c || char_in c (str "_-")) safe_name in
  str "user" ++ str_of_Z user_id ++ str "_" ++ safe_name ++ str "_"
  ++ hash_suffix.
End CollectionName.

(** ** Deleting a collection *)

Record VectorStore := { collection_name : pystr }.

Section Deletion.
(** The state of the storage client and its own [delete_collection],
    which may raise and may or may not change the state when it does. *)
Variable Client : Type.
Variable client_delete_collection : pystr -> Client -> Client * result unit.

Record World := { chroma_client : Client; stdout : list pystr }.

Definition print (line : pystr) (w : World) : World :=
  {| chroma_client := chroma_client w; stdout := stdout w ++ [line] |}.

Definition delete_collection (self : VectorStore) (w : World)
  : World * result unit :=
  let '(c, r) :=
    client_delete_collection (collection_name self) (chroma_client w) in
  let w' := {| chroma_client := c; stdout := stdout w |} in
  match r with
  | Ok _ => (w', Ok tt)
  | Raise e =>
      if catches [Exception] e
      then (print (str "Error deleting collection " ++ collection_name self
                   ++ str ": " ++ exn_str e) w', Ok tt)
      else (w', Raise e)
  end.
End Deletion.
Arguments chroma_client {Client} _.
Arguments stdout {Client} _.

(** A storage client that knows its collections by name and refuses to
    delete one it does not have. *)
Definition names_delete (name : pystr) (c : gset pystr)
  : gset pystr * result unit :=
  if bool_decide (name ∈ c) then (c ∖ {[name]}, Ok tt)
  else (c, Raise (Exn NotFoundError
                    (str "Collection " ++ name ++ str " does not exist.")))%list.

(** ** The answer composer *)

(** Code points of a literal written in UTF-8. *)
Definition text (s : string) : pystr :=
  default [] (utf_8_scan (map N_of_ascii (list_ascii_of_string s))).

Definition SYSTEM_PROMPT : pystr := text
"# CODEBASE ARCHITECT & SENIOR DEVELOPER

## **YOUR PURPOSE**
You are an expert Codebase Architect and Senior Developer with deep understanding of software architecture, design patterns, and best practices. Your role is to help developers understand, debug, and extend their codebases.

## **CORE PRINCIPLES**
1. **Evidence-Based Reasoning**: Always ground your answers in the actual code provided in the context.
2. **Comprehensive Analysis**: Consider the full architecture, data flow, and dependencies.
3. **Practical Guidance**: Provide specific, actionable advice with code examples when appropriate.
4. **Best Practices**: Suggest improvements following industry standards and the project's existing patterns.

## **YOUR CAPABILITIES**
- **Debugging**: Identify root causes of errors by analyzing code context and data flow
- **Feature Development**: Suggest implementation strategies that integrate seamlessly with existing code
- **Code Explanation**: Provide clear, layered explanations from high-level concepts to implementation details
- **Architecture Review**: Analyze system design and suggest improvements
- **Refactoring**: Recommend code improvements while maintaining functionality

## **RESPONSE GUIDELINES**
- Always cite specific files, functions, and line numbers when referencing code
- Provide step-by-step explanations for complex topics
- When suggesting changes, show before/after code examples
- If context is insufficient, clearly state what additional information would help
- Use markdown formatting for code blocks with appropriate language tags
- Be concise but thorough - avoid superficial answers

## **CONTEXT USAGE**
You will be provided with relevant code chunks from the codebase. Use this context to:
1. Understand the existing architecture and patterns
2. Identify related components and dependencies
3. Ensure your suggestions are compatible with the current codebase
4. Reference specific implementations when answering

Remember: You are a pair programmer helping the developer succeed. Be supportive, precise, and always grounded in the actual code.".

Definition PROMPT_HEADER : pystr := str "## RELEVANT CODE CONTEXT" ++ [10; 10].

Definition PROMPT_RULE : pystr := [10; 10] ++ str "---" ++ [10; 10].

Definition PROMPT_QUESTION : pystr := str "## USER QUESTION" ++ [10].

Definition PROMPT_INSTRUCTIONS : pystr := text
"

---

Please analyze the code context above and provide an answer. Follow these guidelines:

**Response Length:**
- For simple questions (greetings, thanks, clarifications): Give a brief, friendly 1-2 sentence response
- For technical questions: Provide detailed analysis with code examples

**Structure for Technical Answers:**
1. Start with a brief summary/answer
2. Use clear headings (##, ###) to organize sections
3. Reference specific files with backticks: `filename.py`
4. Use code blocks with language tags for code examples
5. Use bullet points or numbered lists for clarity
6. Add emojis sparingly for visual appeal (✅, 🔍, 💡, ⚠️)

**Content Requirements:**
- Match response length to question complexity
- For greetings/thanks: Be brief and friendly
- For technical questions: Reference specific files and provide code examples
- Be precise, actionable, and easy to understand

**Example Format:**
```
## 🔍 Analysis

Brief summary here...

### Key Components

1. **Component Name** (`file.py`)
   - Description
   - Code example in proper blocks

### Implementation Details

\`\`\`python
# Code example with syntax highlighting
def example():
    pass
\`\`\`

### Recommendations

✅ Do this...
⚠️ Avoid that...
```

Now provide your analysis:".

Record ChatMessage := { role : pystr; content : pystr }.

(** What the agent framework returns: a response may or may not carry a
    [content] attribute and a [messages] list; [str(...)] always exists. *)
Record RunMessage := {
  message_content : option pystr;
  message_repr : pystr
}.

Record RunResponse := {
  response_content : option pystr;
  response_messages : option (list RunMessage);
  response_repr : pystr
}.

(** What the direct model call returns; reading [.text] may raise. *)
Record GenerateResponse := { response_text : result pystr }.

(** The agent of the framework, as its constructor is called. *)
Record Agent := {
  agent_name : pystr;
  agent_model : pystr;
  instructions : pystr;
  markdown : bool
}.

(** The calls the composer makes to the outside, in order. *)
Inductive Event :=
| AgentRun (agent : Agent) (prompt : pystr)
| Print (line : pystr)
| GenerateContent (model system_instruction prompt : pystr).

Record Analysis := { reply : pystr; relevant_files : list pyval }.

Definition GEMINI_MODEL : pystr := str "gemini-2.0-flash-exp".

(** The composer; its vector store is the [search] of the retriever. *)
Record CodebaseArchitectAgent := { agent : Agent }.

(** [CodebaseArchitectAgent.__init__], given the stripped value of the
    [GEMINI_API_KEY] environment variable. *)
Definition CodebaseArchitectAgent_init (api_key : pystr)
  : result CodebaseArchitectAgent :=
  if bool_decide (api_key = [])
  then Raise (Exn ValueError
                (str "GEMINI_API_KEY not found in environment variables"))
  else Ok {| agent := {| agent_name := str "CodebaseArchitect";
                         agent_model := GEMINI_MODEL;
                         instructions := SYSTEM_PROMPT;
                         markdown := true |} |}.

Definition APOLOGY : pystr :=
  str "I apologize, but I encountered an error analyzing the codebase: ".

(** [l[-n:]]. *)
Definition last_n {A} (n : nat) (l : list A) : list A :=
  drop (length l - n) l.

Definition history_line (msg : ChatMessage) : pystr :=
  let who :=
    if bool_decide (role msg = str "user") then str "User" else str "Assistant" in
  str "**" ++ who ++ str "**: " ++ take 200 (content msg) ++ str "..."
  ++ [10; 10].

Definition conversation_context (chat_history : option (list ChatMessage))
  : pystr :=
  match chat_history with
  | None | Some [] => []
  | Some history =>
      [10] ++ str "## CONVERSATION HISTORY" ++ [10; 10]
      ++ concat (map history_line (last_n 6 history))
      ++ str "---" ++ [10; 10]
  end.

Definition build_prompt (context : pystr)
    (chat_history : option (list ChatMessage)) (question : pystr) : pystr :=
  PROMPT_HEADER ++ context ++ PROMPT_RULE ++ conversation_context chat_history
  ++ PROMPT_QUESTION ++ question ++ PROMPT_INSTRUCTIONS.

(** The [hasattr] cascade that reads the reply off the agent's response. *)
Definition extract_reply (response : RunResponse) : pystr :=
  match response_content response with
  | Some c => c
  | None =>
      match response_messages response with
      | Some (m :: ms) =>
          let final := default m (last (m :: ms)) in
          default (message_repr final) (message_content final)
      | _ => response_repr response
      end
  end.

Section Composer.
Context {Distance : Type}.
Variable format_score : Distance -> pystr.
Variable order : SetOrder.
Variable search : pystr -> Z -> result (QueryResult Distance).
(** [agent.run] and [GenerativeModel(model, system_instruction=...)
    .generate_content_async]. *)
Variable agent_run : Agent -> pystr -> result RunResponse.
Variable generate_content_async :
  pystr -> pystr -> pystr -> result GenerateResponse.

Definition _fallback_gemini_call (prompt : pystr)
    (relevant_files : list pyval) : list Event * result Analysis :=
  ([GenerateContent GEMINI_MODEL SYSTEM_PROMPT prompt],
   match (response ← generate_content_async GEMINI_MODEL SYSTEM_PROMPT prompt;
          response_text response) with
   | Ok t => Ok {| reply := t; relevant_files := relevant_files |}
   | Raise e =>
       if catches [Exception] e
       then Ok {| reply := APOLOGY ++ exn_str e;
                  relevant_files := relevant_files |}
       else Raise e
   end).

Definition analyze (self : CodebaseArchitectAgent) (question : pystr)
    (chat_history : option (list ChatMessage))
  : list Event * result Analysis :=
  match retrieve_context format_score order search question 8 with
  | Raise e => ([], Raise e)
  | Ok (context, relevant_files) =>
      let prompt := build_prompt context chat_history question in
      match agent_run (agent self) prompt with
      | Ok response =>
          ([AgentRun (agent self) prompt],
           Ok {| reply := extract_reply response;
                 relevant_files := relevant_files |})
      | Raise e =>
          if catches [Exception] e
          then
            let '(events, r) := _fallback_gemini_call prompt relevant_files in
            ([AgentRun (agent self) prompt;
              Print (str "Agno agent error, falling back to direct Gemini: "
                     ++ exn_str e)] ++ events, r)
          else ([AgentRun (agent self) prompt], Raise e)
      end
  end.
End Composer.

(** ** Vocabulary of the specification *)

Global Instance Path_eq_dec : EqDecision Path.
Proof. solve_decision. Defined.

(** The names of the directories above a file: every component of its
    path but the last. *)
Definition ancestor_dirs (p : Path) : list pystr :=
  take (length (parts p) - 1) (parts p).

(** The reasons for which the file filter turns a file down. *)
Definition rejected (lower : pystr -> pystr) (fs : FileSystem) (p : Path)
  : Prop :=
  lower (suffix p) ∉ CODE_EXTENSIONS
  \/ name p ∈ IGNORE_FILES
  \/ (exists d, d ∈ ancestor_dirs p /\ d ∈ IGNORE_DIRS)
  \/ (exists size, stat_size fs p = Ok size /\ (1000000 < size)%Z)
  \/ (exists e, stat_size fs p = Raise e).

(** A failed attempt to decode: the exception is a [UnicodeError]
    ([UnicodeDecodeError] is one of its subclasses). *)
Definition decode_failure (r : result pystr) : Prop :=
  exists e, r = Raise e /\ issubclass (exn_cls e) UnicodeError = true.

(** What one run of the ingestion is expected to produce, file by file. *)
Section IngestSpec.
Variable lower : pystr -> pystr.
Variable fs : FileSystem.
Variable self : CodebaseIngestion.
Variable root_path : Path.

(** The text the content loader reads from a file. *)
Definition text_of (p : Path) : pystr :=
  match read_file_content (open_text fs) p with
  | Ok t => t
  | Raise _ => []
  end.

(** A regular file that passes the filter and is not blank. *)
Definition eligible (p : Path) : bool :=
  is_file fs p
  && match should_process_file lower fs p with Ok b => b | Raise _ => false end
  && negb (bool_decide (strip (text_of p) = [])).

Definition chunks_of (p : Path) : list pystr :=
  split_text (text_splitter self) (text_of p).

(** The path recorded for a file: relative to the root, or the bare
    file name. *)
Definition label_of (p : Path) : pystr :=
  match relative_to p root_path with
  | Ok q => str_of_path q
  | Raise _ => name p
  end.

(** The chunks of one file, each with its metadata. *)
Definition records_of (p : Path) : list (pystr * Metadata) :=
  imap (fun i chunk =>
          (chunk, chunk_metadata (label_of p) p (Z.of_nat i) (len (chunks_of p))))
       (chunks_of p).

(** The files that contribute chunks, in the order of the walk. *)
Definition ingested_files : list Path :=
  filter (fun p => eligible p = true) (rglob fs root_path).

Definition records : list (pystr * Metadata) :=
  concat (map records_of ingested_files).
End IngestSpec.

(** The id of the chunk at position [n] of a run. *)
Definition chunk_id_str (n : nat) : pystr :=
  str "chunk_" ++ str_of_Z (Z.of_nat n).

(** The accumulators of the walk once [recs] have been produced from
    [count] files. *)
Definition state_of (recs : list (pystr * Metadata)) (count : Z) : IngestState :=
  {| all_chunks := recs.*1;
     all_metadatas := recs.*2;
     all_ids := map chunk_id_str (seq 0 (length recs));
     file_count := count;
     chunk_id := Z.of_nat (length recs) |}.

(** The number a string of decimal digits denotes. *)
Definition digits_value (s : pystr) : N :=
  fold_left (fun acc c => acc * 10 + (c - 48)) s 0.

(** What a search returned, as the retriever reads it: the first rows of
    the three fields, zipped. *)
Definition hits {Distance} (r : QueryResult Distance)
  : list (pystr * Metadata * Distance) :=
  zip (zip (default [] (head (documents r))) (default [] (head (metadatas r))))
      (default [] (head (distances r))).

(** The file path the retriever reads off a hit. *)
Definition hit_path {Distance} (h : pystr * Metadata * Distance) : pyval :=
  dict_get h.1.2 "file_path" (VStr (str "unknown")).

(** The distinct values of a list in order of first appearance. *)
Fixpoint first_occurrences (l : list pyval) : list pyval :=
  match l with
  | [] => []
  | x :: l' => x :: filter (fun y => y <> x) (first_occurrences l')
  end.

Definition is_str (v : pyval) : bool :=
  match v with VStr _ => true | VInt _ => false end.

(** The shape of what the vector index returns for one query: the three
    fields have their row, and a file extension, when recorded, is a
    string. *)
Definition row_shaped {Distance} (r : QueryResult Distance) : bool :=
  (bool_decide (documents r = []) || bool_decide (head (documents r) = Some [])
   || (bool_decide (metadatas r <> []) && negb (bool_decide (length (distances r) = O))))
  && forallb (fun h => is_str (dict_get h.1.2 "file_extension" (VStr [])))
       (hits r).

(** A character of the names' alphabet: one [str.isalnum] accepts, an
    underscore or a hyphen. *)
Definition name_char (unicode_isalnum : N -> bool) (c : N) : Prop :=
  isalnum unicode_isalnum c = true \/ c = 95 \/ c = 45.

(** ** Sample inputs *)

(** A hash that sends a string to the slot of its first character in a
    table of eight slots. *)
Definition first_char_slot (v : pyval) : N :=
  match v with
  | VStr (c :: _) => c mod 8
  | _ => 0
  end.

(** Three hits from two files, the better-ranked file being [b.py]. *)
Definition sample_results : QueryResult N :=
  {| documents := [[str "def b(): pass"; str "def a(): pass"; str "b = 1"]];
     metadatas :=
       [[ <["file_path" := VStr (str "b.py")]>
            (<["file_extension" := VStr (str ".py")]> ∅);
          <["file_path" := VStr (str "a.py")]>
            (<["file_extension" := VStr (str ".py")]> ∅);
          <["file_path" := VStr (str "b.py")]>
            (<["file_extension" := VStr (str ".py")]> ∅) ]];
     distances := [[1; 2; 3]] |}.

(** [str.lower] on ASCII text. *)
Definition ascii_lower (s : pystr) : pystr :=
  map (fun c => if (65 <=? c) && (c <=? 90) then c + 32 else c) s.

(** [str.isalnum] beyond ASCII, for the characters of Latin-1 only: its
    letters, superscript digits and fractions. *)
Definition latin_1_isalnum (c : N) : bool :=
  (c =? 170) || (c =? 178) || (c =? 179) || (c =? 181) || (c =? 185)
  || (c =? 186) || ((188 <=? c) && (c <=? 190))
  || ((192 <=? c) && (c <=? 255) && negb (c =? 215) && negb (c =? 247)).

(** A stand-in for [str.encode] and for the digest: the bytes of ASCII
    text, and a digest that only adds them up. *)
Definition ascii_encode (s : pystr) : pybytes :=
  omap (fun c => Byte.of_N c) s.

Definition sum_digest (data : pybytes) : N :=
  fold_left (fun acc b => acc * 257 + Byte.to_N b) data 0.

Definition thirty_letters : pystr := replicate 30 97.

(** A search that finds nothing, an agent and a model that are down. *)
Definition empty_results : QueryResult N :=
  {| documents := [[]]; metadatas := [[]]; distances := [[]] |}.

(** A search on a collection that was deleted. *)
Definition search_down (query : pystr) (n_results : Z)
  : result (QueryResult N) :=
  Raise (Exn NotFoundError
           (str "Collection user7_shop_0000002a does not exist.")).

Definition agent_down (a : Agent) (prompt : pystr) : result RunResponse :=
  Raise (Exn RuntimeError (str "agent unavailable")).

Definition model_down (model system_instruction prompt : pystr)
  : result GenerateResponse :=
  Raise (Exn RuntimeError (str "quota exceeded")).

Definition model_up (model system_instruction prompt : pystr)
  : result GenerateResponse :=
  Ok {| response_text := Ok (str "Hello!") |}.

(** An attempt to read a file that fails to decode. *)
Definition undecodable : result pystr := Raise (decode_error "utf-8").

(** The bytes of an ASCII literal. *)
Definition bytes_of (s : string) : pybytes :=
  map byte_of_ascii (list_ascii_of_string s).

(** An unpacked archive: a short [README.md] next to a vendored script. *)
Definition sample_root : Path := MkPath true [str "tmp"; str "myrepo"].

Definition sample_readme : Path :=
  MkPath true [str "tmp"; str "myrepo"; str "README.md"].

Definition sample_vendor_dir : Path :=
  MkPath true [str "tmp"; str "myrepo"; str "node_modules"].

Definition sample_vendored : Path :=
  MkPath true [str "tmp"; str "myrepo"; str "node_modules"; str "x.js"].

Definition sample_fs : FileSystem :=
  {| rglob := fun _ => [sample_readme; sample_vendor_dir; sample_vendored];
     is_file := fun p => negb (bool_decide (p = sample_vendor_dir));
     stat_size := fun _ => Ok 50%Z;
     read_bytes := fun p =>
       if bool_decide (p = sample_readme)
       then Ok (bytes_of "# My repo" ++ [x0a])
       else Ok (bytes_of "module.exports = 1") |}.

(** A tree where [README.md] holds two bytes that are not UTF-8 and
    [x.py] is a link to a file that cannot be read. *)
Definition sample_link : Path :=
  MkPath true [str "tmp"; str "myrepo"; str "x.py"].

Definition linked_fs : FileSystem :=
  {| rglob := fun _ => [sample_readme; sample_link];
     is_file := fun _ => true;
     stat_size := fun _ => Ok 0%Z;
     read_bytes := fun p =>
       if bool_decide (p = sample_readme) then Ok [xe9; xe9]
       else Raise (Exn OSError (str "[Errno 5] Input/output error")) |}.

(** What a run returned, with each metadata record read through three of
    its keys. *)
Definition run_summary (out : list pystr * list Metadata * list pystr)
  : list pystr * list (option pyval * option pyval * option pyval)
    * list pystr :=
  let '(chunks, metadatas, ids) := out in
  (chunks,
   map (fun m : Metadata =>
          (m !! "file_path"%string, m !! "chunk_index"%string,
           m !! "total_chunks"%string)) metadatas,
   ids).

(** ** Archives and repositories *)

(** [p / name] for one component. *)
Definition joinpath (p : Path) (name : pystr) : Path :=
  MkPath (absolute p) (parts p ++ [name]).

(** A directory after something was unpacked into it: the files as the
    ingestion reads them, the names of the entries of a directory
    ([os.listdir]) and which paths are directories. *)
Record Extracted := {
  tree : FileSystem;
  listdir : Path -> list pystr;
  is_dir : Path -> bool
}.

(** [p.iterdir()]: the entries of [p], each as [p / name]. *)
Definition iterdir (ex : Extracted) (p : Path) : list Path :=
  map (joinpath p) (listdir ex p).

Section Sources.
Variable lower : pystr -> pystr.
Variable self : CodebaseIngestion.
(** [zipfile.ZipFile(zip_path, 'r').extractall(extract_to)] and
    [git.Repo.clone_from(repo_url, clone_to, depth=1)]: both may raise, and
    leave a directory to read when they do not. *)
Variable extractall : Path -> Path -> result Extracted.
Variable clone_from : pystr -> Path -> result FileSystem.

(** [extract_zip]: the root is the only entry of [extract_to] when that is
    a directory, and [extract_to] itself otherwise. *)
Definition extract_zip (zip_path extract_to : Path)
  : result (Extracted * Path) :=
  ex ← extractall zip_path extract_to;
  match iterdir ex extract_to with
  | [item] => if is_dir ex item then Ok (ex, item) else Ok (ex, extract_to)
  | _ => Ok (ex, extract_to)
  end.

(** [clone_github_repo]: any failure of the clone is raised again as a
    [ValueError]. *)
Definition clone_github_repo (repo_url : pystr) (clone_to : Path)
  : result (FileSystem * Path) :=
  match clone_from repo_url clone_to with
  | Ok fs => Ok (fs, clone_to)
  | Raise e =>
      if catches [Exception] e
      then Raise (Exn ValueError
                    (str "Failed to clone repository: " ++ exn_str e))
      else Raise e
  end.

(** [ingest_from_zip] and [ingest_from_github]; [temp_dir] is the
    directory [tempfile.TemporaryDirectory()] made for the call. *)
Definition ingest_from_zip (temp_dir zip_path : Path)
  : result (list pystr * list Metadata * list pystr) :=
  '(ex, root_path) ← extract_zip zip_path temp_dir;
  process_codebase lower (tree ex) self root_path.

Definition ingest_from_github (temp_dir : Path) (repo_url : pystr)
  : result (list pystr * list Metadata * list pystr) :=
  '(fs, root_path) ← clone_github_repo repo_url (joinpath temp_dir (str "repo"));
  process_codebase lower fs self root_path.
End Sources.

(** A path strictly below [root]: same anchor, the components of [root]
    and then some more. *)
Definition below (root p : Path) : Prop :=
  absolute p = absolute root
  /\ exists rel, rel <> [] /\ parts p = parts root ++ rel.

(** The components of [p] after those of [root]. *)
Definition relative_parts (root p : Path) : list pystr :=
  drop (length (parts root)) (parts p).

(** ** Vocabulary for the retriever and the composer *)

(** The recorded extension of a hit, [''] when there is none. *)
Definition extension_of (m : Metadata) : pystr :=
  match dict_get m "file_extension" (VStr []) with
  | VStr s => s
  | VInt _ => []
  end.

(** The section of the context block that shows one hit. *)
Definition section_of {Distance} (format_score : Distance -> pystr)
    (h : pystr * Metadata * Distance) : pystr :=
  context_part format_score (hit_path h) h.2
    (lstrip_chars [46] (extension_of h.1.2)) h.1.1.

(** A metadata record as the ingestion writes them. *)
Definition written_by_ingestion (m : Metadata) : Prop :=
  exists relative_path file_path i total,
    m = chunk_metadata relative_path file_path i total.

(** A message cut to its first 200 characters. *)
Definition clip (msg : ChatMessage) : ChatMessage :=
  {| role := role msg; content := take 200 (content msg) |}.

(** One hit as the ingestion records it, for a file [src/app.py]. *)
Definition ingested_results : QueryResult N :=
  {| documents := [[str "x = 1"]];
     metadatas :=
       [[chunk_metadata (str "src/app.py")
           (MkPath true [str "tmp"; str "src"; str "app.py"]) 0 1]];
     distances := [[3]] |}.



(** An archive that unpacks to the single directory [myrepo]. *)
Definition sample_temp : Path := MkPath true [str "tmp"].

Definition sample_extracted : Extracted :=
  {| tree := sample_fs;
     listdir := fun p => if bool_decide (p = sample_temp) then [str "myrepo"]
                         else [];
     is_dir := fun p => bool_decide (p = sample_root) |}.

Definition broken_clone (repo_url : pystr) (clone_to : Path)
  : result FileSystem :=
  Raise (Exn OSError (str "repository not found")).

(** ** The vector store: opening a collection and adding to it *)

Section Store.
Variable Client : Type.
(** [_chroma_client.get_or_create_collection(name=..., metadata=...)] and,
    for the collection of a given name, the embedding of the texts followed
    by [collection.add(...)]: both may raise, and may change the client
    when they do. *)
Variable get_or_create_collection : pystr -> Client -> Client * result unit.
Variable collection_add :
  pystr -> list pystr -> list Metadata -> list pystr -> Client
  -> Client * result unit.

(** [VectorStore.__init__]. *)
Definition VectorStore_init (collection_name : pystr) (w : World Client)
  : World Client * result VectorStore :=
  let '(c, r) := get_or_create_collection collection_name (chroma_client w) in
  let w' := {| chroma_client := c; stdout := stdout w |} in
  match r with
  | Ok _ => (w', Ok {| collection_name := collection_name |})
  | Raise e => (w', Raise e)
  end.

(** [VectorStore.add_documents]. *)
Definition add_documents (self : VectorStore) (texts : list pystr)
    (metadatas : list Metadata) (ids : list pystr) (w : World Client)
  : World Client * result unit :=
  let '(c, r) :=
    collection_add (collection_name self) texts metadatas ids
      (chroma_client w) in
  ({| chroma_client := c; stdout := stdout w |}, r).
End Store.

(** ** The tables of the database *)

(** The mapped classes, with the columns the routes read or write; the
    timestamps, which the database fills in, are left out. *)
Module models.

Module User.
Record t := { id : Z; email : pystr }.
End User.

Module Conversation.
Record t := { id : Z; user_id : option Z; title : pystr }.
End Conversation.

Module ChatMessage.
Record t := { id : Z; conversation_id : Z; role : pystr; content : pystr }.
End ChatMessage.

Module CodebaseProject.
Record t := {
  id : Z;
  user_id : Z;
  name : pystr;
  description : option pystr;
  source_type : pystr;
  source_url : option pystr;
  vector_store_id : pystr;
  file_count : Z;
  total_chunks : Z
}.
End CodebaseProject.

End models.

(** The rows of the tables, oldest first, and the next value of the
    auto-increment keys of the two tables the routes insert into.  The
    database is taken to answer every statement: a lost connection is not
    part of the model. *)
Record Database := {
  conversations : list models.Conversation.t;
  messages : list models.ChatMessage.t;
  codebase_projects : list models.CodebaseProject.t;
  next_message_id : Z;
  next_project_id : Z
}.

(** What a route raises: the framework's HTTP error, the two exceptions
    outside the modelled hierarchy, and any exception of that hierarchy. *)
Inductive RouteError :=
| HTTPException (status_code : Z) (detail : pystr)
| MultipleResultsFound
| KeyError (key : string)
| Uncaught (e : exn).

Inductive outcome (A : Type) :=
| Return (a : A)
| Throw (e : RouteError).
Arguments Return {A} a.
Arguments Throw {A} e.

(** [select(CodebaseProject).where(id == project_id, user_id == user_id)]
    and the same for conversations, whose owner may be NULL. *)
Definition select_project (project_id user_id : Z) (db : Database)
  : list models.CodebaseProject.t :=
  filter (fun p => models.CodebaseProject.id p = project_id
                   /\ models.CodebaseProject.user_id p = user_id)
    (codebase_projects db).

Definition select_conversation (conversation_id user_id : Z) (db : Database)
  : list models.Conversation.t :=
  filter (fun c => models.Conversation.id c = conversation_id
                   /\ models.Conversation.user_id c = Some user_id)
    (conversations db).

(** [result.scalar_one_or_none()]. *)
Definition scalar_one_or_none {A} (rows : list A) : outcome (option A) :=
  match rows with
  | [] => Return None
  | [row] => Return (Some row)
  | _ => Throw MultipleResultsFound
  end.

(** [db.add(project)], [db.commit()], [db.refresh(project)]: the row gets
    the next key and is returned with it. *)
Definition add_project (project : Z -> models.CodebaseProject.t)
    (db : Database) : Database * models.CodebaseProject.t :=
  let row := project (next_project_id db) in
  ({| conversations := conversations db;
      messages := messages db;
      codebase_projects := codebase_projects db ++ [row];
      next_message_id := next_message_id db;
      next_project_id := next_project_id db + 1 |}, row).

(** [db.add(message)] before the commit. *)
Definition add_message (message : Z -> models.ChatMessage.t) (db : Database)
  : Database :=
  {| conversations := conversations db;
     messages := messages db ++ [message (next_message_id db)];
     codebase_projects := codebase_projects db;
     next_message_id := next_message_id db + 1;
     next_project_id := next_project_id db |}.

(** [db.delete(project)] and [db.commit()]: the row with the key of
    [project] goes. *)
Definition delete_row (project : models.CodebaseProject.t) (db : Database)
  : Database :=
  {| conversations := conversations db;
     messages := messages db;
     codebase_projects :=
       filter (fun p => models.CodebaseProject.id p
                        <> models.CodebaseProject.id project)
         (codebase_projects db);
     next_message_id := next_message_id db;
     next_project_id := next_project_id db |}.

(** ** Requests and responses *)

Module schemas.

Module CodebaseUploadResponse.
Record t := {
  project_id : Z;
  name : pystr;
  file_count : Z;
  total_chunks : Z;
  message : pystr
}.
End CodebaseUploadResponse.

Module ChatHistoryMessage.
Record t := { role : pystr; content : pystr; timestamp : pystr }.
End ChatHistoryMessage.

Module CodebaseAnalysisRequest.
Record t := {
  project_id : Z;
  question : pystr;
  conversation_id : option Z;
  chat_history : list ChatHistoryMessage.t
}.
End CodebaseAnalysisRequest.

(** The arguments the route hands to the response model. *)
Module CodebaseAnalysisResponse.
Record t := {
  reply : pystr;
  relevant_files : list pyval;
  conversation_id : option Z
}.
End CodebaseAnalysisResponse.

End schemas.

(** An uploaded file: its name, and what reading it gives. *)
Record UploadFile := { filename : pystr; read : result pybytes }.

(** [s.endswith(suffix)]. *)
Definition endswith (s suffix : pystr) : bool :=
  bool_decide (length suffix <= length s)%nat
  && bool_decide (drop (length s - length suffix) s = suffix).

(** [meta['file_path'] for meta in metadatas], which raises at the first
    record without the key. *)
Fixpoint file_paths (metadatas : list Metadata) : outcome (list pyval) :=
  match metadatas with
  | [] => Return []
  | meta :: rest =>
      match meta !! "file_path"%string with
      | None => Throw (KeyError "file_path")
      | Some file_path =>
          match file_paths rest with
          | Return paths => Return (file_path :: paths)
          | Throw e => Throw e
          end
      end
  end.

Global Instance Path_countable : Countable Path.
Proof.
  refine (inj_countable' (fun p => (absolute p, parts p))
            (fun x => MkPath x.1 x.2) _).
  by intros [].
Defined.

(** What the routes act on: the database, the storage client with the
    console, and the files that exist on disk. *)
Record Server (Client : Type) := {
  database : Database;
  store : World Client;
  files : gset Path
}.
Arguments database {Client} _.
Arguments store {Client} _.
Arguments files {Client} _.

(** ** The routes of the codebase router *)

Module routers.
Section Routes.
Context {Client Distance : Type}.
Variable lower : pystr -> pystr.
Variable unicode_isalnum : N -> bool.
Variable encode : pystr -> pybytes.
Variable md5 : pybytes -> N.
(** [int(time.time())] when a collection is named. *)
Variable now : Z.
(** [zipfile.ZipFile(...).extractall(extract_to)] on the bytes of the
    archive, and [git.Repo.clone_from]. *)
Variable unzip : pybytes -> Path -> result Extracted.
Variable clone_from : pystr -> Path -> result FileSystem.
(** The names [tempfile] picks: the directory of an ingestion and the file
    an upload is saved to; and [temp_file.write(content)] with the closing
    of the file, which may raise. *)
Variable temp_dir : Path.
Variable temp_path : Path.
Variable temp_write : Path -> pybytes -> result unit.
Variable get_or_create_collection : pystr -> Client -> Client * result unit.
Variable collection_add :
  pystr -> list pystr -> list Metadata -> list pystr -> Client
  -> Client * result unit.
Variable client_delete_collection : pystr -> Client -> Client * result unit.
(** [VectorStore.search] on the collection of a given name, which may
    raise. *)
Variable collection_query :
  pystr -> Client -> pystr -> Z -> result (QueryResult Distance).
Variable format_score : Distance -> pystr.
Variable order : SetOrder.
Variable agent_run : Agent -> pystr -> result RunResponse.
Variable generate_content_async :
  pystr -> pystr -> pystr -> result GenerateResponse.
Variable _GEMINI_API_KEY : pystr.

Definition with_store (s : Server Client) (w : World Client) : Server Client :=
  {| database := database s; store := w; files := files s |}.

Definition with_files (s : Server Client) (fs : gset Path) : Server Client :=
  {| database := database s; store := store s; files := fs |}.

(** What the two ingesting routes do with the result of the ingestion:
    lines 47 to 84 of the upload and 105 to 143 of the clone, which differ
    in the two texts, the source type and the source URL only. *)
Definition record_codebase
    (ingested : result (list pystr * list Metadata * list pystr))
    (nothing_found source_type : pystr) (source_url : option pystr)
    (processed : pystr) (name : pystr) (description : option pystr)
    (current_user : models.User.t) (s : Server Client)
  : Server Client * outcome schemas.CodebaseUploadResponse.t :=
  match ingested with
  | Raise e => (s, Throw (Uncaught e))
  | Ok (chunks, metadatas, ids) =>
      if bool_decide (chunks = [])
      then (s, Throw (HTTPException 400 nothing_found))
      else
        let collection_name :=
          create_collection_name lower unicode_isalnum encode md5 now
            (models.User.id current_user) name in
        let '(w, r) :=
          VectorStore_init Client get_or_create_collection collection_name
            (store s) in
        match r with
        | Raise e => (with_store s w, Throw (Uncaught e))
        | Ok vector_store =>
            let '(w, r) :=
              add_documents Client collection_add vector_store chunks
                metadatas ids w in
            match r with
            | Raise e => (with_store s w, Throw (Uncaught e))
            | Ok _ =>
                match file_paths metadatas with
                | Throw e => (with_store s w, Throw e)
                | Return paths =>
                    let unique_files :=
                      fold_left (fun acc x => set_add x acc) paths [] in
                    let file_count := Z.of_nat (length unique_files) in
                    let total_chunks := Z.of_nat (length chunks) in
                    let '(db, project) :=
                      add_project
                        (fun id =>
                           {| models.CodebaseProject.id := id;
                              models.CodebaseProject.user_id :=
                                models.User.id current_user;
                              models.CodebaseProject.name := name;
                              models.CodebaseProject.description :=
                                description;
                              models.CodebaseProject.source_type :=
                                source_type;
                              models.CodebaseProject.source_url :=
                                source_url;
                              models.CodebaseProject.vector_store_id :=
                                collection_name;
                              models.CodebaseProject.file_count :=
                                file_count;
                              models.CodebaseProject.total_chunks :=
                                total_chunks |})
                        (database s) in
                    ({| database := db; store := w; files := files s |},
                     Return
                       {| schemas.CodebaseUploadResponse.project_id :=
                            models.CodebaseProject.id project;
                          schemas.CodebaseUploadResponse.name :=
                            models.CodebaseProject.name project;
                          schemas.CodebaseUploadResponse.file_count :=
                            file_count;
                          schemas.CodebaseUploadResponse.total_chunks :=
                            total_chunks;
                          schemas.CodebaseUploadResponse.message :=
                            processed ++ str_of_Z file_count
                            ++ str " files into " ++ str_of_Z total_chunks
                            ++ str " chunks" |})
                end
            end
        end
  end.

(** [POST /codebase/upload]. *)
Definition upload_codebase (file : UploadFile) (name : pystr)
    (description : option pystr) (current_user : models.User.t)
    (s : Server Client)
  : Server Client * outcome schemas.CodebaseUploadResponse.t :=
  if negb (endswith (filename file) (str ".zip"))
  then (s, Throw (HTTPException 400 (str "Only ZIP files are supported")))
  else
    (* with tempfile.NamedTemporaryFile(delete=False, suffix='.zip') *)
    let s := with_files s ({[temp_path]} ∪ files s) in
    match read file with
    | Raise e => (s, Throw (Uncaught e))
    | Ok content =>
        match temp_write temp_path content with
        | Raise e => (s, Throw (Uncaught e))
        | Ok _ =>
            (* try *)
            let '(s, r) :=
              record_codebase
                (ingest_from_zip lower CodebaseIngestion_init
                   (fun zip_path extract_to => unzip content extract_to)
                   temp_dir temp_path)
                (str "No processable code files found in the ZIP")
                (str "upload") None (str "Successfully processed ")
                name description current_user s in
            (* finally: temp_path.unlink(missing_ok=True) *)
            (with_files s (files s ∖ {[temp_path]}), r)
        end
    end.

(** [POST /codebase/github]. *)
Definition clone_github_repo (repo_url name : pystr)
    (description : option pystr) (current_user : models.User.t)
    (s : Server Client)
  : Server Client * outcome schemas.CodebaseUploadResponse.t :=
  let '(s, r) :=
    record_codebase
      (ingest_from_github lower CodebaseIngestion_init clone_from temp_dir
         repo_url)
      (str "No processable code files found in the repository")
      (str "github") (Some repo_url)
      (str "Successfully cloned and processed ")
      name description current_user s in
  match r with
  | Throw (Uncaught e) =>
      if catches [ValueError] e
      then (s, Throw (HTTPException 400 (exn_str e)))
      else (s, r)
  | _ => (s, r)
  end.

(** [DELETE /codebase/projects/{project_id}]. *)
Definition delete_project (project_id : Z) (current_user : models.User.t)
    (s : Server Client) : Server Client * outcome pystr :=
  match scalar_one_or_none
          (select_project project_id (models.User.id current_user)
             (database s)) with
  | Throw e => (s, Throw e)
  | Return None => (s, Throw (HTTPException 404 (str "Project not found")))
  | Return (Some project) =>
      let '(w, r) :=
        VectorStore_init Client get_or_create_collection
          (models.CodebaseProject.vector_store_id project) (store s) in
      match r with
      | Raise e => (with_store s w, Throw (Uncaught e))
      | Ok vector_store =>
          let '(w, r) :=
            delete_collection Client client_delete_collection vector_store w in
          match r with
          | Raise e => (with_store s w, Throw (Uncaught e))
          | Ok _ =>
              ({| database := delete_row project (database s);
                  store := w;
                  files := files s |},
               Return (str "Project deleted successfully"))
          end
      end
  end.

(** The messages a saved exchange adds to a conversation. *)
Definition save_exchange (conversation_id : Z) (question reply : pystr)
    (db : Database) : Database :=
  add_message
    (fun id =>
       {| models.ChatMessage.id := id;
          models.ChatMessage.conversation_id := conversation_id;
          models.ChatMessage.role := str "assistant";
          models.ChatMessage.content := reply |})
    (add_message
       (fun id =>
          {| models.ChatMessage.id := id;
             models.ChatMessage.conversation_id := conversation_id;
             models.ChatMessage.role := str "user";
             models.ChatMessage.content := question |})
       db).

(** [POST /codebase/analyze], with the calls the composer makes to the
    outside. *)
Definition analyze_codebase (request : schemas.CodebaseAnalysisRequest.t)
    (current_user : models.User.t) (s : Server Client)
  : Server Client * list Event * outcome schemas.CodebaseAnalysisResponse.t :=
  match scalar_one_or_none
          (select_project (schemas.CodebaseAnalysisRequest.project_id request)
             (models.User.id current_user) (database s)) with
  | Throw e => (s, [], Throw e)
  | Return None =>
      (s, [], Throw (HTTPException 404 (str "Project not found")))
  | Return (Some project) =>
      let '(w, r) :=
        VectorStore_init Client get_or_create_collection
          (models.CodebaseProject.vector_store_id project) (store s) in
      let s := with_store s w in
      match r with
      | Raise e => (s, [], Throw (Uncaught e))
      | Ok vector_store =>
          (* create_rag_agent(vector_store) *)
          match CodebaseArchitectAgent_init _GEMINI_API_KEY with
          | Raise e => (s, [], Throw (Uncaught e))
          | Ok agent =>
              let chat_context :=
                map (fun msg =>
                       {| role := schemas.ChatHistoryMessage.role msg;
                          content := schemas.ChatHistoryMessage.content msg |})
                  (schemas.CodebaseAnalysisRequest.chat_history request) in
              let question :=
                schemas.CodebaseAnalysisRequest.question request in
              let '(events, result) :=
                analyze format_score order
                  (collection_query (collection_name vector_store)
                     (chroma_client w))
                  agent_run generate_content_async agent question
                  (Some chat_context) in
              match result with
              | Raise e => (s, events, Throw (Uncaught e))
              | Ok result =>
                  let conversation_id :=
                    schemas.CodebaseAnalysisRequest.conversation_id request in
                  let saved :=
                    match conversation_id with
                    | None => Return (database s)
                    | Some id =>
                        if bool_decide (id = 0%Z) then Return (database s)
                        else
                          match scalar_one_or_none
                                  (select_conversation id
                                     (models.User.id current_user)
                                     (database s)) with
                          | Throw e => Throw e
                          | Return None => Return (database s)
                          | Return (Some conversation) =>
                              Return (save_exchange id question
                                        (reply result) (database s))
                          end
                    end in
                  match saved with
                  | Throw e => (s, events, Throw e)
                  | Return db =>
                      ({| database := db; store := w; files := files s |},
                       events,
                       Return
                         {| schemas.CodebaseAnalysisResponse.reply :=
                              reply result;
                            schemas.CodebaseAnalysisResponse.relevant_files :=
                              relevant_files result;
                            schemas.CodebaseAnalysisResponse.conversation_id :=
                              conversation_id |})
                  end
              end
          end
      end
  end.
End Routes.
End routers.

(** ** The address of a self-hosted storage server *)

(** [s.split(sep)] and [s.replace(old, new)] for a non-empty [sep] and
    [old], and [l[-1]]. *)
Definition split (sep s : pystr) : list pystr := pieces sep s.

Definition replace (old new s : pystr) : pystr := join new (split old s).

Definition index_last {A} (l : list A) : result A :=
  match last l with
  | Some x => Ok x
  | None => Raise (Exn IndexError (str "list index out of range"))
  end.

Section HttpClient.
(** [int(s)]. *)
Variable int : pystr -> result Z.

(** The [host] and the [port] handed to [chromadb.HttpClient] for a value
    of [CHROMA_HOST]. *)
Definition http_host (CHROMA_HOST : pystr) : result pystr :=
  index0 (split (str ":")
            (replace (str "https://") []
               (replace (str "http://") [] CHROMA_HOST))).

Definition http_port (CHROMA_HOST : pystr) : result Z :=
  after_slashes ← index_last (split (str "//") CHROMA_HOST);
  if contains (str ":") after_slashes
  then
    after_colon ← index_last (split (str ":") CHROMA_HOST);
    int after_colon
  else Ok 8000%Z.
End HttpClient.

(** The row a route stores for an ingested project. *)
Definition stored (user_id : Z) (name : pystr) (description : option pystr)
    (source_type : pystr) (source_url : option pystr)
    (vector_store_id : pystr) (file_count total_chunks : Z) (id : Z)
  : models.CodebaseProject.t :=
  {| models.CodebaseProject.id := id;
     models.CodebaseProject.user_id := user_id;
     models.CodebaseProject.name := name;
     models.CodebaseProject.description := description;
     models.CodebaseProject.source_type := source_type;
     models.CodebaseProject.source_url := source_url;
     models.CodebaseProject.vector_store_id := vector_store_id;
     models.CodebaseProject.file_count := file_count;
     models.CodebaseProject.total_chunks := total_chunks |}.

(** ** A small server for the examples *)

Definition ann : models.User.t :=
  {| models.User.id := 7; models.User.email := str "ann@example.org" |}.

Definition bob : models.User.t :=
  {| models.User.id := 8; models.User.email := str "bob@example.org" |}.

Definition shop_project : models.CodebaseProject.t :=
  {| models.CodebaseProject.id := 1;
     models.CodebaseProject.user_id := 7;
     models.CodebaseProject.name := str "shop";
     models.CodebaseProject.description := None;
     models.CodebaseProject.source_type := str "upload";
     models.CodebaseProject.source_url := None;
     models.CodebaseProject.vector_store_id := str "user7_shop_0000002a";
     models.CodebaseProject.file_count := 1;
     models.CodebaseProject.total_chunks := 1 |}.

Definition blog_project : models.CodebaseProject.t :=
  {| models.CodebaseProject.id := 2;
     models.CodebaseProject.user_id := 8;
     models.CodebaseProject.name := str "blog";
     models.CodebaseProject.description := Some (str "notes");
     models.CodebaseProject.source_type := str "github";
     models.CodebaseProject.source_url := Some (str "https://example.org/blog");
     models.CodebaseProject.vector_store_id := str "user8_blog_0000002b";
     models.CodebaseProject.file_count := 3;
     models.CodebaseProject.total_chunks := 5 |}.

Definition sample_database : Database :=
  {| conversations :=
       [ {| models.Conversation.id := 4;
            models.Conversation.user_id := Some 7%Z;
            models.Conversation.title := str "New Chat" |};
         {| models.Conversation.id := 5;
            models.Conversation.user_id := Some 8%Z;
            models.Conversation.title := str "New Chat" |} ];
     messages := [];
     codebase_projects := [shop_project; blog_project];
     next_message_id := 1;
     next_project_id := 3 |}.

(** A storage client that knows its collections by name. *)
Definition names_get_or_create (name : pystr) (c : gset pystr)
  : gset pystr * result unit :=
  ({[name]} ∪ c, Ok tt).

Definition names_add (name : pystr) (texts : list pystr)
    (metadatas : list Metadata) (ids : list pystr) (c : gset pystr)
  : gset pystr * result unit :=
  (c, Ok tt).

Definition sample_server : Server (gset pystr) :=
  {| database := sample_database;
     store := {| chroma_client := {[str "user7_shop_0000002a";
                                    str "user8_blog_0000002b"]};
                 stdout := [] |};
     files := ∅ |}.

(** An upload of the sample archive, and a question about a project. *)
Definition sample_zip : Path := MkPath true [str "tmp"; str "tmpab12.zip"].

Definition sample_upload : UploadFile :=
  {| filename := str "shop.zip"; read := Ok (bytes_of "PK") |}.

Definition sample_request (project_id : Z) (conversation_id : option Z)
  : schemas.CodebaseAnalysisRequest.t :=
  {| schemas.CodebaseAnalysisRequest.project_id := project_id;
     schemas.CodebaseAnalysisRequest.question := str "what is in it?";
     schemas.CodebaseAnalysisRequest.conversation_id := conversation_id;
     schemas.CodebaseAnalysisRequest.chat_history := [] |}.

(** An archive whose only entry is a directory called [dist]. *)
Definition wrapped_root : Path := joinpath sample_temp (str "dist").

Definition wrapped_extracted : Extracted :=
  {| tree := {| rglob := fun _ => [joinpath wrapped_root (str "main.py")];
                is_file := fun _ => true;
                stat_size := fun _ => Ok 120%Z;
                read_bytes := fun _ => Ok (bytes_of "print(1)") |};
     listdir := fun p => if bool_decide (p = sample_temp) then [str "dist"]
                         else [];
     is_dir := fun p => bool_decide (p = wrapped_root) |}.

(** A stand-in for [int] on strings of ASCII digits. *)
Definition ascii_int (s : pystr) : result Z :=
  if negb (bool_decide (s = [])) && forallb (fun c => (48 <=? c) && (c <=? 57)) s
  then Ok (Z.of_N (digits_value s))
  else Raise (Exn ValueError
                (str "invalid literal for int() with base 10: '" ++ s
                 ++ str "'")).

(** A disk that takes every write. *)
Definition write_ok (p : Path) (content : pybytes) : result unit := Ok tt.

(** A disk that is full. *)
Definition write_full (p : Path) (content : pybytes) : result unit :=
  Raise (Exn OSError (str "[Errno 28] No space left on device")).

(** * Properties *)

(** ** The file filter *)

Local Opaque CODE_EXTENSIONS IGNORE_DIRS IGNORE_FILES.

Lemma in_ignored_dir_true (ps : list Path) :
  in_ignored_dir ps = true <->
  exists parent, parent ∈ ps /\ name parent ∈ IGNORE_DIRS.
Proof.
  induction ps as [|q ps IH]; simpl.
  - split; [discriminate | intros (x & Hx & _); inversion Hx].
  - case_bool_decide as Hq.
    + split; [intros _; exists q; split; [left | exact Hq] | reflexivity].
    + rewrite IH. split.
      * intros (x & Hx & Hd). exists x. split; [by right | exact Hd].
      * intros (x & Hx & Hd). apply elem_of_cons in Hx as [-> | Hx].
        -- destruct (Hq Hd).
        -- exists x. split; [exact Hx | exact Hd].
Qed.

Lemma empty_name_not_ignored : ([] : pystr) ∉ IGNORE_DIRS.
Proof. apply (bool_decide_unpack _). vm_compute. exact I. Qed.

Lemma name_take (ps : list pystr) (k : nat) :
  default [] (last (take (S k) ps)) = default [] (ps !! k) \/
  (length ps <= k)%nat.
Proof.
  destruct (decide (k < length ps)%nat) as [Hlt | Hge]; [left | right; lia].
  rewrite last_lookup, length_take, Nat.min_l by lia. simpl.
  by rewrite lookup_take_lt by lia.
Qed.

Lemma parents_from_names (a : bool) (ps : list pystr) (n : nat) (d : pystr) :
  (n <= length ps)%nat -> d ≠ [] ->
  (exists parent, parent ∈ parents_from a ps n /\ name parent = d) <->
  d ∈ take (n - 1) ps.
Proof.
  intros Hn Hd. induction n as [|n IH]; simpl.
  - split; [intros (x & Hx & _); inversion Hx | intros Hin; inversion Hin].
  - specialize (IH ltac:(lia)). rewrite Nat.sub_0_r. split.
    + intros (x & Hx & Hname). apply elem_of_cons in Hx as [-> | Hx].
      * unfold name in Hname. simpl in Hname.
        destruct n as [|k]; [simpl in Hname; congruence |].
        destruct (name_take ps k) as [Heq | ?]; [| lia].
        rewrite Heq in Hname.
        destruct (ps !! k) as [x|] eqn:Hk; simpl in Hname; [| congruence].
        subst x. apply list_elem_of_lookup. exists k.
        by rewrite lookup_take_lt by lia.
      * assert (d ∈ take (n - 1) ps) as Hin by (apply IH; eauto).
        apply list_elem_of_lookup in Hin as [i Hi].
        apply list_elem_of_lookup. exists i.
        apply lookup_take_Some in Hi as [Hi ?].
        rewrite lookup_take_lt by lia. done.
    + intros Hin. apply list_elem_of_lookup in Hin as [i Hi].
      apply lookup_take_Some in Hi as [Hi Hlt].
      destruct (decide (i = n - 1)%nat) as [-> | Hne].
      * exists (MkPath a (take n ps)). split; [left |].
        unfold name. simpl. destruct n as [|k]; [lia |].
        destruct (name_take ps k) as [Heq | ?]; [| lia].
        rewrite Heq. replace (S k - 1)%nat with k in Hi by lia. by rewrite Hi.
      * destruct IH as [_ IH]. destruct IH as (x & Hx & Hname).
        -- apply list_elem_of_lookup. exists i. rewrite lookup_take_lt by lia. done.
        -- exists x. split; [by right | done].
Qed.

Lemma in_ignored_dir_parents (p : Path) :
  in_ignored_dir (parents p) = true <->
  exists d, d ∈ ancestor_dirs p /\ d ∈ IGNORE_DIRS.
Proof.
  rewrite in_ignored_dir_true. unfold parents, ancestor_dirs. split.
  - intros (x & Hx & Hd). exists (name x). split; [| done].
    apply (parents_from_names (absolute p) (parts p) (length (parts p)));
      [lia | | eauto].
    intros Heq. rewrite Heq in Hd. by apply empty_name_not_ignored.
  - intros (d & Hin & Hd).
    apply (parents_from_names (absolute p) (parts p) (length (parts p))) in Hin
      as (x & Hx & Hname); [| lia |].
    + exists x. split; [done | by rewrite Hname].
    + intros ->. by apply empty_name_not_ignored.
Qed.

(** The filter answers; it does not raise. *)
Lemma should_process_file_returns (lower : pystr -> pystr) (fs : FileSystem)
    (p : Path) :
  exists b : bool, should_process_file lower fs p = Ok b.
Proof.
  unfold should_process_file.
  destruct (negb _); [by eexists |].
  destruct (bool_decide _); [by eexists |].
  destruct (in_ignored_dir _); [by eexists |].
  destruct (stat_size fs p) as [size | e]; [| by eexists].
  destruct (size >? 1000000)%Z; by eexists.
Qed.

(** C5. The file filter never raises, and it answers [false] exactly when
    the lower-cased extension is outside the allow-list, or the base name is
    a denied file, or a directory above the file is a denied directory, or
    the size is over 1,000,000 bytes, or the size cannot be read; its
    answer depends on the path and on what [stat] says about it only. *)
Theorem should_process_file_spec (lower : pystr -> pystr) (fs : FileSystem)
    (p : Path) :
  exists b : bool,
    should_process_file lower fs p = Ok b
    /\ (b = false <-> rejected lower fs p)
    /\ (forall fs' : FileSystem,
          stat_size fs' p = stat_size fs p ->
          should_process_file lower fs' p = Ok b).
Proof.
  unfold should_process_file, rejected.
  destruct (bool_decide (lower (suffix p) ∈ CODE_EXTENSIONS)) eqn:Hext; simpl.
  2: { apply bool_decide_eq_false in Hext. exists false.
       split; [reflexivity | split; [split; [intros _; left; exact Hext | reflexivity] |]].
       intros fs' _. reflexivity. }
  apply bool_decide_eq_true in Hext.
  destruct (bool_decide (name p ∈ IGNORE_FILES)) eqn:Hfile.
  { apply bool_decide_eq_true in Hfile. exists false.
    split; [reflexivity | split; [split; [intros _; right; left; exact Hfile | reflexivity] |]].
    intros fs' _. reflexivity. }
  apply bool_decide_eq_false in Hfile.
  destruct (in_ignored_dir (parents p)) eqn:Hdir.
  { apply in_ignored_dir_parents in Hdir. exists false.
    split; [reflexivity | split; [split; [intros _; do 2 right; left; exact Hdir | reflexivity] |]].
    intros fs' _. reflexivity. }
  assert (~ exists d, d ∈ ancestor_dirs p /\ d ∈ IGNORE_DIRS) as Hnodir.
  { intros H. apply in_ignored_dir_parents in H. congruence. }
  destruct (stat_size fs p) as [size | e] eqn:Hstat; simpl.
  - destruct (size >? 1000000)%Z eqn:Hsize.
    + exists false. split; [reflexivity | split; [split; [| reflexivity] |]].
      * intros _. do 3 right. left. exists size. split; [reflexivity | lia].
      * intros fs' ->. rewrite Hsize. reflexivity.
    + exists true. split; [reflexivity | split; [split; [discriminate |] |]].
      * intros [Hx | [Hx | [Hx | [(s & Hs & Hlt) | (e & He)]]]].
        -- destruct (Hx Hext).
        -- destruct (Hfile Hx).
        -- destruct (Hnodir Hx).
        -- inversion Hs; subst. lia.
        -- discriminate.
      * intros fs' ->. rewrite Hsize. reflexivity.
  - exists false. split; [reflexivity | split; [split; [| reflexivity] |]].
    + intros _. do 4 right. exists e. reflexivity.
    + intros fs' ->. reflexivity.
Qed.

(** ** The content loader *)

Lemma catches_unicode (e : exn) :
  catches [UnicodeDecodeError; UnicodeError] e
  = issubclass (exn_cls e) UnicodeError.
Proof. destruct e as [[] ?]; reflexivity. Qed.

Lemma catches_Exception (e : exn) : catches [Exception] e = true.
Proof. destruct e as [[] ?]; reflexivity. Qed.

Section LoaderFacts.
Variable open_read : Path -> Encoding -> result pystr.
Variable p : Path.

Lemma read_with_success (enc : Encoding) (rest : list Encoding) (t : pystr) :
  open_read p enc = Ok t -> read_with open_read (enc :: rest) p = Ok t.
Proof. intros H. cbn [read_with]. by rewrite H. Qed.

Lemma read_with_skip (enc : Encoding) (rest : list Encoding) :
  decode_failure (open_read p enc) ->
  read_with open_read (enc :: rest) p = read_with open_read rest p.
Proof.
  intros (e & He & Hsub). cbn [read_with]. by rewrite He, catches_unicode, Hsub.
Qed.

(** When opening the file fails with decoding errors only, the loop ends
    without raising, whatever the list of encodings. *)
Lemma read_with_returns (encodings : list Encoding) :
  (forall enc e, open_read p enc = Raise e ->
                 issubclass (exn_cls e) UnicodeError = true) ->
  exists t, read_with open_read encodings p = Ok t.
Proof.
  intros Honly. induction encodings as [|enc rest IH]; cbn [read_with]; [by eexists |].
  destruct (open_read p enc) as [t | e] eqn:Hopen; [by eexists |].
  by rewrite catches_unicode, (Honly _ _ Hopen).
Qed.
End LoaderFacts.

(** C6. The content loader tries UTF-8, then Latin-1, then CP1252: it
    returns the text of the first encoding that decodes, it returns the
    empty string when all three fail to decode, and it does not raise as
    long as the only failures are decoding failures. *)
Theorem read_file_content_spec (open_read : Path -> Encoding -> result pystr)
    (p : Path) :
  let attempt := open_read p in
  let answer := read_file_content open_read p in
  (forall t, attempt UTF_8 = Ok t -> answer = Ok t)
  /\ (forall t, decode_failure (attempt UTF_8) ->
                attempt LATIN_1 = Ok t -> answer = Ok t)
  /\ (forall t, decode_failure (attempt UTF_8) ->
                decode_failure (attempt LATIN_1) ->
                attempt CP1252 = Ok t -> answer = Ok t)
  /\ (decode_failure (attempt UTF_8) -> decode_failure (attempt LATIN_1) ->
      decode_failure (attempt CP1252) -> answer = Ok [])
  /\ ((forall enc e, attempt enc = Raise e ->
                     issubclass (exn_cls e) UnicodeError = true) ->
      exists t, answer = Ok t).
Proof.
  unfold read_file_content. repeat split.
  - intros t H. by apply read_with_success.
  - intros t H1 H2. rewrite read_with_skip by done. by apply read_with_success.
  - intros t H1 H2 H3. rewrite !read_with_skip by done.
    by apply read_with_success.
  - intros H1 H2 H3. by rewrite !read_with_skip.
  - apply read_with_returns.
Qed.

(** The outcomes of the loop on loaders that behave in each way. *)
Example read_file_content_all_fail :
  read_file_content (fun _ _ => undecodable) (MkPath false [str "a.py"]) = Ok [].
Proof. reflexivity. Qed.

Example read_file_content_third :
  read_file_content
    (fun _ enc => match enc with CP1252 => Ok (str "x") | _ => undecodable end)
    (MkPath false [str "a.py"]) = Ok (str "x").
Proof. reflexivity. Qed.

Example read_file_content_propagates :
  read_file_content
    (fun _ _ => Raise (Exn OSError (str "Permission denied")))
    (MkPath false [str "a.py"])
  = Raise (Exn OSError (str "Permission denied")).
Proof. reflexivity. Qed.

(** ** Latin-1 decodes everything *)

(** An attempt fails with the error of reading the file or with a decoding
    error. *)
Lemma open_text_failure (fs : FileSystem) (p : Path) (enc : Encoding) (e : exn) :
  open_text fs p enc = Raise e ->
  read_bytes fs p = Raise e \/ exn_cls e = UnicodeDecodeError.
Proof.
  unfold open_text. destruct (read_bytes fs p) as [bytes | e0];
    cbn [mbind result_bind]; [| intros [= <-]; by left].
  intros H. right. revert H.
  unfold decode, utf_8_decode, latin_1_decode, cp1252_decode.
  destruct enc; simpl.
  - destruct (utf_8_scan _); simpl; [discriminate | by intros [= <-]].
  - discriminate.
  - destruct (mapM _ _); simpl; [discriminate | by intros [= <-]].
Qed.

Lemma open_text_latin_1 (fs : FileSystem) (p : Path) (bytes : pybytes) :
  read_bytes fs p = Ok bytes ->
  open_text fs p LATIN_1 = Ok (universal_newlines (map Byte.to_N bytes)).
Proof. intros H. unfold open_text. by rewrite H. Qed.

(** On a file whose bytes can be read the content loader returns. *)
Lemma read_file_content_returns (fs : FileSystem) (p : Path)
    (bytes : pybytes) :
  read_bytes fs p = Ok bytes ->
  exists t, read_file_content (open_text fs) p = Ok t.
Proof.
  intros Hread. apply read_with_returns. intros enc e H.
  apply open_text_failure in H as [H | H].
  - rewrite Hread in H. discriminate.
  - by rewrite H.
Qed.

(** When the loader raises, it raises the error of reading the file, and
    that error is not a decoding error. *)
Lemma read_file_content_raises (fs : FileSystem) (p : Path) (e : exn) :
  read_file_content (open_text fs) p = Raise e ->
  read_bytes fs p = Raise e
  /\ catches [UnicodeDecodeError; UnicodeError] e = false.
Proof.
  unfold read_file_content.
  generalize [UTF_8; LATIN_1; CP1252]. intros encodings.
  induction encodings as [|enc rest IH]; cbn [read_with]; [discriminate |].
  destruct (open_text fs p enc) as [t | e0] eqn:Hopen; [discriminate |].
  destruct (catches [UnicodeDecodeError; UnicodeError] e0) eqn:Hcatch;
    [exact IH |].
  intros [= <-]. split; [| exact Hcatch].
  apply open_text_failure in Hopen as [H | H]; [exact H |].
  rewrite catches_unicode, H in Hcatch. discriminate.
Qed.


(** C10. Latin-1 decodes every byte sequence, so on a file that can be
    read the loader's answer is the UTF-8 text or else the Latin-1 text;
    the third encoding and the final empty-string branch play no part in
    it. *)
Theorem latin_1_never_fails (fs : FileSystem) (p : Path) :
  (forall bs : pybytes, exists s, decode LATIN_1 bs = Ok s)
  /\ forall bytes : pybytes,
       read_bytes fs p = Ok bytes ->
       exists t,
         read_file_content (open_text fs) p = Ok t
         /\ (open_text fs p UTF_8 = Ok t
             \/ (decode_failure (open_text fs p UTF_8)
                 /\ open_text fs p LATIN_1 = Ok t))
         /\ (forall open_read : Path -> Encoding -> result pystr,
               open_read p UTF_8 = open_text fs p UTF_8 ->
               open_read p LATIN_1 = open_text fs p LATIN_1 ->
               read_with open_read [UTF_8; LATIN_1] p = Ok t
               /\ read_file_content open_read p = Ok t).
Proof.
  split; [intros bs; by eexists |].
  intros bytes Hread.
  destruct (open_text fs p UTF_8) as [t | e] eqn:Hutf.
  - exists t. split; [| split].
    + unfold read_file_content. by apply read_with_success.
    + by left.
    + intros open_read H1 H2. unfold read_file_content.
      split; by apply read_with_success; rewrite H1.
  - assert (decode_failure (Raise e : result pystr)) as Hfail.
    { exists e. split; [done |].
      apply open_text_failure in Hutf as [H | H];
        [rewrite Hread in H; discriminate | by rewrite H]. }
    exists (universal_newlines (map Byte.to_N bytes)).
    split; [| split].
    + unfold read_file_content. rewrite read_with_skip by (by rewrite Hutf).
      apply read_with_success. by apply open_text_latin_1.
    + right. split; [done | by apply open_text_latin_1].
    + intros open_read H1 H2. unfold read_file_content.
      split; rewrite read_with_skip by (by rewrite H1);
        apply read_with_success; rewrite H2; by apply open_text_latin_1.
Qed.

(** A file of two bytes that are not UTF-8 is read as Latin-1, and a file
    that cannot be read makes the loader raise. *)
Example read_file_content_samples :
  read_file_content (open_text linked_fs) sample_readme = Ok [233; 233]
  /\ read_file_content (open_text linked_fs) sample_link
     = Raise (Exn OSError (str "[Errno 5] Input/output error")).
Proof. vm_compute. by split. Qed.

(** ** Decimal rendering *)

Lemma digits_value_app (s : pystr) (c : N) :
  digits_value (s ++ [c]) = digits_value s * 10 + (c - 48).
Proof. unfold digits_value. by rewrite fold_left_app. Qed.

Lemma log2_div10_lt (n : N) : 10 <= n -> N.log2 (n / 10) < N.log2 n.
Proof.
  intros Hn.
  assert (n / 10 <= n / 2) as Hle
    by (apply N.div_le_compat_l; lia).
  assert (N.log2 (n / 2) = N.log2 n - 1) as Hhalf.
  { rewrite <- N.div2_div, N.div2_spec. apply N.log2_shiftr. }
  assert (3 <= N.log2 n) as H3.
  { change 3 with (N.log2 8). apply N.log2_le_mono. lia. }
  apply N.log2_le_mono in Hle. lia.
Qed.

Lemma digits_fuel_value (fuel : nat) (n : N) :
  (N.to_nat (N.log2 n) < fuel)%nat ->
  digits_value (digits_fuel fuel n) = n.
Proof.
  revert n. induction fuel as [|fuel IH]; intros n Hfuel; [lia |].
  cbn [digits_fuel]. destruct (N.ltb_spec n 10) as [Hlt | Hge].
  - unfold digits_value. simpl. lia.
  - rewrite digits_value_app, IH.
    + pose proof (N.div_mod n 10 ltac:(lia)).
      pose proof (N.mod_lt n 10 ltac:(lia)).
      generalize dependent (n / 10). generalize dependent (n mod 10). lia.
    + pose proof (log2_div10_lt n Hge). lia.
Qed.

Lemma str_of_N_value (n : N) : digits_value (str_of_N n) = n.
Proof. apply digits_fuel_value. lia. Qed.

Lemma str_of_N_inj : Inj (=) (=) str_of_N.
Proof.
  intros m n H. by rewrite <- (str_of_N_value m), <- (str_of_N_value n), H.
Qed.

Lemma str_of_nat_inj (m n : nat) :
  str_of_Z (Z.of_nat m) = str_of_Z (Z.of_nat n) -> m = n.
Proof.
  assert (forall k : nat, str_of_Z (Z.of_nat k) = str_of_N (N.of_nat k)) as Hk.
  { intros k. unfold str_of_Z.
    assert (Z.to_N (Z.of_nat k) = N.of_nat k) as <- by lia.
    destruct (Z.of_nat k) eqn:E; [reflexivity | reflexivity | lia]. }
  rewrite !Hk. intros H. apply str_of_N_inj in H. lia.
Qed.

Lemma chunk_id_str_inj : Inj (=) (=) chunk_id_str.
Proof.
  intros m n H. unfold chunk_id_str in H.
  apply app_inv_head in H. by apply str_of_nat_inj.
Qed.

Lemma digits_fuel_length (fuel : nat) (n : N) (k : nat) :
  n < 10 ^ N.of_nat k -> (1 <= k)%nat -> (length (digits_fuel fuel n) <= k)%nat.
Proof.
  revert n k. induction fuel as [|fuel IH]; intros n k Hn Hk; simpl; [lia |].
  destruct (N.ltb_spec n 10) as [Hlt | Hge]; simpl; [lia |].
  rewrite length_app. simpl.
  destruct k as [|[|k]]; [lia | simpl in Hn; lia |].
  assert (length (digits_fuel fuel (n / 10)) <= S k)%nat; [| lia].
  apply IH; [| lia].
  apply N.Div0.div_lt_upper_bound.
  replace (N.of_nat (S (S k))) with (N.succ (N.of_nat (S k))) in Hn by lia.
  by rewrite N.pow_succ_r' in Hn.
Qed.

Lemma digits_fuel_chars (fuel : nat) (n : N) (c : N) :
  c ∈ digits_fuel fuel n -> 48 <= c <= 57.
Proof.
  revert n. induction fuel as [|fuel IH]; intros n; simpl; [by inversion 1 |].
  destruct (N.ltb_spec n 10) as [Hlt | Hge].
  - intros ->%list_elem_of_singleton. lia.
  - rewrite elem_of_app. intros [H | ->%list_elem_of_singleton]; [by eapply IH |].
    pose proof (N.mod_lt n 10 ltac:(lia)).
    generalize dependent (n mod 10). lia.
Qed.

Lemma digits_fuel_nonempty (fuel : nat) (n : N) :
  (1 <= length (digits_fuel (S fuel) n))%nat.
Proof.
  simpl. destruct (n <? 10); simpl; [lia |]. rewrite length_app. simpl. lia.
Qed.

(** ** The ingestion orchestrator *)

Lemma chunk_metadata_index (rp : pystr) (fp : Path) (i n : Z) :
  chunk_metadata rp fp i n !! "chunk_index"%string = Some (VInt i).
Proof. reflexivity. Qed.

Lemma chunk_metadata_total (rp : pystr) (fp : Path) (i n : Z) :
  chunk_metadata rp fp i n !! "total_chunks"%string = Some (VInt n).
Proof. reflexivity. Qed.

Lemma state_of_snoc (recs : list (pystr * Metadata)) (count : Z)
    (chunk : pystr) (m : Metadata) :
  {| all_chunks := all_chunks (state_of recs count) ++ [chunk];
     all_metadatas := all_metadatas (state_of recs count) ++ [m];
     all_ids := all_ids (state_of recs count)
                ++ [str "chunk_" ++ str_of_Z (chunk_id (state_of recs count))];
     file_count := file_count (state_of recs count);
     chunk_id := (chunk_id (state_of recs count) + 1)%Z |}
  = state_of (recs ++ [(chunk, m)]) count.
Proof.
  unfold state_of. cbn [all_chunks all_metadatas all_ids file_count chunk_id].
  rewrite !fmap_app, length_app, seq_app, map_app. simpl.
  f_equal. lia.
Qed.

Lemma add_chunks_from (rp : pystr) (fp : Path) (total : Z)
    (chunks : list pystr) :
  forall (i0 : nat) (recs : list (pystr * Metadata)) (count : Z),
    add_chunks rp fp total (Z.of_nat i0) chunks (state_of recs count)
    = state_of
        (recs ++ imap (fun i chunk =>
                         (chunk, chunk_metadata rp fp (Z.of_nat (i0 + i)) total))
                      chunks)
        count.
Proof.
  induction chunks as [|chunk chunks IH]; intros i0 recs count.
  - simpl. by rewrite app_nil_r.
  - cbn [add_chunks]. rewrite state_of_snoc.
    replace (Z.of_nat i0 + 1)%Z with (Z.of_nat (S i0)) by lia.
    rewrite IH, <- app_assoc. f_equal. f_equal. simpl.
    rewrite Nat.add_0_r. f_equal. apply imap_ext. intros i x _. simpl.
    do 3 f_equal. lia.
Qed.

Section OrchestratorFacts.
Variable lower : pystr -> pystr.
Variable fs : FileSystem.
Variable self : CodebaseIngestion.
Variable root_path : Path.

Lemma relative_path_str_label (p : Path) :
  relative_path_str p root_path = Ok (label_of root_path p).
Proof.
  unfold relative_path_str, label_of, relative_to.
  by destruct (_ && _).
Qed.

(** One iteration of the walk: when it returns, it has added the records
    of the file if the file is eligible and nothing otherwise; when it
    raises, the file is a regular file that passed the filter and the
    error is the one the content loader raised on it. *)
Lemma process_file_cases (recs : list (pystr * Metadata)) (count : Z)
    (p : Path) :
  match process_file lower fs self root_path (state_of recs count) p with
  | Ok st =>
      (exists count',
         st = state_of
                (recs ++ (if eligible lower fs p
                          then records_of fs self root_path p else []))
                count')
      /\ (is_file fs p = true ->
          should_process_file lower fs p = Ok true ->
          exists t, read_file_content (open_text fs) p = Ok t)
  | Raise e =>
      is_file fs p = true
      /\ should_process_file lower fs p = Ok true
      /\ read_file_content (open_text fs) p = Raise e
  end.
Proof.
  unfold process_file, eligible.
  destruct (is_file fs p); simpl.
  2: { split; [| discriminate]. exists count. by rewrite app_nil_r. }
  destruct (should_process_file_returns lower fs p) as (b & Hb).
  rewrite Hb. cbn [mbind result_bind]. destruct b; simpl.
  2: { split; [| discriminate]. exists count. by rewrite app_nil_r. }
  unfold text_of.
  set (content := read_file_content (open_text fs) p).
  assert (read_file_content (open_text fs) p = content) as Ht by done.
  clearbody content.
  destruct content as [t | e]; cbn [mbind result_bind];
    [| split; [reflexivity | split; reflexivity]].
  case_bool_decide as Hblank; simpl.
  { split; [| intros _ _; by exists t]. exists count. by rewrite app_nil_r. }
  rewrite relative_path_str_label. cbn [mbind result_bind].
  split; [| intros _ _; by exists t].
  exists (count + 1)%Z.
  unfold records_of, chunks_of, text_of. rewrite Ht.
  apply (add_chunks_from (label_of root_path p) p
           (len (split_text (text_splitter self) t))
           (split_text (text_splitter self) t) 0 recs (count + 1)).
Qed.

Lemma walk_cases (files : list Path) :
  forall (recs : list (pystr * Metadata)) (count : Z),
    match walk lower fs self root_path files (state_of recs count) with
    | Ok st =>
        (exists count',
           st = state_of
                  (recs ++ concat (map (records_of fs self root_path)
                                     (filter (fun p => eligible lower fs p = true)
                                        files)))
                  count')
        /\ (forall p, p ∈ files -> is_file fs p = true ->
                      should_process_file lower fs p = Ok true ->
                      exists t, read_file_content (open_text fs) p = Ok t)
    | Raise e =>
        exists p,
          p ∈ files
          /\ is_file fs p = true
          /\ should_process_file lower fs p = Ok true
          /\ read_file_content (open_text fs) p = Raise e
    end.
Proof.
  induction files as [|p files IH]; intros recs count.
  - split; [| intros p Hp; by inversion Hp].
    exists count. simpl. by rewrite app_nil_r.
  - cbn [walk]. pose proof (process_file_cases recs count p) as Hfile.
    destruct (process_file lower fs self root_path (state_of recs count) p)
      as [st | e]; cbn [mbind result_bind].
    + destruct Hfile as ((count1 & ->) & Hread).
      specialize (IH (recs ++ (if eligible lower fs p
                               then records_of fs self root_path p else []))
                    count1).
      destruct (walk lower fs self root_path files _) as [st | e].
      * destruct IH as ((count2 & ->) & Hreads). split.
        -- exists count2. f_equal.
           rewrite <- app_assoc. f_equal.
           rewrite filter_cons. destruct (eligible lower fs p) eqn:E.
           ++ by rewrite decide_True.
           ++ by rewrite decide_False by congruence.
        -- intros q [-> | Hq]%elem_of_cons; [exact Hread | by apply Hreads].
      * destruct IH as (q & Hq & H). exists q. split; [by right | exact H].
    + exists p. split; [by left | exact Hfile].
Qed.

(** A run that returns gives the expected records, split into three
    lists; a run that raises was stopped by a regular file that passed
    the filter and could not be read. *)
Lemma process_codebase_cases :
  match process_codebase lower fs self root_path with
  | Ok out =>
      out = ((records lower fs self root_path).*1,
             (records lower fs self root_path).*2,
             map chunk_id_str
               (seq 0 (length (records lower fs self root_path))))
      /\ (forall p, p ∈ rglob fs root_path -> is_file fs p = true ->
                    should_process_file lower fs p = Ok true ->
                    exists t, read_file_content (open_text fs) p = Ok t)
  | Raise e =>
      exists p,
        p ∈ rglob fs root_path
        /\ is_file fs p = true
        /\ should_process_file lower fs p = Ok true
        /\ read_file_content (open_text fs) p = Raise e
  end.
Proof.
  unfold process_codebase.
  pose proof (walk_cases (rglob fs root_path) [] 0) as H.
  change {| all_chunks := []; all_metadatas := []; all_ids := [];
            file_count := 0; chunk_id := 0 |} with (state_of [] 0).
  destruct (walk lower fs self root_path (rglob fs root_path)
              (state_of [] 0)) as [st | e]; cbn [mbind result_bind].
  - destruct H as ((count & ->) & Hreads). by split.
  - exact H.
Qed.

Lemma process_codebase_records (chunks : list pystr)
    (metadatas : list Metadata) (ids : list pystr) :
  process_codebase lower fs self root_path = Ok (chunks, metadatas, ids) ->
  chunks = (records lower fs self root_path).*1
  /\ metadatas = (records lower fs self root_path).*2
  /\ ids = map chunk_id_str
             (seq 0 (length (records lower fs self root_path))).
Proof.
  intros Hrun. pose proof process_codebase_cases as H.
  rewrite Hrun in H. destruct H as [H _]. by injection H as -> -> ->.
Qed.

(** The run returns when no regular file that passes the filter makes
    the content loader raise. *)
Lemma process_codebase_returns :
  (forall p e, p ∈ rglob fs root_path -> is_file fs p = true ->
               should_process_file lower fs p = Ok true ->
               read_file_content (open_text fs) p <> Raise e) ->
  process_codebase lower fs self root_path
  = Ok ((records lower fs self root_path).*1,
        (records lower fs self root_path).*2,
        map chunk_id_str
          (seq 0 (length (records lower fs self root_path)))).
Proof.
  intros Hread. pose proof process_codebase_cases as H.
  destruct (process_codebase lower fs self root_path) as [out | e];
    [destruct H as [-> _]; reflexivity |].
  destruct H as (p & Hp & Hfile & Hok & Hraise).
  by destruct (Hread p e).
Qed.

Lemma records_of_length (p : Path) :
  length (records_of fs self root_path p) = length (chunks_of fs self p).
Proof. unfold records_of. apply length_imap. Qed.

(** Every record of a file carries the path of that file. *)
Lemma records_of_file_path (p : Path) (chunk : pystr) (m : Metadata) :
  (chunk, m) ∈ records_of fs self root_path p ->
  m !! "file_path"%string = Some (VStr (label_of root_path p))
  /\ m !! "file_name"%string = Some (VStr (name p)).
Proof.
  intros Hin. apply list_elem_of_lookup in Hin as [i Hi].
  unfold records_of in Hi. rewrite list_lookup_imap in Hi.
  destruct (chunks_of fs self p !! i); [| discriminate].
  simpl in Hi. injection Hi as _ <-. split; reflexivity.
Qed.
End OrchestratorFacts.

(** Every file of the sample tree can be read. *)
Lemma sample_fs_readable (p : Path) (e : exn) :
  p ∈ rglob sample_fs sample_root -> is_file sample_fs p = true ->
  should_process_file ascii_lower sample_fs p = Ok true ->
  read_file_content (open_text sample_fs) p <> Raise e.
Proof.
  intros _ _ _ Hraise. apply read_file_content_raises in Hraise as [Hread _].
  unfold sample_fs in Hread. cbn [read_bytes] in Hread.
  by destruct (bool_decide (p = sample_readme)).
Qed.

(** C2. A run that returns gives three lists of one length, position by
    position the chunk and the metadata of one produced record, and the id
    at position [n] is "chunk_" followed by [n] in decimal: the counter
    starts at 0 and is never reset between files, so the ids are pairwise
    distinct.  (A run raises only when a regular file that passed the
    filter cannot be read.) *)
Theorem process_codebase_ids (lower : pystr -> pystr) (fs : FileSystem)
    (self : CodebaseIngestion) (root_path : Path)
    (chunks : list pystr) (metadatas : list Metadata) (ids : list pystr) :
  process_codebase lower fs self root_path = Ok (chunks, metadatas, ids) ->
  length metadatas = length chunks
  /\ length ids = length chunks
  /\ zip chunks metadatas = records lower fs self root_path
  /\ ids = map chunk_id_str (seq 0 (length chunks))
  /\ (forall n : nat, (n < length chunks)%nat ->
                      ids !! n = Some (str "chunk_" ++ str_of_Z (Z.of_nat n)))
  /\ NoDup ids.
Proof.
  intros Hrun.
  apply process_codebase_records in Hrun as (-> & -> & ->).
  set (recs := records lower fs self root_path).
  rewrite ?length_fmap, ?length_map, ?length_seq.
  repeat split.
  - apply zip_fst_snd.
  - intros n Hn. rewrite list_lookup_fmap, lookup_seq_lt by done. reflexivity.
  - apply (NoDup_fmap_2 chunk_id_str (Inj0 := chunk_id_str_inj)), NoDup_seq.
Qed.

Lemma process_codebase_ids_witness :
  exists (chunks : list pystr) (metadatas : list Metadata) (ids : list pystr),
    process_codebase ascii_lower sample_fs CodebaseIngestion_init sample_root
    = Ok (chunks, metadatas, ids)
    /\ length metadatas = length chunks
    /\ NoDup ids.
Proof.
  eexists _, _, _.
  pose proof (process_codebase_returns ascii_lower sample_fs
                CodebaseIngestion_init sample_root sample_fs_readable)
    as Hrun.
  split; [exact Hrun |].
  destruct (process_codebase_ids _ _ _ _ _ _ _ Hrun)
    as (Hlen & _ & _ & _ & _ & Hdup).
  split; [exact Hlen | exact Hdup].
Defined.

(** C3. The metadata of a run that returns is the metadata of its files
    one after the other; the entries of a file with [n] chunks carry the
    chunk indices 0, 1, ..., n-1 in this order and all carry
    [total_chunks = n]; so every record of the run has
    [0 <= chunk_index < total_chunks]. *)
Theorem chunk_index_contiguous (lower : pystr -> pystr) (fs : FileSystem)
    (self : CodebaseIngestion) (root_path : Path)
    (chunks : list pystr) (metadatas : list Metadata) (ids : list pystr) :
  process_codebase lower fs self root_path = Ok (chunks, metadatas, ids) ->
  metadatas
  = concat (map (fun p => (records_of fs self root_path p).*2)
              (ingested_files lower fs root_path))
  /\ (forall p : Path,
        let entries := (records_of fs self root_path p).*2 in
        let n := length (chunks_of fs self p) in
        length entries = n
        /\ (fun m : Metadata => m !! "chunk_index"%string) <$> entries
           = (fun i : nat => Some (VInt (Z.of_nat i))) <$> seq 0 n
        /\ (forall m, m ∈ entries ->
                      m !! "total_chunks"%string = Some (VInt (Z.of_nat n))))
  /\ (forall m, m ∈ metadatas ->
        exists i n : Z,
          m !! "chunk_index"%string = Some (VInt i)
          /\ m !! "total_chunks"%string = Some (VInt n)
          /\ (0 <= i < n)%Z).
Proof.
  intros Hrun.
  apply process_codebase_records in Hrun as (-> & -> & ->).
  assert (forall p m, m ∈ (records_of fs self root_path p).*2 ->
            exists i : nat,
              (i < length (chunks_of fs self p))%nat
              /\ m = chunk_metadata (label_of root_path p) p (Z.of_nat i)
                       (len (chunks_of fs self p))) as Hentry.
  { intros p m Hm. apply list_elem_of_fmap in Hm as ([c m'] & -> & Hin).
    apply list_elem_of_lookup in Hin as [i Hi]. unfold records_of in Hi.
    rewrite list_lookup_imap in Hi.
    destruct (chunks_of fs self p !! i) as [c'|] eqn:Hc; [| discriminate].
    simpl in Hi. injection Hi as <- <-. exists i. split; [| done].
    by apply lookup_lt_Some in Hc. }
  split; [| split].
  - unfold records. generalize (ingested_files lower fs root_path).
    intros files. induction files as [|p files IH]; [done |].
    simpl. by rewrite fmap_app, IH.
  - intros p. cbn zeta. split; [| split].
    + by rewrite length_fmap, records_of_length.
    + unfold records_of. rewrite <- list_fmap_compose.
      apply list_eq. intros i.
      rewrite !list_lookup_fmap, list_lookup_imap.
      destruct (chunks_of fs self p !! i) as [c|] eqn:Hc; simpl.
      * rewrite lookup_seq_lt by (by apply lookup_lt_Some in Hc). reflexivity.
      * rewrite lookup_seq_ge by (by apply lookup_ge_None in Hc). reflexivity.
    + intros m Hm. apply Hentry in Hm as (i & _ & ->). reflexivity.
  - intros m Hm. unfold records in Hm.
    apply list_elem_of_fmap in Hm as ([c m'] & -> & Hin).
    apply list_elem_of_In, in_concat in Hin as (l & Hl & Hin).
    apply in_map_iff in Hl as (p & <- & _). apply list_elem_of_In in Hin.
    assert (m' ∈ (records_of fs self root_path p).*2) as Hm'.
    { apply list_elem_of_fmap. by exists (c, m'). }
    apply Hentry in Hm' as (i & Hi & ->).
    exists (Z.of_nat i), (len (chunks_of fs self p)).
    split; [reflexivity | split; [reflexivity |]]. unfold len. lia.
Qed.

Lemma chunk_index_contiguous_witness :
  exists (chunks : list pystr) (metadatas : list Metadata) (ids : list pystr),
    process_codebase ascii_lower sample_fs CodebaseIngestion_init sample_root
    = Ok (chunks, metadatas, ids)
    /\ forall m, m ∈ metadatas ->
         exists i n : Z,
           m !! "chunk_index"%string = Some (VInt i)
           /\ m !! "total_chunks"%string = Some (VInt n)
           /\ (0 <= i < n)%Z.
Proof.
  eexists _, _, _.
  pose proof (process_codebase_returns ascii_lower sample_fs
                CodebaseIngestion_init sample_root sample_fs_readable)
    as Hrun.
  split; [exact Hrun |].
  exact (proj2 (proj2 (chunk_index_contiguous _ _ _ _ _ _ _ Hrun))).
Defined.

(** A run over the sample tree: the vendored script is filtered out and the
    short [README.md] gives one chunk, without its final newline. *)
Example process_codebase_sample :
  run_summary
  <$> process_codebase ascii_lower sample_fs CodebaseIngestion_init sample_root
  = Ok ([str "# My repo"],
        [(Some (VStr (str "README.md")), Some (VInt 0), Some (VInt 1))],
        [str "chunk_0"]).
Proof. vm_compute. reflexivity. Qed.

(** A run over a tree with a file that passes the filter and cannot be
    read: the error of the read ends the run, after [README.md] was
    processed. *)
Example process_codebase_unreadable :
  process_codebase ascii_lower linked_fs CodebaseIngestion_init sample_root
  = Raise (Exn OSError (str "[Errno 5] Input/output error")).
Proof. vm_compute. reflexivity. Qed.

(** ** The chunker *)

Lemma is_prefix_app (sep text : pystr) :
  is_prefix sep text = true -> text = sep ++ drop (length sep) text.
Proof.
  revert text. induction sep as [|a sep IH]; intros text H; [done |].
  destruct text as [|b text]; [discriminate |]. simpl in H.
  apply andb_true_iff in H as [Hab Hrest]. apply N.eqb_eq in Hab as ->.
  simpl. f_equal. by apply IH.
Qed.

Lemma pieces_aux_nonempty (sep : pystr) (text : pystr) :
  forall skip cur, pieces_aux sep skip cur text <> [].
Proof.
  induction text as [|c text IH]; intros skip cur; simpl; [done |].
  destruct skip; [| apply IH].
  destruct (is_prefix sep (c :: text)); [done | apply IH].
Qed.

Lemma join_cons (sep p : pystr) (ps : list pystr) :
  ps <> [] -> join sep (p :: ps) = p ++ sep ++ join sep ps.
Proof. by destruct ps. Qed.

(** Joining the pieces with the separator gives the text back. *)
Lemma join_pieces_aux (sep : pystr) (text : pystr) :
  sep <> [] ->
  forall skip cur,
    (skip <= length text)%nat ->
    join sep (pieces_aux sep skip cur text) = cur ++ drop skip text.
Proof.
  intros Hsep. induction text as [|c text IH]; intros skip cur Hskip.
  - simpl in Hskip. replace skip with O by lia. simpl. by rewrite app_nil_r.
  - destruct skip as [|k]; cbn [pieces_aux].
    + destruct (is_prefix sep (c :: text)) eqn:Hpre.
      * rewrite join_cons by apply pieces_aux_nonempty.
        pose proof (is_prefix_app _ _ Hpre) as Htext.
        destruct sep as [|a sep]; [done |]. simpl in Htext.
        injection Htext as Hc Htext.
        assert (length sep <= length text)%nat as Hlen.
        { apply (f_equal length) in Htext. rewrite length_app in Htext. lia. }
        rewrite IH by (simpl; lia). rewrite drop_0. simpl.
        rewrite Nat.sub_0_r. f_equal. by rewrite <- Htext, Hc.
      * rewrite IH by lia. rewrite drop_0, <- app_assoc. reflexivity.
    + rewrite IH by (simpl in Hskip; lia). reflexivity.
Qed.

Lemma join_pieces (sep text : pystr) :
  sep <> [] -> join sep (pieces sep text) = text.
Proof.
  intros Hsep. unfold pieces. rewrite join_pieces_aux by (done || lia).
  by rewrite drop_0.
Qed.

Lemma concat_keep_separator (sep first : pystr) (others : list pystr) :
  concat (first :: map (app sep) others) = join sep (first :: others).
Proof.
  revert first. induction others as [|p others IH]; intros first.
  - simpl. by rewrite app_nil_r.
  - rewrite join_cons by done. rewrite <- IH. simpl.
    by rewrite <- app_assoc.
Qed.

Lemma concat_filter_nonempty (l : list pystr) :
  concat (filter (fun s => s <> []) l) = concat l.
Proof.
  induction l as [|s l IH]; [done |]. rewrite filter_cons.
  destruct (decide (s <> [])) as [Hs | Hs]; simpl; [by rewrite IH |].
  destruct s; [by rewrite IH | by destruct Hs].
Qed.

(** The splits of a text, one after the other, are the text. *)
Lemma concat_split_text_with_regex (text separator : pystr) :
  concat (split_text_with_regex text separator) = text.
Proof.
  unfold split_text_with_regex. rewrite concat_filter_nonempty.
  destruct separator as [|a sep].
  - induction text as [|c text IH]; [done |]. simpl. by rewrite IH.
  - pose proof (join_pieces (a :: sep) text ltac:(done)) as Hjoin.
    destruct (pieces (a :: sep) text) as [|first others] eqn:Hp.
    + by destruct (pieces_aux_nonempty (a :: sep) text O []).
    + by rewrite concat_keep_separator.
Qed.

Lemma length_concat_elem (l : list pystr) (s : pystr) :
  s ∈ l -> (length s <= length (concat l))%nat.
Proof.
  induction l as [|x l IH]; [by inversion 1 |].
  simpl. rewrite length_app. intros [-> | H]%elem_of_cons; [lia |].
  specialize (IH H). lia.
Qed.

Lemma join_empty_separator (docs : list pystr) : join [] docs = concat docs.
Proof.
  induction docs as [|d docs IH]; [done |].
  destruct docs as [|d' docs]; [simpl; by rewrite app_nil_r |].
  rewrite join_cons by done. simpl in *. by rewrite IH.
Qed.

Section TextSplitterFacts.
Variables chunk_size chunk_overlap : Z.

(** The loop that pops the overlap keeps [total] equal to the length of
    what [current_doc] joins to; in particular [total] is 0 when the
    loop runs out of pieces. *)
Lemma pop_overlap_total (separator : pystr) (_len : Z)
    (current_doc : list pystr) :
  forall total' current_doc',
    pop_overlap chunk_size chunk_overlap (len separator) _len
      (len (join separator current_doc)) current_doc
    = (total', current_doc') ->
    total' = len (join separator current_doc').
Proof.
  induction current_doc as [|first rest IH]; intros total' doc' H.
  - by injection H as <- <-.
  - cbn [pop_overlap] in H. destruct (_ || _); [| by injection H as <- <-].
    apply IH. rewrite <- H. f_equal.
    destruct rest as [|second rest'].
    + case_bool_decide as Hrest; [by destruct Hrest |].
      unfold len. simpl. lia.
    + case_bool_decide as Hrest; [| discriminate Hrest].
      rewrite (join_cons separator first (second :: rest')) by done.
      unfold len. rewrite !length_app. lia.
Qed.

(** Pieces that fit together in one chunk are merged into one. *)
Lemma merge_loop_fits (splits : list pystr) :
  forall docs current_doc,
    (len (concat current_doc) + len (concat splits) <= chunk_size)%Z ->
    merge_loop chunk_size chunk_overlap [] splits docs current_doc
      (len (concat current_doc))
    = docs ++ emit (join_docs (current_doc ++ splits) []).
Proof.
  induction splits as [|d splits IH]; intros docs current_doc Hfit.
  - simpl. by rewrite app_nil_r.
  - cbn [merge_loop]. cbn zeta.
    assert (len (concat (d :: splits))
            = (len d + len (concat splits))%Z) as Hd.
    { unfold len. simpl. rewrite length_app. lia. }
    rewrite Hd in Hfit.
    assert (0 <= len (concat splits))%Z by (unfold len; lia).
    assert (len ([] : pystr) = 0%Z) as -> by reflexivity.
    replace (len (concat current_doc) + len d
             + (if bool_decide (current_doc <> []) then 0 else 0)
             >? chunk_size)%Z
      with false by (destruct (bool_decide _); lia).
    cbn [andb].
    replace (len (concat current_doc) + len d
             + (if bool_decide (1 < length (current_doc ++ [d]))%nat
                then 0 else 0))%Z
      with (len (concat (current_doc ++ [d]))).
    2: { unfold len. rewrite concat_app, length_app. simpl.
         rewrite app_nil_r. destruct (bool_decide _); lia. }
    rewrite IH.
    + by rewrite <- app_assoc.
    + unfold len in *. rewrite concat_app, length_app. simpl.
      rewrite app_nil_r. lia.
Qed.

Lemma merge_splits_fits (splits : list pystr) :
  (len (concat splits) <= chunk_size)%Z ->
  merge_splits chunk_size chunk_overlap splits []
  = emit (join_docs splits []).
Proof.
  intros Hfit. unfold merge_splits.
  exact (merge_loop_fits splits [] [] Hfit).
Qed.

(** When every piece is short, the loop only collects them. *)
Lemma split_loop_all_short (new_separators : list pystr)
    (recurse : pystr -> list pystr) (splits : list pystr) :
  Forall (fun s => (len s < chunk_size)%Z) splits ->
  forall good_splits final_chunks,
    split_loop chunk_size chunk_overlap new_separators recurse splits
      good_splits final_chunks
    = flush chunk_size chunk_overlap (good_splits ++ splits) final_chunks.
Proof.
  induction 1 as [|s splits Hs _ IH]; intros good final; simpl.
  - by rewrite app_nil_r.
  - apply Z.ltb_lt in Hs. rewrite Hs, IH, <- app_assoc. reflexivity.
Qed.

(** Splitting a short text on any separator and merging the splits
    returns the stripped text, or nothing when that is empty. *)
Lemma split_loop_short_text (new_separators : list pystr)
    (recurse : pystr -> list pystr) (text separator : pystr) :
  (len text < chunk_size)%Z ->
  split_loop chunk_size chunk_overlap new_separators recurse
    (split_text_with_regex text separator) [] []
  = emit (join_docs [text] []).
Proof.
  intros Hshort.
  pose proof (concat_split_text_with_regex text separator) as Hcat.
  set (splits := split_text_with_regex text separator) in *.
  rewrite split_loop_all_short.
  2: { apply Forall_forall. intros s Hs.
       apply length_concat_elem in Hs. rewrite Hcat in Hs.
       unfold len in *. lia. }
  simpl. unfold flush.
  assert (join_docs splits [] = join_docs [text] []) as Hjoin.
  { unfold join_docs. rewrite join_empty_separator, Hcat. reflexivity. }
  destruct splits as [|s splits'] eqn:Hsplits.
  - simpl in Hcat. subst text. reflexivity.
  - rewrite <- Hsplits in *. simpl.
    rewrite merge_splits_fits by (rewrite Hcat; lia).
    by rewrite Hjoin.
Qed.

Lemma _split_text_short (separators : list pystr) (text : pystr) :
  separators <> [] ->
  (len text < chunk_size)%Z ->
  _split_text chunk_size chunk_overlap separators text
  = emit (join_docs [text] []).
Proof.
  intros Hne Hshort. induction separators as [|s rest IH]; [done |].
  cbn [_split_text]. case_bool_decide.
  { by apply split_loop_short_text. }
  destruct (contains s text).
  { by apply split_loop_short_text. }
  destruct rest as [|s' rest'].
  { by apply split_loop_short_text. }
  by apply IH.
Qed.
End TextSplitterFacts.

(** C4, as the chunker has it.  A text shorter than the chunk size comes
    back as one chunk with the white space at its two ends removed, and as
    no chunk at all when nothing is left of it; it comes back unchanged
    exactly when it is not empty and neither starts nor ends with white
    space. *)
Theorem split_short_text (T : pystr) :
  (length T < 1500)%nat ->
  split_text (text_splitter CodebaseIngestion_init) T
  = (if bool_decide (strip T = []) then [] else [strip T])
  /\ (split_text (text_splitter CodebaseIngestion_init) T = [T]
      <-> T <> [] /\ strip T = T).
Proof.
  intros Hshort.
  assert (split_text (text_splitter CodebaseIngestion_init) T
          = if bool_decide (strip T = []) then [] else [strip T]) as Hsplit.
  { cbn [split_text text_splitter CodebaseIngestion_init
           RecursiveCharacterTextSplitter].
    rewrite _split_text_short; [| done | unfold len; lia].
    unfold join_docs, emit. cbn [join]. by case_bool_decide. }
  split; [exact Hsplit |]. rewrite Hsplit. case_bool_decide as Hstrip.
  - split; [discriminate |]. intros [Hne Heq]. congruence.
  - split.
    + intros [= Heq]. split; [congruence | done].
    + intros [_ ->]. reflexivity.
Qed.

Lemma split_short_text_witness :
  (length (str "x = 1" ++ [10%N]) < 1500)%nat
  /\ split_text (text_splitter CodebaseIngestion_init) (str "x = 1" ++ [10])
     = [str "x = 1"].
Proof.
  split; [vm_compute; lia |].
  exact (proj1 (split_short_text (str "x = 1" ++ [10])
                  ltac:(vm_compute; lia))).
Defined.

(** C4 as stated fails: a short text that ends with a newline comes back
    without it, and the empty text comes back as no chunk. *)
Lemma split_short_text_counterexample :
  (length (str "x = 1" ++ [10%N]) < 1500)%nat
  /\ split_text (text_splitter CodebaseIngestion_init) (str "x = 1" ++ [10])
     = [str "x = 1"]
  /\ split_text (text_splitter CodebaseIngestion_init) (str "x = 1" ++ [10])
     <> [str "x = 1" ++ [10]]
  /\ split_text (text_splitter CodebaseIngestion_init) [] = [].
Proof. vm_compute. repeat split; [lia | discriminate]. Qed.

(** ** The retriever *)

Lemma first_occurrences_elem (l : list pyval) (x : pyval) :
  x ∈ first_occurrences l <-> x ∈ l.
Proof.
  induction l as [|y l IH]; simpl; [done |].
  rewrite !elem_of_cons, list_elem_of_filter, IH.
  destruct (decide (x = y)) as [-> | Hne]; [by split; left |].
  split; [intros [-> | [_ H]]; [done | by right] |].
  intros [-> | H]; [done | by right].
Qed.

Lemma first_occurrences_NoDup (l : list pyval) : NoDup (first_occurrences l).
Proof.
  induction l as [|y l IH]; simpl; constructor.
  - rewrite list_elem_of_filter. by intros [Hne _].
  - by apply NoDup_filter.
Qed.

(** Adding the values one by one to a set keeps them in order of first
    appearance. *)
Lemma fold_set_add (l : list pyval) :
  forall acc : pyset,
    fold_left (fun s x => set_add x s) l acc
    = acc ++ filter (fun y => y ∉ acc) (first_occurrences l).
Proof.
  induction l as [|x l IH]; intros acc; simpl; [by rewrite app_nil_r |].
  rewrite IH. unfold set_add. case_bool_decide as Hx.
  - rewrite filter_cons_False by (intros H; by apply H).
    rewrite list_filter_filter_l; [done |]. intros y Hy ->. by apply Hy.
  - rewrite filter_cons_True by done. rewrite <- app_assoc. simpl.
    do 2 f_equal. rewrite list_filter_filter. apply list_filter_iff.
    intros y. rewrite elem_of_app, list_elem_of_singleton. split.
    + intros Hy. split; [intros H; apply Hy; by left |].
      intros H; apply Hy; by right.
    + intros [Hacc Hne] [H | H]; [by apply Hacc | by apply Hne].
Qed.

Lemma fold_set_add_empty (l : list pyval) :
  fold_left (fun s x => set_add x s) l [] = first_occurrences l.
Proof.
  rewrite fold_set_add. simpl. induction (first_occurrences l) as [|x xs IH];
    [done |].
  rewrite filter_cons_True by (by inversion 1). by rewrite IH.
Qed.

Section RetrieverFacts.
Context {Distance : Type}.
Variable format_score : Distance -> pystr.
Variable order : SetOrder.

(** The loop collects the file paths of the hits into the set, and does
    not raise when the recorded extensions are strings. *)
Lemma context_loop_paths (hs : list (pystr * Metadata * Distance)) :
  forallb (fun h => is_str (dict_get h.1.2 "file_extension" (VStr []))) hs
  = true ->
  forall context_parts file_paths,
  exists context_parts',
    context_loop format_score hs context_parts file_paths
    = Ok (context_parts',
          fold_left (fun s x => set_add x s) (map hit_path hs) file_paths).
Proof.
  induction hs as [|[[doc metadata] distance] hs IH];
    intros Hstr context_parts file_paths.
  - by eexists.
  - cbn [forallb] in Hstr. apply andb_true_iff in Hstr as [Hext Hrest].
    cbn [context_loop]. cbn [fst snd] in Hext.
    destruct (dict_get metadata "file_extension" (VStr [])) as [ext | z];
      [| discriminate].
    cbn [lstrip_dot mbind result_bind].
    destruct (IH Hrest
                (context_parts
                 ++ [context_part format_score
                       (dict_get metadata "file_path" (VStr (str "unknown")))
                       distance (lstrip_chars [46] ext) doc])
                (set_add (dict_get metadata "file_path" (VStr (str "unknown")))
                   file_paths)) as (parts' & ->).
    by eexists.
Qed.
End RetrieverFacts.

(** On what the vector index returns the retriever returns: some context,
    and the paths collected by the set, listed in its iteration order. *)
Lemma retrieve_context_shaped {Distance : Type}
    (format_score : Distance -> pystr) (order : SetOrder)
    (search : pystr -> Z -> result (QueryResult Distance))
    (query : pystr) (n_results : Z) (results : QueryResult Distance) :
  search query n_results = Ok results ->
  row_shaped results = true ->
  exists context : pystr,
    retrieve_context format_score order search query n_results
    = Ok (context,
          list_of_set order (first_occurrences (map hit_path (hits results)))).
Proof.
  intros Hsearch Hshape.
  assert (list_of_set order [] = []) as Hnil.
  { apply Permutation_nil_r. apply list_of_set_perm. constructor. }
  unfold retrieve_context. rewrite Hsearch. cbn [mbind result_bind].
  unfold row_shaped, hits in *.
  destruct results as [docs metas dists]. simpl in *.
  apply andb_true_iff in Hshape as [Hrows Hstr].
  destruct docs as [|row docs]; simpl in *.
  { eexists. by rewrite Hnil. }
  destruct row as [|doc row]; simpl in *.
  { eexists. by rewrite Hnil. }
  destruct metas as [|mrow metas]; [done |].
  destruct dists as [|drow dists]; [done |]. simpl in *.
  destruct (context_loop_paths format_score _ Hstr [] [])
    as (parts' & Hloop).
  rewrite Hloop. cbn [mbind result_bind].
  eexists. by rewrite fold_set_add_empty.
Qed.

(** C1, as the retriever has it.  On what the vector index returns for
    the query, the retriever returns, and its list of relevant files holds
    each distinct file path of the hits once ("unknown" for a hit without
    one): it is a
    rearrangement of the paths in order of first appearance, the order
    itself being the iteration order of the set; with a set that iterates
    in insertion order it is the order of first appearance. *)
Theorem retrieve_context_files {Distance : Type}
    (format_score : Distance -> pystr) (order : SetOrder)
    (search : pystr -> Z -> result (QueryResult Distance))
    (query : pystr) (n_results : Z) (results : QueryResult Distance) :
  search query n_results = Ok results ->
  row_shaped results = true ->
  let paths := map hit_path (hits results) in
  exists (context : pystr) (files : list pyval),
    retrieve_context format_score order search query n_results
    = Ok (context, files)
    /\ NoDup files
    /\ (forall v, v ∈ files <-> v ∈ paths)
    /\ files ≡ₚ first_occurrences paths
    /\ files = list_of_set order (first_occurrences paths)
    /\ (list_of_set order = list_of_set insertion_order ->
        files = first_occurrences paths).
Proof.
  intros Hsearch Hshape paths.
  destruct (retrieve_context_shaped format_score order search query n_results
              results Hsearch Hshape) as (context & Hret).
  fold paths in Hret.
  pose proof (list_of_set_perm order _ (first_occurrences_NoDup paths)) as Hp.
  exists context, (list_of_set order (first_occurrences paths)).
  split; [exact Hret |]. split; [| split; [| split; [| split]]].
  - rewrite Hp. apply first_occurrences_NoDup.
  - intros v. rewrite Hp. apply first_occurrences_elem.
  - exact Hp.
  - reflexivity.
  - by intros ->.
Qed.

Lemma retrieve_context_files_witness :
  row_shaped sample_results = true
  /\ exists (context : pystr) (files : list pyval),
       retrieve_context str_of_N (slot_order first_char_slot)
         (fun _ _ => Ok sample_results) (str "where is b") 8
       = Ok (context, files)
       /\ NoDup files.
Proof.
  split; [reflexivity |].
  destruct (retrieve_context_files str_of_N (slot_order first_char_slot)
              (fun _ _ => Ok sample_results) (str "where is b") 8
              sample_results eq_refl eq_refl)
    as (context & files & H & Hnodup & _).
  exists context, files. split; [exact H | exact Hnodup].
Defined.

(** C1 as stated fails: the hits name [b.py] before [a.py], and a set
    whose table holds [a.py] in an earlier slot lists it first. *)
Lemma retrieve_context_files_counterexample :
  map hit_path (hits sample_results)
  = [VStr (str "b.py"); VStr (str "a.py"); VStr (str "b.py")]
  /\ first_occurrences (map hit_path (hits sample_results))
     = [VStr (str "b.py"); VStr (str "a.py")]
  /\ snd <$> retrieve_context str_of_N (slot_order first_char_slot)
               (fun _ _ => Ok sample_results) (str "where is b") 8
     = Ok [VStr (str "a.py"); VStr (str "b.py")]
  /\ [VStr (str "a.py"); VStr (str "b.py")]
     <> first_occurrences (map hit_path (hits sample_results)).
Proof. vm_compute. repeat split. discriminate. Qed.

(** ** Collection names *)

Lemma str_of_N_length (n : N) (k : nat) :
  n < 10 ^ N.of_nat k -> (1 <= k)%nat -> (length (str_of_N n) <= k)%nat.
Proof. apply digits_fuel_length. Qed.

Lemma str_of_Z_length (z : Z) :
  (- 10 ^ 18 < z < 10 ^ 19)%Z -> (1 <= length (str_of_Z z) <= 19)%nat.
Proof.
  intros Hz. unfold str_of_Z. destruct z as [|p|p].
  - simpl. lia.
  - split; [apply digits_fuel_nonempty |].
    apply (str_of_N_length _ 19); [| lia].
    change (N.of_nat 19) with 19. unfold Z.to_N. lia.
  - cbn [length]. split; [lia |].
    assert (length (str_of_N (N.pos p)) <= 18)%nat; [| lia].
    apply (str_of_N_length _ 18); [| lia].
    change (N.of_nat 18) with 18. lia.
Qed.

Lemma str_of_Z_chars (z : Z) (c : N) :
  c ∈ str_of_Z z -> 48 <= c <= 57 \/ c = 45.
Proof.
  unfold str_of_Z, str_of_N. destruct z.
  - intros H. left. by eapply digits_fuel_chars.
  - intros H. left. by eapply digits_fuel_chars.
  - intros [-> | H]%elem_of_cons; [by right | left; by eapply digits_fuel_chars].
Qed.

Lemma hex_digits_length (k : nat) (n : N) : length (hex_digits k n) = k.
Proof.
  revert n. induction k as [|k IH]; intros n; simpl; [done |].
  rewrite length_app, IH. simpl. lia.
Qed.

Lemma hex_digits_chars (k : nat) (n : N) (c : N) :
  c ∈ hex_digits k n -> 48 <= c <= 57 \/ 97 <= c <= 102.
Proof.
  revert n. induction k as [|k IH]; intros n; simpl; [by inversion 1 |].
  rewrite elem_of_app. intros [H | ->%list_elem_of_singleton]; [by eapply IH |].
  pose proof (N.mod_lt n 16 ltac:(lia)) as Hlt. unfold hex_char.
  generalize dependent (n mod 16). intros d Hd.
  destruct (N.ltb_spec d 10); lia.
Qed.

Lemma name_char_ascii (unicode_isalnum : N -> bool) (c : N) :
  48 <= c <= 57 \/ 97 <= c <= 122 \/ c = 95 \/ c = 45 ->
  name_char unicode_isalnum c.
Proof.
  intros H. unfold name_char, isalnum, ascii_isalnum.
  destruct (N.ltb_spec c 128); [| lia].
  destruct H as [H | [H | [-> | ->]]]; [left | left | by right; left | by right; right].
  - replace (48 <=? c) with true by (symmetry; apply N.leb_le; lia).
    replace (c <=? 57) with true by (symmetry; apply N.leb_le; lia).
    reflexivity.
  - replace (97 <=? c) with true by (symmetry; apply N.leb_le; lia).
    replace (c <=? 122) with true by (symmetry; apply N.leb_le; lia).
    by rewrite !orb_true_r.
Qed.

(** The shape of a collection name.  For a user id of at most 19
    characters in decimal (every key of the users table is one) and any
    project name, the name is made of characters that pass the filter of
    the code, is 3 to 63 characters long, and ends in the first 8
    hexadecimal digits of the MD5 digest of
    "<user id>_<project name>_<timestamp>". *)
Theorem create_collection_name_format (lower : pystr -> pystr)
    (unicode_isalnum : N -> bool) (encode : pystr -> pybytes)
    (md5 : pybytes -> N) (now user_id : Z) (project_name : pystr) :
  (- 10 ^ 18 < user_id < 10 ^ 19)%Z ->
  let collection :=
    create_collection_name lower unicode_isalnum encode md5 now user_id
      project_name in
  let hash_suffix :=
    take 8 (md5_hexdigest md5
              (encode (str_of_Z user_id ++ str "_" ++ project_name ++ str "_"
                       ++ str_of_Z now))) in
  Forall (name_char unicode_isalnum) collection
  /\ (3 <= length collection <= 63)%nat
  /\ length hash_suffix = 8%nat
  /\ Forall (fun c => 48 <= c <= 57 \/ 97 <= c <= 102) hash_suffix
  /\ exists body, collection = body ++ hash_suffix.
Proof.
  intros Hid collection hash_suffix.
  pose proof (str_of_Z_length user_id Hid) as Hlen.
  assert (length hash_suffix = 8%nat) as Hsuffix.
  { unfold hash_suffix, md5_hexdigest.
    rewrite length_take, hex_digits_length. lia. }
  assert (Forall (fun c => 48 <= c <= 57 \/ 97 <= c <= 102) hash_suffix)
    as Hhex.
  { unfold hash_suffix, md5_hexdigest. apply Forall_take, Forall_forall.
    intros c Hc. by eapply hex_digits_chars. }
  unfold collection, create_collection_name. fold hash_suffix.
  set (safe_name :=
         filter (fun c => isalnum unicode_isalnum c || char_in c (str "_-"))
           (take 30 (replace_char 32 (str "_") (lower project_name)))).
  assert (length safe_name <= 30)%nat as Hsafe.
  { unfold safe_name. etransitivity; [apply length_filter |].
    rewrite length_take. lia. }
  split; [| split; [split |]; [| | split; [| split]]].
  - repeat apply Forall_app_2.
    + apply Forall_forall. intros c Hc. apply name_char_ascii.
      vm_compute in Hc.
      repeat (apply elem_of_cons in Hc as [-> | Hc]; [lia |]).
      inversion Hc.
    + apply Forall_forall. intros c Hc. apply name_char_ascii.
      apply str_of_Z_chars in Hc. lia.
    + apply Forall_forall. intros c ->%list_elem_of_singleton.
      right. by left.
    + apply Forall_forall. intros c Hc. unfold safe_name in Hc.
      apply list_elem_of_filter in Hc as [Hc _]. unfold name_char.
      apply Is_true_true, orb_true_iff in Hc as [Hc | Hc]; [by left | right].
      unfold char_in in Hc. apply bool_decide_eq_true in Hc.
      vm_compute in Hc.
      repeat (apply elem_of_cons in Hc as [-> | Hc]; [tauto |]).
      inversion Hc.
    + apply Forall_forall. intros c ->%list_elem_of_singleton.
      right. by left.
    + eapply Forall_impl; [exact Hhex |]. intros c Hc. cbv beta in Hc.
      apply name_char_ascii. lia.
  - rewrite !length_app. change (length (str "user")) with 4%nat.
    change (length (str "_")) with 1%nat. lia.
  - rewrite !length_app, Hsuffix. change (length (str "user")) with 4%nat.
    change (length (str "_")) with 1%nat. lia.
  - exact Hsuffix.
  - exact Hhex.
  - eexists. rewrite !app_assoc. reflexivity.
Qed.

(** C7.  The sanitizing keeps what [str.isalnum] accepts, and that is
    more than the letters and digits the comment above it names: at the
    project name "café" the letter "é" stays, so the collection name of
    user 1 is "user1_café_" followed by 8 hexadecimal digits, and it holds
    a character that is neither an ASCII letter, nor a digit, nor an
    underscore, nor a hyphen. *)
Theorem create_collection_name_keeps_accent (lower : pystr -> pystr)
    (unicode_isalnum : N -> bool) (encode : pystr -> pybytes)
    (md5 : pybytes -> N) (now : Z) :
  lower (str "caf" ++ [233]) = str "caf" ++ [233] ->
  unicode_isalnum 233 = true ->
  let collection :=
    create_collection_name lower unicode_isalnum encode md5 now 1
      (str "caf" ++ [233]) in
  take 11 collection = str "user1_caf" ++ [233] ++ str "_"
  /\ length collection = 19%nat
  /\ 233 ∈ collection
  /\ ~ (ascii_isalnum 233 = true \/ 233 = 95 \/ 233 = 45).
Proof.
  intros Hlower Halnum collection.
  assert (collection
          = str "user1_caf" ++ [233] ++ str "_"
            ++ take 8 (md5_hexdigest md5
                         (encode (str "1_caf" ++ [233] ++ str "_"
                                  ++ str_of_Z now)))) as ->.
  { unfold collection, create_collection_name. rewrite Hlower. cbv zeta.
    change (take 30 (replace_char 32 (str "_") (str "caf" ++ [233])))
      with [99; 97; 102; 233].
    assert (filter (fun c => isalnum unicode_isalnum c || char_in c (str "_-"))
              [99; 97; 102; 233] = [99; 97; 102; 233]) as ->.
    { rewrite !filter_cons_True; [done | | | |].
      - unfold isalnum. cbn. by rewrite Halnum.
      - exact I.
      - exact I.
      - exact I. }
    reflexivity. }
  split; [reflexivity |]. split; [| split].
  - rewrite !length_app, length_take. unfold md5_hexdigest.
    rewrite hex_digits_length. reflexivity.
  - apply elem_of_app. right. by left.
  - intros [H | [H | H]]; discriminate.
Qed.

Lemma create_collection_name_keeps_accent_witness :
  take 11 (create_collection_name ascii_lower latin_1_isalnum ascii_encode
             sum_digest 1700000000 1 (str "caf" ++ [233]))
  = str "user1_caf" ++ [233] ++ str "_".
Proof.
  exact (proj1 (create_collection_name_keeps_accent ascii_lower
                  latin_1_isalnum ascii_encode sum_digest 1700000000
                  eq_refl eq_refl)).
Defined.

(** A key of the users table is a signed 64-bit integer at most: the name
    built for it is 3 to 63 characters long. *)
Corollary create_collection_name_length (lower : pystr -> pystr)
    (unicode_isalnum : N -> bool) (encode : pystr -> pybytes)
    (md5 : pybytes -> N) (now user_id : Z) (project_name : pystr) :
  (0 <= user_id < 2 ^ 63)%Z ->
  (3 <= length (create_collection_name lower unicode_isalnum encode md5 now
                  user_id project_name) <= 63)%nat.
Proof.
  intros Hid.
  apply (create_collection_name_format lower unicode_isalnum encode md5 now
           user_id project_name).
  lia.
Qed.

(** ** Deleting a collection *)

(** C8. Whatever the storage client does, deleting a collection returns
    normally, and so does deleting it a second time; when the client
    raises, one line with the error is printed and nothing else happens. *)
Theorem delete_collection_never_raises (Client : Type)
    (client_delete_collection : pystr -> Client -> Client * result unit)
    (self : VectorStore) (w : World Client) :
  exists w1 w2 : World Client,
    delete_collection Client client_delete_collection self w = (w1, Ok tt)
    /\ delete_collection Client client_delete_collection self w1 = (w2, Ok tt)
    /\ (forall c e,
          client_delete_collection (collection_name self) (chroma_client w)
          = (c, Raise e) ->
          chroma_client w1 = c
          /\ stdout w1
             = stdout w ++ [str "Error deleting collection "
                            ++ collection_name self ++ str ": " ++ exn_str e])
    /\ (forall c u,
          client_delete_collection (collection_name self) (chroma_client w)
          = (c, Ok u) ->
          chroma_client w1 = c /\ stdout w1 = stdout w).
Proof.
  assert (forall w0 : World Client,
            exists w', delete_collection Client client_delete_collection self w0
                       = (w', Ok tt)) as Hreturns.
  { intros w0. unfold delete_collection.
    destruct (client_delete_collection _ _) as [c [u | e]]; [by eexists |].
    rewrite catches_Exception. by eexists. }
  destruct (Hreturns w) as (w1 & H1). destruct (Hreturns w1) as (w2 & H2).
  exists w1, w2. split; [exact H1 |]. split; [exact H2 |].
  unfold delete_collection in H1. split.
  - intros c e Hc. rewrite Hc, catches_Exception in H1.
    injection H1 as <-. by split.
  - intros c u Hc. rewrite Hc in H1. injection H1 as <-. by split.
Qed.

(** With a client that refuses to delete what it does not have, the second
    deletion finds the collection gone, logs the refusal and leaves the
    collections as the first one left them. *)
Lemma delete_collection_twice (self : VectorStore) (names : gset pystr)
    (out : list pystr) :
  collection_name self ∈ names ->
  let w := {| chroma_client := names; stdout := out |} in
  let w1 := (delete_collection (gset pystr) names_delete self w).1 in
  let w2 := (delete_collection (gset pystr) names_delete self w1).1 in
  delete_collection (gset pystr) names_delete self w
  = ({| chroma_client := names ∖ {[collection_name self]}; stdout := out |},
     Ok tt)
  /\ (delete_collection (gset pystr) names_delete self w1).2 = Ok tt
  /\ chroma_client w2 = chroma_client w1
  /\ length (stdout w2) = S (length out).
Proof.
  intros Hin w w1 w2.
  assert (delete_collection (gset pystr) names_delete self w
          = ({| chroma_client := names ∖ {[collection_name self]};
                stdout := out |}, Ok tt)) as H1.
  { unfold delete_collection, names_delete, w. simpl.
    by rewrite bool_decide_eq_true_2. }
  split; [exact H1 |].
  unfold w2, w1. rewrite H1. unfold delete_collection, names_delete. simpl.
  rewrite bool_decide_eq_false_2
    by (rewrite elem_of_difference, elem_of_singleton; by intros [_ H]).
  simpl.
  rewrite length_app. simpl. repeat split. lia.
Qed.

(** ** The answer composer *)

(** The two long literals have the lengths Python gives them. *)
Example prompt_lengths :
  length SYSTEM_PROMPT = 2093%nat /\ length PROMPT_INSTRUCTIONS = 1253%nat.
Proof. vm_compute. split; reflexivity. Qed.

(** C9, as the composer has it.  The retrieval is made before the [try]:
    when it raises, the composer raises the same error and calls neither
    the agent nor the model.  Once the retrieval has returned, the
    composer returns a reply whatever the generation capability does.
    When the agent answers, the reply is read off its response.  When the
    agent raises, the failure is printed and the direct call is made once,
    with the system instruction the agent was built with and the very
    prompt the agent was given; its text is the reply, and when it raises
    too the reply is the apology followed by the message of that error.
    The relevant files are those of the retrieval in every case. *)
Theorem analyze_always_replies {Distance : Type}
    (format_score : Distance -> pystr) (order : SetOrder)
    (search : pystr -> Z -> result (QueryResult Distance))
    (agent_run : Agent -> pystr -> result RunResponse)
    (generate_content_async :
       pystr -> pystr -> pystr -> result GenerateResponse)
    (api_key : pystr) (self : CodebaseArchitectAgent)
    (question : pystr) (chat_history : option (list ChatMessage)) :
  CodebaseArchitectAgent_init api_key = Ok self ->
  let retrieved := retrieve_context format_score order search question 8 in
  let run :=
    analyze format_score order search agent_run generate_content_async self
      question chat_history in
  (forall e, retrieved = Raise e -> run = ([], Raise e))
  /\ forall (context : pystr) (files : list pyval),
       retrieved = Ok (context, files) ->
       exists (events : list Event) (answer : pystr),
         run = (events, Ok {| reply := answer; relevant_files := files |})
         /\ let prompt := build_prompt context chat_history question in
            let direct :=
              response ← generate_content_async GEMINI_MODEL
                           (instructions (agent self)) prompt;
              response_text response in
            instructions (agent self) = SYSTEM_PROMPT
            /\ (forall response,
                  agent_run (agent self) prompt = Ok response ->
                  events = [AgentRun (agent self) prompt]
                  /\ answer = extract_reply response)
            /\ (forall e,
                  agent_run (agent self) prompt = Raise e ->
                  events
                  = [AgentRun (agent self) prompt;
                     Print (str "Agno agent error, falling back to direct Gemini: "
                            ++ exn_str e);
                     GenerateContent GEMINI_MODEL (instructions (agent self))
                       prompt]
                  /\ (forall t, direct = Ok t -> answer = t)
                  /\ (forall e', direct = Raise e' ->
                                 answer = APOLOGY ++ exn_str e')).
Proof.
  intros Hinit retrieved run.
  assert (instructions (agent self) = SYSTEM_PROMPT) as Hsys.
  { unfold CodebaseArchitectAgent_init in Hinit.
    destruct (bool_decide _); [discriminate |]. by injection Hinit as <-. }
  split.
  { intros e Hret. unfold run, analyze. fold retrieved. by rewrite Hret. }
  intros context files Hret.
  unfold run, analyze, _fallback_gemini_call. fold retrieved.
  rewrite Hret, Hsys. cbv zeta.
  set (prompt := build_prompt context chat_history question).
  destruct (agent_run (agent self) prompt) as [response | e] eqn:Hrun.
  { eexists _, _. split; [reflexivity |].
    split; [reflexivity |]. split; [by intros ? [= <-] | discriminate]. }
  rewrite catches_Exception.
  destruct (mbind _ _) as [t | e'] eqn:Hdirect.
  - eexists _, _. split; [reflexivity |].
    split; [reflexivity |]. split; [discriminate |]. intros ? [= <-].
    split; [reflexivity |]. split; [by intros ? [= <-] | discriminate].
  - rewrite catches_Exception.
    eexists _, _. split; [reflexivity |].
    split; [reflexivity |]. split; [discriminate |]. intros ? [= <-].
    split; [reflexivity |]. split; [discriminate | by intros ? [= <-]].
Qed.

Lemma analyze_always_replies_witness :
  exists self,
    CodebaseArchitectAgent_init (str "key") = Ok self
    /\ (analyze str_of_N insertion_order (fun _ _ => Ok empty_results)
          agent_down model_down self (str "how does authentication work")
          None).2
       = Ok {| reply := APOLOGY ++ str "quota exceeded";
               relevant_files := [] |}.
Proof.
  eexists. split; [reflexivity |].
  destruct (analyze_always_replies str_of_N insertion_order
              (fun _ _ => Ok empty_results) agent_down model_down (str "key")
              _ (str "how does authentication work") None eq_refl)
    as [_ Hreplies].
  destruct (Hreplies NO_CODE_FOUND [] eq_refl)
    as (events & answer & Hrun & _ & _ & Hfail).
  rewrite Hrun. simpl.
  destruct (Hfail _ eq_refl) as (_ & _ & Hsorry).
  by rewrite (Hsorry _ eq_refl).
Defined.

(** C9 as stated fails: when the vector search raises, the composer
    raises too, although the model is up; nothing is called and no reply
    is returned. *)
Lemma analyze_always_replies_counterexample :
  exists self,
    CodebaseArchitectAgent_init (str "key") = Ok self
    /\ analyze str_of_N insertion_order search_down agent_down model_up self
         (str "how does authentication work") None
       = ([], Raise (Exn NotFoundError
                       (str "Collection user7_shop_0000002a does not exist.")))
    /\ forall answer : Analysis,
         (analyze str_of_N insertion_order search_down agent_down model_up
            self (str "how does authentication work") None).2
         <> Ok answer.
Proof.
  eexists. split; [reflexivity |]. split; [reflexivity |].
  intros answer. discriminate.
Qed.

(** The scenarios of the specification on sample capabilities. *)
Example analyze_no_code_found :
  retrieve_context str_of_N insertion_order (fun _ _ => Ok empty_results)
    (str "how does authentication work") 8
  = Ok (NO_CODE_FOUND, []).
Proof. reflexivity. Qed.

Example analyze_fallback_answers :
  (fun self =>
     (analyze str_of_N insertion_order (fun _ _ => Ok empty_results) agent_down
        model_up self (str "hi") None).2)
  <$> CodebaseArchitectAgent_init (str "key")
  = Ok (Ok {| reply := str "Hello!"; relevant_files := [] |}).
Proof. reflexivity. Qed.

Example CodebaseArchitectAgent_init_no_key :
  CodebaseArchitectAgent_init []
  = Raise (Exn ValueError
             (str "GEMINI_API_KEY not found in environment variables")).
Proof. reflexivity. Qed.

(** * Further properties *)

(** ** Ingestion: what the walk skips and what it records *)

Lemma ancestor_dirs_below (root p : Path) (d : pystr) :
  below root p -> d ∈ parts root -> d ∈ ancestor_dirs p.
Proof.
  intros (_ & rel & Hrel & Hparts) Hd. unfold ancestor_dirs.
  rewrite Hparts, length_app.
  assert (0 < length rel)%nat by (destruct rel; [done | simpl; lia]).
  rewrite take_app_ge by lia. apply elem_of_app. by left.
Qed.

Lemma should_process_file_ignored_dir (lower : pystr -> pystr)
    (fs : FileSystem) (p : Path) (d : pystr) :
  d ∈ ancestor_dirs p -> d ∈ IGNORE_DIRS ->
  should_process_file lower fs p = Ok false.
Proof.
  intros Hd Hign. unfold should_process_file.
  destruct (negb _); [reflexivity |].
  destruct (bool_decide (name p ∈ IGNORE_FILES)); [reflexivity |].
  assert (in_ignored_dir (parents p) = true) as ->; [| reflexivity].
  apply in_ignored_dir_parents. exists d. split; [exact Hd | exact Hign].
Qed.

Lemma ingested_files_none (lower : pystr -> pystr) (fs : FileSystem)
    (root : Path) :
  (forall p, p ∈ rglob fs root -> eligible lower fs p = false) ->
  ingested_files lower fs root = [].
Proof.
  unfold ingested_files. induction (rglob fs root) as [|p files IH];
    intros Hall; [reflexivity |].
  rewrite filter_cons_False.
  - apply IH. intros q Hq. apply Hall. by right.
  - rewrite (Hall p) by (by left). discriminate.
Qed.



Lemma join_nonempty_path (rel : list pystr) :
  rel <> [] ->
  str_of_path (MkPath false rel) = join [47] rel.
Proof. intros Hrel. unfold str_of_path. simpl. by destruct rel. Qed.

(** Below the root, the recorded path is the relative one. *)
Lemma label_of_below (root p : Path) :
  below root p -> label_of root p = join [47] (relative_parts root p).
Proof.
  intros (Habs & rel & Hrel & Hparts). unfold label_of, relative_to.
  rewrite bool_decide_eq_true_2 by exact Habs.
  rewrite bool_decide_eq_true_2
    by (rewrite Hparts; by rewrite take_app_length).
  simpl. unfold relative_parts. rewrite Hparts, drop_app_length.
  by apply join_nonempty_path.
Qed.

(** X2. Every metadata record of a run names a regular file of the walk:
    its [file_path] is the path of that file relative to the root, with
    "/" between the components, its [file_name] the last component and its
    [file_extension] the suffix of the file, case kept. *)
Theorem metadata_names_relative_path (lower : pystr -> pystr)
    (fs : FileSystem) (self : CodebaseIngestion) (root_path : Path)
    (chunks : list pystr) (metadatas : list Metadata) (ids : list pystr) :
  process_codebase lower fs self root_path = Ok (chunks, metadatas, ids) ->
  (forall p, p ∈ rglob fs root_path -> below root_path p) ->
  forall m, m ∈ metadatas ->
    exists p,
      p ∈ rglob fs root_path
      /\ is_file fs p = true
      /\ m !! "file_path"%string
         = Some (VStr (join [47] (relative_parts root_path p)))
      /\ m !! "file_name"%string = Some (VStr (name p))
      /\ m !! "file_extension"%string = Some (VStr (suffix p)).
Proof.
  intros Hrun Hwalk m Hm.
  apply process_codebase_records in Hrun as (_ & -> & _).
  unfold records in Hm.
  apply list_elem_of_fmap in Hm as ([chunk m'] & -> & Hin).
  apply list_elem_of_In, in_concat in Hin as (l & Hl & Hin).
  apply in_map_iff in Hl as (p & <- & Hp).
  apply list_elem_of_In in Hin. apply list_elem_of_In in Hp.
  unfold ingested_files in Hp. apply list_elem_of_filter in Hp as [Hel Hp].
  exists p. split; [exact Hp |]. split.
  { unfold eligible in Hel. destruct (is_file fs p); [reflexivity |].
    discriminate. }
  apply list_elem_of_lookup in Hin as [i Hi].
  unfold records_of in Hi. rewrite list_lookup_imap in Hi.
  destruct (chunks_of fs self p !! i); [| discriminate].
  simpl in Hi. injection Hi as _ <-.
  rewrite <- (label_of_below root_path p) by (by apply Hwalk).
  repeat split; reflexivity.
Qed.

Lemma metadata_names_relative_path_witness :
  exists p,
    p ∈ rglob sample_fs sample_root
    /\ is_file sample_fs p = true
    /\ chunk_metadata (str "README.md") sample_readme 0 1 !! "file_path"%string
       = Some (VStr (join [47] (relative_parts sample_root p)))
    /\ chunk_metadata (str "README.md") sample_readme 0 1 !! "file_name"%string
       = Some (VStr (name p))
    /\ chunk_metadata (str "README.md") sample_readme 0 1
         !! "file_extension"%string
       = Some (VStr (suffix p)).
Proof.
  refine (metadata_names_relative_path ascii_lower sample_fs
            CodebaseIngestion_init sample_root
            [str "# My repo"]
            [chunk_metadata (str "README.md") sample_readme 0 1]
            [str "chunk_0"] _ _ _ _).
  - vm_compute. reflexivity.
  - intros p Hp. vm_compute in Hp.
    repeat (apply elem_of_cons in Hp as [-> | Hp];
            [split; [reflexivity |]; eexists; split; [| reflexivity];
             discriminate |]).
    inversion Hp.
  - left.
Defined.

(** ** The file filter: names without an extension *)

Lemma rfind_char_lookup (c : N) (s : pystr) (i : nat) :
  rfind_char c s = Some i -> s !! i = Some c.
Proof.
  revert i. induction s as [|x s IH]; intros i; simpl; [discriminate |].
  destruct (rfind_char c s) as [j|].
  - intros [= <-]. simpl. by apply IH.
  - destruct (N.eqb_spec x c) as [-> |]; [| discriminate].
    by intros [= <-].
Qed.

Lemma suffix_dotless (p : Path) : 46 ∉ drop 1 (name p) -> suffix p = [].
Proof.
  intros Hdot. unfold suffix.
  destruct (rfind_char 46 (name p)) as [i|] eqn:Hfind; [| reflexivity].
  destruct i as [|i]; [reflexivity |].
  exfalso. apply Hdot. apply rfind_char_lookup in Hfind.
  apply list_elem_of_lookup. exists i. by rewrite lookup_drop.
Qed.

Lemma empty_suffix_not_allowed : ([] : pystr) ∉ CODE_EXTENSIONS.
Proof. apply (bool_decide_unpack _). vm_compute. exact I. Qed.

(** X3. A file whose name has no dot after its first character
    ([Dockerfile], [Makefile], [.gitignore]) has no suffix and is turned
    down, whatever its place and size: the allow-list only ever admits
    names of the form stem-dot-extension. *)
Theorem dotless_name_rejected (lower : pystr -> pystr) (fs : FileSystem)
    (p : Path) :
  lower [] = [] ->
  46 ∉ drop 1 (name p) ->
  suffix p = [] /\ should_process_file lower fs p = Ok false.
Proof.
  intros Hlower Hdot. pose proof (suffix_dotless p Hdot) as Hsuffix.
  split; [exact Hsuffix |]. unfold should_process_file.
  rewrite Hsuffix, Hlower.
  rewrite bool_decide_eq_false_2 by exact empty_suffix_not_allowed.
  reflexivity.
Qed.

Lemma dotless_name_rejected_witness :
  ascii_lower [] = []
  /\ should_process_file ascii_lower sample_fs
       (joinpath sample_root (str "Dockerfile")) = Ok false.
Proof.
  split; [reflexivity |].
  refine (proj2 (dotless_name_rejected ascii_lower sample_fs
                   (joinpath sample_root (str "Dockerfile")) eq_refl _)).
  apply (bool_decide_unpack _). vm_compute. exact I.
Defined.

(** ** Archives and repositories *)

Lemma below_joinpath (root : Path) (d : pystr) (rel : list pystr) :
  rel <> [] ->
  below (joinpath root d)
    (MkPath (absolute root) (parts root ++ d :: rel)).
Proof.
  intros Hrel. split; [reflexivity |]. exists rel. split; [exact Hrel |].
  simpl. by rewrite <- app_assoc.
Qed.

(** X4. After unpacking, the root of the ingestion is the single entry of
    the extraction directory when there is exactly one and it is a
    directory, and the extraction directory itself in every other case.
    In the first case the paths recorded for the files are relative to that
    entry: its name is not part of them. *)
Theorem extract_zip_unwraps_single_directory
    (extractall : Path -> Path -> result Extracted)
    (zip_path temp_dir : Path) (ex : Extracted) :
  extractall zip_path temp_dir = Ok ex ->
  exists root_path,
    extract_zip extractall zip_path temp_dir = Ok (ex, root_path)
    /\ (forall lower self,
          ingest_from_zip lower self extractall temp_dir zip_path
          = process_codebase lower (tree ex) self root_path)
    /\ (forall d,
          listdir ex temp_dir = [d] -> is_dir ex (joinpath temp_dir d) = true ->
          root_path = joinpath temp_dir d
          /\ forall rel,
               rel <> [] ->
               label_of root_path
                 (MkPath (absolute temp_dir) (parts temp_dir ++ d :: rel))
               = join [47] rel)
    /\ ((forall d, listdir ex temp_dir = [d] ->
                   is_dir ex (joinpath temp_dir d) = false) ->
        root_path = temp_dir).
Proof.
  intros Hex.
  assert (exists root_path,
            extract_zip extractall zip_path temp_dir = Ok (ex, root_path)
            /\ (forall d, listdir ex temp_dir = [d] ->
                          is_dir ex (joinpath temp_dir d) = true ->
                          root_path = joinpath temp_dir d)
            /\ ((forall d, listdir ex temp_dir = [d] ->
                           is_dir ex (joinpath temp_dir d) = false) ->
                root_path = temp_dir)) as (root_path & Hroot & Hone & Hother).
  { unfold extract_zip, iterdir. rewrite Hex. cbn [mbind result_bind].
    destruct (listdir ex temp_dir) as [|d [|d' names]]; simpl.
    - exists temp_dir. split; [reflexivity |]. split; [discriminate | done].
    - destruct (is_dir ex (joinpath temp_dir d)) eqn:Hdir.
      + eexists. split; [reflexivity |]. split.
        * by intros ? [= <-] _.
        * intros Hno. specialize (Hno d eq_refl). congruence.
      + exists temp_dir. split; [reflexivity |]. split; [| done].
        intros ? [= <-] Hyes. congruence.
    - exists temp_dir. split; [reflexivity |]. split; [discriminate | done]. }
  exists root_path. split; [exact Hroot |]. split; [| split].
  - intros lower self. unfold ingest_from_zip. by rewrite Hroot.
  - intros d Hlist Hdir. specialize (Hone d Hlist Hdir). subst root_path.
    split; [reflexivity |]. intros rel Hrel.
    rewrite label_of_below by (by apply below_joinpath).
    unfold relative_parts. simpl.
    replace (parts temp_dir ++ d :: rel) with ((parts temp_dir ++ [d]) ++ rel)
      by (by rewrite <- app_assoc).
    by rewrite drop_app_length.
  - exact Hother.
Qed.

Lemma extract_zip_unwraps_single_directory_witness :
  exists root_path,
    extract_zip (fun _ _ => Ok sample_extracted) sample_temp sample_temp
    = Ok (sample_extracted, root_path)
    /\ root_path = sample_root.
Proof.
  destruct (extract_zip_unwraps_single_directory
              (fun _ _ => Ok sample_extracted) sample_temp sample_temp
              sample_extracted eq_refl)
    as (root_path & Hroot & _ & Hone & _).
  exists root_path. split; [exact Hroot |].
  exact (proj1 (Hone (str "myrepo") eq_refl eq_refl)).
Defined.


Example ingest_from_github_broken_clone :
  ingest_from_github ascii_lower CodebaseIngestion_init broken_clone
    sample_temp (str "https://github.com/nobody/nothing")
  = Raise (Exn ValueError
             (str "Failed to clone repository: repository not found")).
Proof. reflexivity. Qed.

Example ingest_from_github_unreadable_file :
  ingest_from_github ascii_lower CodebaseIngestion_init
    (fun _ _ => Ok linked_fs) sample_temp
    (str "https://github.com/nobody/linked")
  = Raise (Exn OSError (str "[Errno 5] Input/output error")).
Proof. vm_compute. reflexivity. Qed.

(** ** The retriever: sentinel, sections, and hits that come from the
    ingestion *)

Lemma head_join (sep p : pystr) (ps : list pystr) (c : N) :
  head p = Some c -> head (join sep (p :: ps)) = Some c.
Proof. destruct p as [|x p]; [discriminate |]. by destruct ps. Qed.

Section RetrieverSections.
Context {Distance : Type}.
Variable format_score : Distance -> pystr.

(** Whenever the loop returns, it has added one section per hit, in order,
    and the file paths of the hits to the set. *)
Lemma context_loop_sections (hs : list (pystr * Metadata * Distance)) :
  forall context_parts file_paths context_parts' file_paths',
    context_loop format_score hs context_parts file_paths
    = Ok (context_parts', file_paths') ->
    context_parts' = context_parts ++ map (section_of format_score) hs
    /\ file_paths'
       = fold_left (fun s x => set_add x s) (map hit_path hs) file_paths.
Proof.
  induction hs as [|[[doc metadata] distance] hs IH];
    intros parts paths parts' paths' Hloop.
  - injection Hloop as <- <-. by rewrite app_nil_r.
  - cbn [context_loop] in Hloop.
    destruct (dict_get metadata "file_extension" (VStr [])) as [ext | z] eqn:Hext;
      [| discriminate].
    cbn [lstrip_dot mbind result_bind] in Hloop.
    apply IH in Hloop as [-> ->]. split; [| reflexivity].
    rewrite <- app_assoc. f_equal. simpl. f_equal.
    unfold section_of, extension_of, hit_path. simpl. by rewrite Hext.
Qed.

Lemma section_of_head (h : pystr * Metadata * Distance) :
  head (section_of format_score h) = Some 10.
Proof. reflexivity. Qed.
End RetrieverSections.

(** X6. Whenever the retriever returns, its context is the sections of the
    hits in ranked order, one per hit, joined by newlines, unless no
    document was found; the "no relevant code" sentence is returned exactly
    when no document was found, and then the list of files is empty. *)
Theorem retrieve_context_sections {Distance : Type}
    (format_score : Distance -> pystr) (order : SetOrder)
    (search : pystr -> Z -> result (QueryResult Distance))
    (query : pystr) (n_results : Z) (context : pystr) (files : list pyval) :
  retrieve_context format_score order search query n_results
  = Ok (context, files) ->
  exists results,
    search query n_results = Ok results
    /\ let nothing_found :=
         documents results = [] \/ head (documents results) = Some [] in
       (nothing_found -> context = NO_CODE_FOUND /\ files = [])
       /\ (~ nothing_found ->
           context = join [10] (map (section_of format_score) (hits results)))
       /\ (context = NO_CODE_FOUND <-> nothing_found).
Proof.
  intros Hret. unfold retrieve_context in Hret.
  destruct (search query n_results) as [results | e]; [| discriminate].
  cbn [mbind result_bind] in Hret.
  exists results. split; [reflexivity |]. intros nothing_found.
  destruct (bool_decide (documents results = [])
            || bool_decide (head (documents results) = Some [])) eqn:Hnone.
  - assert nothing_found as Hyes.
    { apply orb_true_iff in Hnone as [H | H];
        apply bool_decide_eq_true in H; [by left | by right]. }
    injection Hret as <- <-. split; [done |]. split; [done |]. done.
  - assert (~ nothing_found) as Hno.
    { apply orb_false_iff in Hnone as [H1 H2].
      apply bool_decide_eq_false in H1, H2. by intros [H | H]. }
    assert (context = join [10] (map (section_of format_score) (hits results)))
      as Hcontext.
    { unfold hits.
      destruct (documents results) as [|docs ?]; [by destruct Hno; left |].
      destruct (metadatas results) as [|metas ?]; [discriminate |].
      destruct (distances results) as [|dists ?]; [discriminate |].
      cbn [index0 mbind result_bind] in Hret.
      destruct (context_loop _ _ _ _) as [[parts paths] | e] eqn:Hloop;
        [| discriminate].
      cbn [mbind result_bind] in Hret. injection Hret as <- _.
      apply context_loop_sections in Hloop as [-> _]. reflexivity. }
    split; [done |]. split; [done |].
    split; [| done]. intros Heq. exfalso.
    rewrite Hcontext in Heq.
    destruct (hits results) as [|h hs]; [discriminate |].
    assert (head (join [10] (map (section_of format_score) (h :: hs)))
            = Some 10) as Hhead
      by (apply head_join, section_of_head).
    rewrite Heq in Hhead. discriminate.
Qed.

Lemma retrieve_context_sections_witness :
  retrieve_context str_of_N insertion_order (fun _ _ => Ok empty_results)
    (str "anything") 8
  = Ok (NO_CODE_FOUND, [])
  /\ exists results : QueryResult N,
       (NO_CODE_FOUND = NO_CODE_FOUND
        <-> documents results = [] \/ head (documents results) = Some []).
Proof.
  split; [reflexivity |].
  destruct (retrieve_context_sections str_of_N insertion_order
              (fun _ _ => Ok empty_results) (str "anything") 8
              NO_CODE_FOUND [] eq_refl) as (results & _ & _ & _ & H).
  exists results. exact H.
Defined.

Lemma written_by_ingestion_fields (m : Metadata) :
  written_by_ingestion m ->
  exists relative_path file_path,
    dict_get m "file_path" (VStr (str "unknown")) = VStr relative_path
    /\ dict_get m "file_extension" (VStr []) = VStr (suffix file_path)
    /\ m !! "file_path"%string = Some (VStr relative_path).
Proof.
  intros (rp & fp & i & total & ->). exists rp, fp. repeat split.
Qed.

(** The suffix of a path is empty, or a dot and an extension without dot. *)
Lemma rfind_char_last (c : N) (s : pystr) (i : nat) :
  rfind_char c s = Some i -> c ∉ drop (S i) s.
Proof.
  revert i. induction s as [|x s IH]; intros i; simpl; [discriminate |].
  destruct (rfind_char c s) as [j|] eqn:Hj.
  - intros [= <-]. by apply IH.
  - destruct (N.eqb_spec x c) as [-> |]; [| discriminate].
    intros [= <-]. rewrite drop_0. clear IH.
    induction s as [|y s IH]; [by inversion 1 |]. simpl in Hj.
    destruct (rfind_char c s); [discriminate |].
    destruct (N.eqb_spec y c); [discriminate |].
    intros [-> | H]%elem_of_cons; [done | by apply IH].
Qed.

Lemma suffix_shape (p : Path) :
  suffix p = [] \/ exists ext, suffix p = 46 :: ext /\ ext <> [] /\ 46 ∉ ext.
Proof.
  unfold suffix.
  destruct (rfind_char 46 (name p)) as [i|] eqn:Hfind; [| by left].
  destruct (bool_decide (0 < i)%nat && bool_decide (i < length (name p) - 1)%nat)
    eqn:Hrange; [| by left].
  right. apply andb_true_iff in Hrange as [_ Hlast].
  apply bool_decide_eq_true in Hlast.
  pose proof (rfind_char_lookup _ _ _ Hfind) as Hdot.
  pose proof (rfind_char_last _ _ _ Hfind) as Hnone.
  exists (drop (S i) (name p)). split; [| split; [| exact Hnone]].
  - by rewrite (drop_S _ _ _ Hdot).
  - intros Hnil. apply (f_equal length) in Hnil.
    rewrite length_drop in Hnil. simpl in Hnil. lia.
Qed.

Lemma lstrip_dot_suffix (p : Path) :
  lstrip_chars [46] (suffix p) = drop 1 (suffix p)
  /\ 46 ∉ lstrip_chars [46] (suffix p).
Proof.
  destruct (suffix_shape p) as [-> | (ext & -> & Hne & Hdot)].
  - split; [reflexivity | by inversion 1].
  - assert (lstrip_chars [46] (46 :: ext) = ext) as ->;
      [| split; [reflexivity | exact Hdot]].
    cbn [lstrip_chars]. unfold char_in at 1.
    rewrite bool_decide_eq_true_2 by (by left).
    destruct ext as [|c ext]; [done |]. cbn [lstrip_chars]. unfold char_in.
    rewrite bool_decide_eq_false_2; [reflexivity |].
    intros ->%list_elem_of_singleton. apply Hdot. by left.
Qed.

(** X7. On hits whose metadata were written by the ingestion the retriever
    does not raise; every file it reports is a relative path recorded at
    ingestion for one of the hits (never an invented name); and the fence
    of a hit is tagged with the extension of its file without the dot. *)
Theorem retrieve_context_of_ingested {Distance : Type}
    (format_score : Distance -> pystr) (order : SetOrder)
    (search : pystr -> Z -> result (QueryResult Distance))
    (query : pystr) (n_results : Z)
    (docs : list pystr) (metas : list Metadata) (dists : list Distance) :
  let results :=
    {| documents := [docs]; metadatas := [metas]; distances := [dists] |} in
  search query n_results = Ok results ->
  Forall written_by_ingestion metas ->
  exists (context : pystr) (files : list pyval),
    retrieve_context format_score order search query n_results
    = Ok (context, files)
    /\ (forall v, v ∈ files ->
          exists m relative_path,
            m ∈ metas
            /\ m !! "file_path"%string = Some (VStr relative_path)
            /\ v = VStr relative_path)
    /\ (forall h relative_path file_path i total,
          h ∈ hits results ->
          h.1.2 = chunk_metadata relative_path file_path i total ->
          section_of format_score h
          = context_part format_score (VStr relative_path) h.2
              (drop 1 (suffix file_path)) h.1.1
          /\ 46 ∉ drop 1 (suffix file_path)).
Proof.
  intros results Hsearch Hmetas.
  assert (forall h, h ∈ hits results -> h.1.2 ∈ metas) as Hhit.
  { intros [[doc m] dist] Hin. unfold hits in Hin.
    simpl in Hin. apply list_elem_of_lookup in Hin as [k Hk].
    apply lookup_zip_with_Some in Hk as ([d' m'] & ? & [= <- <- <-] & Hk & _).
    apply lookup_zip_with_Some in Hk as (? & ? & [= <- <-] & _ & Hk).
    simpl. by eapply list_elem_of_lookup_2. }
  assert (row_shaped results = true) as Hshape.
  { unfold row_shaped. apply andb_true_iff. split.
    - simpl. destruct docs; reflexivity.
    - apply forallb_forall. intros h Hin%list_elem_of_In.
      apply Hhit in Hin. rewrite Forall_forall in Hmetas.
      destruct (written_by_ingestion_fields _ (Hmetas _ Hin))
        as (rp & fp & _ & -> & _). reflexivity. }
  destruct (retrieve_context_shaped format_score order search query n_results
              results Hsearch Hshape) as (context & Hret).
  eexists _, _. split; [exact Hret |]. split.
  - intros v Hv.
    rewrite (list_of_set_perm order _ (first_occurrences_NoDup _)) in Hv.
    apply first_occurrences_elem, list_elem_of_fmap in Hv as (h & -> & Hin).
    apply Hhit in Hin. rewrite Forall_forall in Hmetas.
    destruct (written_by_ingestion_fields _ (Hmetas _ Hin))
      as (rp & fp & Hpath & _ & Hlookup).
    exists (h.1.2), rp. split; [exact Hin |]. split; [exact Hlookup |].
    exact Hpath.
  - intros [[doc m] dist] rp fp i total _ Hm. simpl in Hm. subst m.
    destruct (lstrip_dot_suffix fp) as [Hstrip Hdot]. split.
    + unfold section_of, extension_of, hit_path. cbn [fst snd].
      change (dict_get (chunk_metadata rp fp i total) "file_extension" (VStr []))
        with (VStr (suffix fp)).
      change (dict_get (chunk_metadata rp fp i total) "file_path"
                (VStr (str "unknown"))) with (VStr rp).
      cbv iota beta. by rewrite Hstrip.
    + by rewrite <- Hstrip.
Qed.

Lemma retrieve_context_of_ingested_witness :
  exists (context : pystr) (files : list pyval),
    retrieve_context str_of_N insertion_order (fun _ _ => Ok ingested_results)
      (str "where is x set") 8
    = Ok (context, files)
    /\ forall v, v ∈ files ->
         exists m relative_path,
           m ∈ [chunk_metadata (str "src/app.py")
                  (MkPath true [str "tmp"; str "src"; str "app.py"]) 0 1]
           /\ m !! "file_path"%string = Some (VStr relative_path)
           /\ v = VStr relative_path.
Proof.
  assert (Forall written_by_ingestion
            [chunk_metadata (str "src/app.py")
               (MkPath true [str "tmp"; str "src"; str "app.py"]) 0 1])
    as Hmetas.
  { constructor; [| constructor]. eexists _, _, _, _. reflexivity. }
  destruct (retrieve_context_of_ingested str_of_N insertion_order
              (fun _ _ => Ok ingested_results) (str "where is x set") 8
              _ _ _ eq_refl Hmetas)
    as (context & files & Hret & Hfiles & _).
  exists context, files. split; [exact Hret | exact Hfiles].
Defined.

(** ** The composer: how much of the history reaches the model *)

Lemma last_n_short {A} (n : nat) (l : list A) :
  (length l <= n)%nat -> last_n n l = l.
Proof.
  intros Hlen. unfold last_n.
  replace (length l - n)%nat with 0%nat by lia. apply drop_0.
Qed.

Lemma last_n_length {A} (n : nat) (l : list A) :
  (length (last_n n l) <= n)%nat.
Proof. unfold last_n. rewrite length_drop. lia. Qed.

Lemma last_n_nil {A} (n : nat) (l : list A) :
  (0 < n)%nat -> last_n n l = [] -> l = [].
Proof.
  intros Hn Hnil. apply (f_equal length) in Hnil. unfold last_n in Hnil.
  rewrite length_drop in Hnil. simpl in Hnil.
  destruct l; [done | simpl in Hnil; lia].
Qed.

Lemma history_line_clip (msg : ChatMessage) :
  history_line (clip msg) = history_line msg.
Proof.
  unfold history_line, clip. simpl. by rewrite take_take, Nat.min_id.
Qed.

Lemma history_line_length (msg : ChatMessage) :
  (length (history_line msg) <= 220)%nat.
Proof.
  unfold history_line. cbv zeta.
  rewrite !length_app, length_take.
  set (shown := (200 `min` length (content msg))%nat).
  assert (shown <= 200)%nat by lia.
  destruct (bool_decide (role msg = str "user")); simpl; lia.
Qed.

Lemma concat_length_bound {A B} (f : A -> list B) (k : nat) (l : list A) :
  (forall x, length (f x) <= k)%nat ->
  (length (concat (map f l)) <= length l * k)%nat.
Proof.
  intros Hf. induction l as [|x l IH]; simpl; [lia |].
  rewrite length_app. specialize (Hf x). lia.
Qed.

Lemma conversation_context_recent (history : list ChatMessage) :
  conversation_context (Some history)
  = conversation_context (Some (map clip (last_n 6 history))).
Proof.
  destruct history as [|msg history]; [reflexivity |].
  set (h := msg :: history).
  destruct (map clip (last_n 6 h)) as [|msg' recent] eqn:Hrecent.
  - apply map_eq_nil, last_n_nil in Hrecent; [discriminate | lia].
  - unfold conversation_context. rewrite <- Hrecent.
    rewrite (last_n_short 6 (map clip (last_n 6 h)))
      by (rewrite length_map; apply last_n_length).
    rewrite map_map.
    rewrite (map_ext _ _ history_line_clip). reflexivity.
Qed.

Lemma conversation_context_length (chat_history : option (list ChatMessage)) :
  (length (conversation_context chat_history) <= 1351)%nat.
Proof.
  destruct chat_history as [[|msg history] |]; [simpl; lia | | simpl; lia].
  unfold conversation_context. set (h := msg :: history).
  rewrite !length_app.
  pose proof (concat_length_bound history_line 220 (last_n 6 h)
                history_line_length) as Hlines.
  pose proof (last_n_length 6 h) as Hsix.
  set (lines := length (concat (map history_line (last_n 6 h)))) in *.
  set (recent := length (last_n 6 h)) in *.
  simpl. lia.
Qed.

(** X8. The composer does the same, call for call and answer for answer,
    with a chat history as with its last six messages cut to 200 characters
    each; an empty history counts as none; and the prompt is at most 2654
    characters longer than the retrieved context and the question taken
    together, however long the history is. *)
Theorem analyze_uses_recent_history {Distance : Type}
    (format_score : Distance -> pystr) (order : SetOrder)
    (search : pystr -> Z -> result (QueryResult Distance))
    (agent_run : Agent -> pystr -> result RunResponse)
    (generate_content_async : pystr -> pystr -> pystr -> result GenerateResponse)
    (self : CodebaseArchitectAgent) (question : pystr)
    (chat_history : list ChatMessage) :
  let run :=
    analyze format_score order search agent_run generate_content_async self
      question in
  run (Some chat_history) = run (Some (map clip (last_n 6 chat_history)))
  /\ run (Some []) = run None
  /\ forall context history,
       (length (build_prompt context history question)
        <= length context + length question + 2654)%nat.
Proof.
  intros run. split; [| split].
  - unfold run, analyze, build_prompt.
    by rewrite <- conversation_context_recent.
  - reflexivity.
  - intros context history. unfold build_prompt.
    rewrite !length_app.
    pose proof (conversation_context_length history) as Hhistory.
    change (length PROMPT_HEADER) with 26%nat.
    change (length PROMPT_RULE) with 7%nat.
    change (length PROMPT_QUESTION) with 17%nat.
    assert (length PROMPT_INSTRUCTIONS = 1253%nat) as -> by (by vm_compute).
    lia.
Qed.

(** ** Collection names of different users *)

Lemma app_separator_inj {A} (sep : A) (a b r1 r2 : list A) :
  sep ∉ a -> sep ∉ b -> a ++ sep :: r1 = b ++ sep :: r2 -> a = b.
Proof.
  revert b. induction a as [|x a IH]; intros [|y b] Ha Hb Heq; simpl in Heq.
  - done.
  - injection Heq as -> _. destruct Hb. by left.
  - injection Heq as -> _. destruct Ha. by left.
  - injection Heq as -> Heq. f_equal. apply IH; [| | done].
    + intros H. apply Ha. by right.
    + intros H. apply Hb. by right.
Qed.

Lemma str_of_N_head (n : N) : exists c s, str_of_N n = c :: s /\ 48 <= c <= 57.
Proof.
  unfold str_of_N.
  pose proof (digits_fuel_nonempty (N.to_nat (N.log2 n)) n) as Hlen.
  destruct (digits_fuel _ n) as [|c s] eqn:Hdigits; [simpl in Hlen; lia |].
  exists c, s. split; [done |].
  apply (digits_fuel_chars (S (N.to_nat (N.log2 n))) n). rewrite Hdigits.
  by left.
Qed.

Lemma str_of_Z_inj : Inj (=) (=) str_of_Z.
Proof.
  assert (forall n p, str_of_N n <> 45 :: str_of_N (N.pos p)) as Hsign.
  { intros n p Heq. destruct (str_of_N_head n) as (c & s & Hn & Hc).
    rewrite Hn in Heq. injection Heq as -> _. lia. }
  intros [|p|p] [|q|q] Heq; unfold str_of_Z in Heq;
    try reflexivity;
    try (by apply Hsign in Heq); try (symmetry in Heq; by apply Hsign in Heq).
  - apply str_of_N_inj in Heq. discriminate.
  - apply str_of_N_inj in Heq. discriminate.
  - apply str_of_N_inj in Heq. simpl in Heq. by injection Heq as ->.
  - injection Heq as Heq. apply str_of_N_inj in Heq. by injection Heq as ->.
Qed.

(** X9. Two users never get the same collection name: whatever the project
    names, the clock and the digest are, the names built for different user
    ids differ. *)
Theorem create_collection_name_separates_users (lower : pystr -> pystr)
    (unicode_isalnum : N -> bool) (encode : pystr -> pybytes)
    (md5 : pybytes -> N) (now1 now2 user1 user2 : Z)
    (project1 project2 : pystr) :
  user1 <> user2 ->
  create_collection_name lower unicode_isalnum encode md5 now1 user1 project1
  <> create_collection_name lower unicode_isalnum encode md5 now2 user2 project2.
Proof.
  intros Hdiff Heq. apply Hdiff, str_of_Z_inj.
  unfold create_collection_name in Heq. cbv zeta in Heq.
  apply app_inv_head in Heq.
  assert (forall z, 95 ∉ str_of_Z z) as Hdigits.
  { intros z Hin. apply str_of_Z_chars in Hin. lia. }
  exact (app_separator_inj 95 _ _ _ _ (Hdigits user1) (Hdigits user2) Heq).
Qed.

Lemma create_collection_name_separates_users_witness :
  create_collection_name ascii_lower latin_1_isalnum ascii_encode sum_digest
    1700000000 1 (str "shop")
  <> create_collection_name ascii_lower latin_1_isalnum ascii_encode sum_digest
       1700000000 11 (str "shop").
Proof.
  apply create_collection_name_separates_users. lia.
Defined.

(** ** The routes: whose projects and conversations they touch *)

Lemma filter_none {A} (P : A -> Prop) `{!forall x, Decision (P x)}
    (l : list A) :
  (forall x, x ∈ l -> ~ P x) -> filter P l = [].
Proof.
  induction l as [|x l IH]; intros Hnone; [done |].
  rewrite filter_cons_False by (apply Hnone; by left).
  apply IH. intros y Hy. apply Hnone. by right.
Qed.

(** With distinct keys, the rows of a key are the row itself. *)
Lemma filter_key {A} (key : A -> Z) (P : A -> Prop)
    `{!forall x, Decision (P x)} (l : list A) (row : A) :
  NoDup (map key l) -> row ∈ l -> P row ->
  (forall x, P x -> key x = key row) ->
  filter P l = [row].
Proof.
  induction l as [|x l IH]; intros Hkeys Hin Hrow Hkey; [by inversion Hin |].
  simpl in Hkeys. apply NoDup_cons in Hkeys as [Hx Hkeys].
  apply elem_of_cons in Hin as [<- | Hin].
  - rewrite filter_cons_True by done. f_equal. apply filter_none.
    intros y Hy HP. apply Hx. rewrite <- (Hkey y HP).
    apply list_elem_of_fmap. by exists y.
  - rewrite filter_cons_False; [by apply IH |].
    intros HP. apply Hx. rewrite (Hkey x HP).
    apply list_elem_of_fmap. by exists row.
Qed.

Lemma NoDup_key_inj {A} (key : A -> Z) (l : list A) (x y : A) :
  NoDup (map key l) -> x ∈ l -> y ∈ l -> key x = key y -> x = y.
Proof.
  induction l as [|z l IH]; intros Hkeys Hx Hy Hkey; [by inversion Hx |].
  simpl in Hkeys. apply NoDup_cons in Hkeys as [Hz Hkeys].
  apply elem_of_cons in Hx as [-> | Hx]; apply elem_of_cons in Hy as [-> | Hy].
  - done.
  - destruct Hz. rewrite Hkey. apply list_elem_of_fmap. by exists y.
  - destruct Hz. rewrite <- Hkey. apply list_elem_of_fmap. by exists x.
  - by apply IH.
Qed.

Lemma select_project_none (project_id user_id : Z) (db : Database) :
  (forall p, p ∈ codebase_projects db ->
             models.CodebaseProject.id p = project_id ->
             models.CodebaseProject.user_id p <> user_id) ->
  select_project project_id user_id db = [].
Proof.
  intros Hnone. apply filter_none. intros p Hp [Hid Huser].
  by apply (Hnone p).
Qed.

Lemma select_project_one (project : models.CodebaseProject.t) (db : Database) :
  NoDup (map models.CodebaseProject.id (codebase_projects db)) ->
  project ∈ codebase_projects db ->
  select_project (models.CodebaseProject.id project)
    (models.CodebaseProject.user_id project) db
  = [project].
Proof.
  intros Hkeys Hin.
  apply (filter_key models.CodebaseProject.id); [done | done | done |].
  by intros p [Hid _].
Qed.

(** Deleting a collection returns, with the client as its own deletion
    left it. *)
Lemma delete_collection_returns (Client : Type)
    (client_delete_collection : pystr -> Client -> Client * result unit)
    (self : VectorStore) (w : World Client) :
  exists out,
    delete_collection Client client_delete_collection self w
    = ({| chroma_client :=
            (client_delete_collection (collection_name self)
               (chroma_client w)).1;
          stdout := out |}, Ok tt).
Proof.
  unfold delete_collection.
  destruct (client_delete_collection _ _) as [c [[] | e]]; [by eexists |].
  rewrite catches_Exception. by eexists.
Qed.

(** X10. Deleting a project that is not the caller's, or that does not
    exist, is answered 404 "Project not found", and nothing changes: no
    row goes, and the storage client is not even called. *)
Theorem delete_project_of_another_user {Client : Type}
    (get_or_create_collection : pystr -> Client -> Client * result unit)
    (client_delete_collection : pystr -> Client -> Client * result unit)
    (project_id : Z) (current_user : models.User.t) (s : Server Client) :
  (forall p, p ∈ codebase_projects (database s) ->
             models.CodebaseProject.id p = project_id ->
             models.CodebaseProject.user_id p <> models.User.id current_user) ->
  routers.delete_project get_or_create_collection client_delete_collection
    project_id current_user s
  = (s, Throw (HTTPException 404 (str "Project not found"))).
Proof.
  intros Hnone. unfold routers.delete_project.
  by rewrite (select_project_none _ _ _ Hnone).
Qed.

Lemma delete_project_of_another_user_witness :
  routers.delete_project names_get_or_create names_delete 1 bob sample_server
  = (sample_server, Throw (HTTPException 404 (str "Project not found"))).
Proof.
  apply delete_project_of_another_user.
  intros p Hp Hid Huser. simpl in Hp.
  apply elem_of_cons in Hp as [-> | Hp]; [discriminate Huser |].
  apply list_elem_of_singleton in Hp as ->. discriminate Hid.
Defined.

(** X11. Deleting one's own project, in a table with distinct keys: when
    the collection can be opened, the answer is the success message, the
    row of the project is gone and every other row stays, also when the
    storage client then refuses to delete the collection; when the
    collection cannot be opened, the error is raised and the row stays. *)
Theorem delete_project_removes_row {Client : Type}
    (get_or_create_collection : pystr -> Client -> Client * result unit)
    (client_delete_collection : pystr -> Client -> Client * result unit)
    (project : models.CodebaseProject.t) (current_user : models.User.t)
    (s : Server Client) :
  NoDup (map models.CodebaseProject.id (codebase_projects (database s))) ->
  project ∈ codebase_projects (database s) ->
  models.CodebaseProject.user_id project = models.User.id current_user ->
  let answer :=
    routers.delete_project get_or_create_collection client_delete_collection
      (models.CodebaseProject.id project) current_user s in
  let opened :=
    get_or_create_collection (models.CodebaseProject.vector_store_id project)
      (chroma_client (store s)) in
  (forall u, opened.2 = Ok u ->
     answer.2 = Return (str "Project deleted successfully")
     /\ (forall p, p ∈ codebase_projects (database answer.1)
                   <-> p ∈ codebase_projects (database s) /\ p <> project)
     /\ conversations (database answer.1) = conversations (database s)
     /\ messages (database answer.1) = messages (database s)
     /\ chroma_client (store answer.1)
        = (client_delete_collection
             (models.CodebaseProject.vector_store_id project) opened.1).1)
  /\ (forall e, opened.2 = Raise e ->
        answer.2 = Throw (Uncaught e)
        /\ database answer.1 = database s).
Proof.
  intros Hkeys Hin Howner answer opened.
  unfold answer, routers.delete_project. rewrite <- Howner.
  rewrite (select_project_one _ _ Hkeys Hin). cbn [scalar_one_or_none].
  unfold VectorStore_init. fold opened.
  destruct opened as [c [u | e]] eqn:Hopened; cbn [fst snd].
  - split; [intros _ _ | intros e [=]].
    destruct (delete_collection_returns Client client_delete_collection
                {| collection_name :=
                     models.CodebaseProject.vector_store_id project |}
                {| chroma_client := c; stdout := stdout (store s) |})
      as (out & ->).
    cbn [fst snd database store chroma_client collection_name delete_row
         codebase_projects conversations messages].
    split; [done |]. split; [| done].
    intros p. rewrite list_elem_of_filter. split.
    + intros [Hne Hp]. split; [done |]. by intros ->.
    + intros [Hp Hne]. split; [| done]. intros Hid. apply Hne.
      by apply (NoDup_key_inj models.CodebaseProject.id
                  (codebase_projects (database s))).
  - split; [intros u [=] | intros e' [= <-]]. done.
Qed.

Lemma delete_project_removes_row_witness :
  (routers.delete_project names_get_or_create names_delete 1 ann
     sample_server).2
  = Return (str "Project deleted successfully")
  /\ forall p,
       p ∈ codebase_projects
             (database
                (routers.delete_project names_get_or_create names_delete 1
                   ann sample_server).1)
       <-> p ∈ [shop_project; blog_project] /\ p <> shop_project.
Proof.
  assert (NoDup (map models.CodebaseProject.id
                   (codebase_projects (database sample_server)))) as Hkeys.
  { apply (bool_decide_unpack _). reflexivity. }
  assert (shop_project ∈ codebase_projects (database sample_server)) as Hin
    by (by left).
  destruct (delete_project_removes_row names_get_or_create names_delete
              shop_project ann sample_server Hkeys Hin eq_refl)
    as [Hdone _].
  destruct (Hdone tt eq_refl) as (Hanswer & Hrows & _).
  split; [exact Hanswer | exact Hrows].
Defined.

(** X12. A question about a project that is not the caller's, or that does
    not exist, is answered 404 "Project not found" before anything else
    happens: no collection is opened, no model is called, nothing is
    saved. *)
Theorem analyze_codebase_of_another_user {Client Distance : Type}
    (get_or_create_collection : pystr -> Client -> Client * result unit)
    (collection_query : pystr -> Client -> pystr -> Z
                        -> result (QueryResult Distance))
    (format_score : Distance -> pystr) (order : SetOrder)
    (agent_run : Agent -> pystr -> result RunResponse)
    (generate_content_async : pystr -> pystr -> pystr -> result GenerateResponse)
    (_GEMINI_API_KEY : pystr) (request : schemas.CodebaseAnalysisRequest.t)
    (current_user : models.User.t) (s : Server Client) :
  (forall p, p ∈ codebase_projects (database s) ->
             models.CodebaseProject.id p
             = schemas.CodebaseAnalysisRequest.project_id request ->
             models.CodebaseProject.user_id p <> models.User.id current_user) ->
  routers.analyze_codebase get_or_create_collection collection_query
    format_score order agent_run generate_content_async _GEMINI_API_KEY
    request current_user s
  = (s, [], Throw (HTTPException 404 (str "Project not found"))).
Proof.
  intros Hnone. unfold routers.analyze_codebase.
  by rewrite (select_project_none _ _ _ Hnone).
Qed.

Lemma analyze_codebase_of_another_user_witness :
  routers.analyze_codebase names_get_or_create
    (fun _ _ _ _ => Ok ingested_results) str_of_N insertion_order agent_down
    model_up (str "key") (sample_request 2 (Some 5%Z)) ann sample_server
  = (sample_server, [], Throw (HTTPException 404 (str "Project not found"))).
Proof.
  apply analyze_codebase_of_another_user.
  intros p Hp Hid Huser. simpl in Hp.
  apply elem_of_cons in Hp as [-> | Hp]; [discriminate Hid |].
  apply list_elem_of_singleton in Hp as ->. discriminate Huser.
Defined.

Lemma select_conversation_own (conversation_id user_id : Z) (db : Database)
    (c : models.Conversation.t) :
  c ∈ select_conversation conversation_id user_id db ->
  c ∈ conversations db
  /\ models.Conversation.id c = conversation_id
  /\ models.Conversation.user_id c = Some user_id.
Proof.
  unfold select_conversation. rewrite list_elem_of_filter.
  by intros [[Hid Huser] Hin].
Qed.

(** X13. Answering a question never changes the projects or the
    conversations, and it writes messages in one case only: the request
    names a conversation, by a key other than 0, that belongs to the
    caller, and the analysis returned; then the question and the reply are
    appended, in this order, as the "user" and the "assistant" message of
    that conversation.  A conversation of somebody else is never written
    to; and when the request names the one conversation of the caller with
    that key and the route returns, the two messages have been added. *)
Theorem analyze_codebase_saves_to_own_conversation {Client Distance : Type}
    (get_or_create_collection : pystr -> Client -> Client * result unit)
    (collection_query : pystr -> Client -> pystr -> Z
                        -> result (QueryResult Distance))
    (format_score : Distance -> pystr) (order : SetOrder)
    (agent_run : Agent -> pystr -> result RunResponse)
    (generate_content_async : pystr -> pystr -> pystr -> result GenerateResponse)
    (_GEMINI_API_KEY : pystr) (request : schemas.CodebaseAnalysisRequest.t)
    (current_user : models.User.t) (s : Server Client) :
  let answer :=
    routers.analyze_codebase get_or_create_collection collection_query
      format_score order agent_run generate_content_async _GEMINI_API_KEY
      request current_user s in
  let db := database s in
  let db' := database answer.1.1 in
  codebase_projects db' = codebase_projects db
  /\ conversations db' = conversations db
  /\ (messages db' = messages db
      \/ exists id conversation response,
           schemas.CodebaseAnalysisRequest.conversation_id request = Some id
           /\ id <> 0%Z
           /\ conversation ∈ conversations db
           /\ models.Conversation.id conversation = id
           /\ models.Conversation.user_id conversation
              = Some (models.User.id current_user)
           /\ answer.2 = Return response
           /\ messages db'
              = messages db
                ++ [ {| models.ChatMessage.id := next_message_id db;
                        models.ChatMessage.conversation_id := id;
                        models.ChatMessage.role := str "user";
                        models.ChatMessage.content :=
                          schemas.CodebaseAnalysisRequest.question request |};
                     {| models.ChatMessage.id := next_message_id db + 1;
                        models.ChatMessage.conversation_id := id;
                        models.ChatMessage.role := str "assistant";
                        models.ChatMessage.content :=
                          schemas.CodebaseAnalysisResponse.reply response |} ])
  /\ (forall id conversation response,
        schemas.CodebaseAnalysisRequest.conversation_id request = Some id ->
        id <> 0%Z ->
        select_conversation id (models.User.id current_user) db
        = [conversation] ->
        answer.2 = Return response ->
        length (messages db') = S (S (length (messages db)))).
Proof.
  intros answer db db'.
  match goal with
  | |- ?A /\ ?B /\ ?C /\ ?D =>
      assert D as Hsaved;
      [| assert (A /\ B /\ C) as (Hprojects & Hconversations & Hmessages);
         [| done]]
  end.
  - intros id conversation response Hid Hzero Hselect.
    unfold db', answer, routers.analyze_codebase.
    destruct (scalar_one_or_none (select_project _ _ _)) as [[project |] | e];
      [| by intros [=] | by intros [=]].
    destruct (VectorStore_init _ _ _ _) as [w [vector_store | e]];
      [| by intros [=]].
    destruct (CodebaseArchitectAgent_init _) as [agent | e]; [| by intros [=]].
    destruct (analyze _ _ _ _ _ _ _ _) as [events [result | e]];
      [| by intros [=]].
    rewrite Hid. rewrite bool_decide_eq_false_2 by done.
    change (database (routers.with_store s w)) with db. rewrite Hselect.
    intros _. cbn. rewrite !length_app. simpl. lia.
  - clear Hsaved. unfold db', answer, routers.analyze_codebase.
    destruct (scalar_one_or_none (select_project _ _ _)) as [[project |] | e];
      [| by auto | by auto].
    destruct (VectorStore_init _ _ _ _) as [w [vector_store | e]];
      [| by auto].
    destruct (CodebaseArchitectAgent_init _) as [agent | e]; [| by auto].
    destruct (analyze _ _ _ _ _ _ _ _) as [events [result | e]]; [| by auto].
    destruct (schemas.CodebaseAnalysisRequest.conversation_id request)
      as [id |] eqn:Hid; [| by auto].
    case_bool_decide as Hzero; [by auto |].
    destruct (select_conversation id (models.User.id current_user) _)
      as [|conversation [|]] eqn:Hselect; cbn [scalar_one_or_none];
      [by auto | | by auto].
    assert (conversation
            ∈ select_conversation id (models.User.id current_user)
                (database (routers.with_store s w)))
      as Hown by (rewrite Hselect; by left).
    apply select_conversation_own in Hown as (Hin & Hkey & Howner).
    cbn [fst snd database]. split; [done |]. split; [done |]. right.
    eexists id, conversation, _. repeat split; try done.
    unfold routers.save_exchange, add_message. cbn [messages next_message_id].
    by rewrite <- app_assoc.
Qed.

(** Ann asks about her project: naming her own conversation saves the
    exchange, naming Bob's saves nothing, and both are answered. *)
Example analyze_codebase_sample :
  let ask conversation_id :=
    routers.analyze_codebase names_get_or_create
      (fun _ _ _ _ => Ok ingested_results) str_of_N insertion_order agent_down
      model_up (str "key") (sample_request 1 (Some conversation_id)) ann
      sample_server in
  map models.ChatMessage.content (messages (database (ask 4%Z).1.1))
  = [str "what is in it?"; str "Hello!"]
  /\ messages (database (ask 5%Z).1.1) = []
  /\ (ask 5%Z).2
     = Return {| schemas.CodebaseAnalysisResponse.reply := str "Hello!";
                 schemas.CodebaseAnalysisResponse.relevant_files :=
                   [VStr (str "src/app.py")];
                 schemas.CodebaseAnalysisResponse.conversation_id :=
                   Some 5%Z |}.
Proof. vm_compute. by repeat split. Qed.

(** ** The routes that ingest: what they store, and when *)

Lemma first_occurrences_length (l : list pyval) :
  (length (first_occurrences l) <= length l)%nat
  /\ (l <> [] -> 1 <= length (first_occurrences l))%nat.
Proof.
  induction l as [|x l [IH _]]; [by split |]. simpl. split; [| lia].
  pose proof (length_filter (fun y => y <> x) (first_occurrences l)). lia.
Qed.

Lemma file_paths_total (metadatas : list Metadata) :
  Forall (fun m => is_Some (m !! "file_path"%string)) metadatas ->
  exists paths,
    file_paths metadatas = Return paths /\ length paths = length metadatas.
Proof.
  induction 1 as [|m ms [v Hv] _ (paths & IH & Hlen)]; [by exists [] |].
  exists (v :: paths). simpl. rewrite Hv, IH. split; [done |].
  by rewrite Hlen.
Qed.

(** A run of the ingestion gives as many metadata records as chunks, and
    each record has a file path. *)
Lemma process_codebase_shape (lower : pystr -> pystr) (fs : FileSystem)
    (self : CodebaseIngestion) (root_path : Path)
    (chunks : list pystr) (metadatas : list Metadata) (ids : list pystr) :
  process_codebase lower fs self root_path = Ok (chunks, metadatas, ids) ->
  length metadatas = length chunks
  /\ Forall (fun m => is_Some (m !! "file_path"%string)) metadatas.
Proof.
  intros (-> & -> & _)%process_codebase_records. split.
  - by rewrite !length_fmap.
  - apply Forall_forall. intros m Hm.
    apply list_elem_of_fmap in Hm as ([chunk m'] & -> & Hin).
    unfold records in Hin. apply list_elem_of_In, in_concat in Hin
      as (recs & Hrecs & Hin).
    apply in_map_iff in Hrecs as (p & <- & _).
    apply list_elem_of_In, records_of_file_path in Hin as [Hpath _].
    simpl. by rewrite Hpath.
Qed.

Lemma ingest_from_zip_shape (lower : pystr -> pystr) (self : CodebaseIngestion)
    (extractall : Path -> Path -> result Extracted) (temp_dir zip_path : Path)
    (chunks : list pystr) (metadatas : list Metadata) (ids : list pystr) :
  ingest_from_zip lower self extractall temp_dir zip_path
  = Ok (chunks, metadatas, ids) ->
  length metadatas = length chunks
  /\ Forall (fun m => is_Some (m !! "file_path"%string)) metadatas.
Proof.
  unfold ingest_from_zip.
  destruct (extract_zip _ _ _) as [[ex root_path] | e]; [| discriminate].
  apply process_codebase_shape.
Qed.

Lemma ingest_from_github_shape (lower : pystr -> pystr)
    (self : CodebaseIngestion)
    (clone_from : pystr -> Path -> result FileSystem) (temp_dir : Path)
    (repo_url : pystr)
    (chunks : list pystr) (metadatas : list Metadata) (ids : list pystr) :
  ingest_from_github lower self clone_from temp_dir repo_url
  = Ok (chunks, metadatas, ids) ->
  length metadatas = length chunks
  /\ Forall (fun m => is_Some (m !! "file_path"%string)) metadatas.
Proof.
  unfold ingest_from_github.
  destruct (clone_github_repo _ _ _) as [[fs root_path] | e]; [| discriminate].
  apply process_codebase_shape.
Qed.

Section IngestingRoutes.
Context {Client : Type}.
Variable lower : pystr -> pystr.
Variable unicode_isalnum : N -> bool.
Variable encode : pystr -> pybytes.
Variable md5 : pybytes -> N.
Variable now : Z.
Variable get_or_create_collection : pystr -> Client -> Client * result unit.
Variable collection_add :
  pystr -> list pystr -> list Metadata -> list pystr -> Client
  -> Client * result unit.

(** The common part of the two routes: it leaves the files, the
    conversations and the messages alone; it writes to the database only
    when it returns, and then after the collection was opened and filled. *)
Lemma record_codebase_cases
    (ingested : result (list pystr * list Metadata * list pystr))
    (nothing_found source_type : pystr) (source_url : option pystr)
    (processed name : pystr) (description : option pystr)
    (current_user : models.User.t) (s : Server Client) :
  let answer :=
    routers.record_codebase lower unicode_isalnum encode md5 now
      get_or_create_collection collection_add ingested nothing_found
      source_type source_url processed name description current_user s in
  let collection :=
    create_collection_name lower unicode_isalnum encode md5 now
      (models.User.id current_user) name in
  files answer.1 = files s
  /\ conversations (database answer.1) = conversations (database s)
  /\ messages (database answer.1) = messages (database s)
  /\ match answer.2 with
     | Throw e => database answer.1 = database s
     | Return response =>
         exists chunks metadatas ids paths c,
           ingested = Ok (chunks, metadatas, ids)
           /\ chunks <> []
           /\ file_paths metadatas = Return paths
           /\ get_or_create_collection collection (chroma_client (store s))
              = (c, Ok tt)
           /\ collection_add collection chunks metadatas ids c
              = (chroma_client (store answer.1), Ok tt)
           /\ codebase_projects (database answer.1)
              = codebase_projects (database s)
                ++ [stored (models.User.id current_user) name description
                      source_type source_url collection
                      (Z.of_nat (length (first_occurrences paths)))
                      (Z.of_nat (length chunks))
                      (next_project_id (database s))]
           /\ response
              = {| schemas.CodebaseUploadResponse.project_id :=
                     next_project_id (database s);
                   schemas.CodebaseUploadResponse.name := name;
                   schemas.CodebaseUploadResponse.file_count :=
                     Z.of_nat (length (first_occurrences paths));
                   schemas.CodebaseUploadResponse.total_chunks :=
                     Z.of_nat (length chunks);
                   schemas.CodebaseUploadResponse.message :=
                     processed
                     ++ str_of_Z (Z.of_nat (length (first_occurrences paths)))
                     ++ str " files into "
                     ++ str_of_Z (Z.of_nat (length chunks))
                     ++ str " chunks" |}
     end.
Proof.
  intros answer collection. unfold answer, routers.record_codebase.
  fold collection.
  destruct ingested as [[[chunks metadatas] ids] | e]; [| done].
  case_bool_decide as Hchunks; [done |].
  unfold VectorStore_init, add_documents.
  destruct (get_or_create_collection collection _) as [c [[] | e]] eqn:Hopen;
    [| done].
  cbn [collection_name chroma_client stdout].
  destruct (collection_add collection chunks metadatas ids c)
    as [c' [[] | e]] eqn:Hadd; [| done].
  destruct (file_paths metadatas) as [paths | e] eqn:Hpaths; [| done].
  cbn [fst snd add_project database store files chroma_client
       conversations messages codebase_projects].
  split; [done |]. split; [done |]. split; [done |].
  rewrite fold_set_add_empty.
  by exists chunks, metadatas, ids, paths, c.
Qed.
End IngestingRoutes.

(** X14. An upload whose name does not end in ".zip" is answered 400
    before anything is touched.  Otherwise a temporary file is created and
    the upload is read and written to it.  Once both have succeeded, that
    file is gone when the route ends, whatever the outcome (a response, an
    HTTP error or any exception), and no other file is touched.  When
    reading the upload or writing the temporary file raises, that exception
    leaves the route and the temporary file is left behind. *)
Theorem upload_codebase_removes_temp_file {Client : Type}
    (lower : pystr -> pystr) (unicode_isalnum : N -> bool)
    (encode : pystr -> pybytes) (md5 : pybytes -> N) (now : Z)
    (unzip : pybytes -> Path -> result Extracted) (temp_dir temp_path : Path)
    (temp_write : Path -> pybytes -> result unit)
    (get_or_create_collection : pystr -> Client -> Client * result unit)
    (collection_add :
       pystr -> list pystr -> list Metadata -> list pystr -> Client
       -> Client * result unit)
    (file : UploadFile) (name : pystr) (description : option pystr)
    (current_user : models.User.t) (s : Server Client) :
  let answer :=
    routers.upload_codebase lower unicode_isalnum encode md5 now unzip
      temp_dir temp_path temp_write get_or_create_collection collection_add
      file name description current_user s in
  (endswith (filename file) (str ".zip") = false ->
   answer = (s, Throw (HTTPException 400 (str "Only ZIP files are supported"))))
  /\ (endswith (filename file) (str ".zip") = true ->
      (forall content,
         read file = Ok content -> temp_write temp_path content = Ok tt ->
         files answer.1 = files s ∖ {[temp_path]})
      /\ (forall e, read file = Raise e ->
            answer
            = (routers.with_files s ({[temp_path]} ∪ files s),
               Throw (Uncaught e)))
      /\ (forall content e,
            read file = Ok content -> temp_write temp_path content = Raise e ->
            answer
            = (routers.with_files s ({[temp_path]} ∪ files s),
               Throw (Uncaught e)))).
Proof.
  intros answer. unfold answer, routers.upload_codebase. split.
  - by intros ->.
  - intros ->. cbn [negb]. split; [| split].
    + intros content -> ->.
      match goal with
      | |- context [routers.record_codebase ?l ?u ?en ?m ?n ?g ?c ?i ?nf ?st
                      ?su ?pr ?na ?de ?cu ?s0] =>
          pose proof (record_codebase_cases l u en m n g c i nf st su pr na
                        de cu s0) as (Hfiles & _);
          destruct (routers.record_codebase l u en m n g c i nf st su pr na
                      de cu s0) as [s' r]
      end.
      cbn [fst snd routers.with_files files] in *. rewrite Hfiles.
      apply set_eq. intros p.
      rewrite !elem_of_difference, elem_of_union, elem_of_singleton. tauto.
    + by intros e ->.
    + by intros content e -> ->.
Qed.

(** X15. The upload route writes to the database only when it answers
    normally, and then exactly one row: the new project, appended with the
    next key, owned by the caller, of source type "upload" and without
    source URL, naming the collection that was opened and filled before;
    the response carries the key and the counts of that row, with at least
    one file and at most as many files as chunks.  When the route raises,
    the database is as before, and what it raises is never a [KeyError]:
    every record of the ingestion has its file path. *)
Theorem upload_codebase_records_project {Client : Type}
    (lower : pystr -> pystr) (unicode_isalnum : N -> bool)
    (encode : pystr -> pybytes) (md5 : pybytes -> N) (now : Z)
    (unzip : pybytes -> Path -> result Extracted) (temp_dir temp_path : Path)
    (temp_write : Path -> pybytes -> result unit)
    (get_or_create_collection : pystr -> Client -> Client * result unit)
    (collection_add :
       pystr -> list pystr -> list Metadata -> list pystr -> Client
       -> Client * result unit)
    (file : UploadFile) (name : pystr) (description : option pystr)
    (current_user : models.User.t) (s : Server Client) :
  let answer :=
    routers.upload_codebase lower unicode_isalnum encode md5 now unzip
      temp_dir temp_path temp_write get_or_create_collection collection_add
      file name description current_user s in
  let collection :=
    create_collection_name lower unicode_isalnum encode md5 now
      (models.User.id current_user) name in
  match answer.2 with
  | Return response =>
      let file_count := schemas.CodebaseUploadResponse.file_count response in
      let total_chunks :=
        schemas.CodebaseUploadResponse.total_chunks response in
      codebase_projects (database answer.1)
      = codebase_projects (database s)
        ++ [stored (models.User.id current_user) name description
              (str "upload") None collection file_count total_chunks
              (next_project_id (database s))]
      /\ schemas.CodebaseUploadResponse.project_id response
         = next_project_id (database s)
      /\ schemas.CodebaseUploadResponse.name response = name
      /\ (1 <= file_count <= total_chunks)%Z
      /\ schemas.CodebaseUploadResponse.message response
         = str "Successfully processed " ++ str_of_Z file_count
           ++ str " files into " ++ str_of_Z total_chunks ++ str " chunks"
      /\ exists c u,
           get_or_create_collection collection (chroma_client (store s))
           = (c, Ok u)
  | Throw e =>
      database answer.1 = database s /\ e <> KeyError "file_path"
  end
  /\ conversations (database answer.1) = conversations (database s)
  /\ messages (database answer.1) = messages (database s).
Proof.
  intros answer collection. unfold answer, routers.upload_codebase.
  destruct (endswith _ _); cbn [negb]; [| done].
  destruct (read file) as [content | e]; [| done].
  destruct (temp_write temp_path content) as [[] | e]; [| done].
  match goal with
  | |- context [routers.record_codebase ?l ?u ?en ?m ?n ?g ?c ?i ?nf ?st
                  ?su ?pr ?na ?de ?cu ?s0] =>
      pose proof (record_codebase_cases l u en m n g c i nf st su pr na
                    de cu s0) as (_ & Hconversations & Hmessages & Hcases);
      pose proof (eq_refl (routers.record_codebase l u en m n g c i nf st su
                             pr na de cu s0)) as Hrun;
      unfold routers.record_codebase at 2 in Hrun;
      destruct (routers.record_codebase l u en m n g c i nf st su pr na
                  de cu s0) as [s' r]
  end.
  cbn [fst snd routers.with_files database files store chroma_client] in *.
  split; [| done]. fold collection in Hcases.
  destruct r as [response | e].
  - destruct Hcases as (chunks & metadatas & ids & paths & c & Hingested
                        & Hchunks & Hpaths & Hopen & _ & Hrows & ->).
    cbn. split; [exact Hrows |]. split; [done |]. split; [done |].
    split; [| split; [done | by exists c, tt]].
    apply ingest_from_zip_shape in Hingested as [Hlen Hkeys].
    destruct (file_paths_total _ Hkeys) as (paths' & Hpaths' & Hlen').
    rewrite Hpaths in Hpaths'. injection Hpaths' as <-.
    destruct (first_occurrences_length paths) as [Hle Hone].
    assert (paths <> []) as Hne.
    { intros ->. destruct chunks; [done |]. simpl in *. lia. }
    specialize (Hone Hne). lia.
  - split; [exact Hcases |]. intros ->. clear Hcases.
    destruct (ingest_from_zip _ _ _ _ _) as [[[chunks metadatas] ids] | e]
      eqn:Hingested; [| by injection Hrun].
    case_bool_decide; [by injection Hrun |].
    destruct (VectorStore_init _ _ _ _) as [w [vector_store | e]];
      [| by injection Hrun].
    destruct (add_documents _ _ _ _ _ _ _) as [w' [[] | e]];
      [| by injection Hrun].
    apply ingest_from_zip_shape in Hingested as [_ Hkeys].
    destruct (file_paths_total _ Hkeys) as (paths & Hpaths & _).
    rewrite Hpaths in Hrun. by injection Hrun.
Qed.

(** X16. The clone route answers 400 with the text of the error whenever a
    [ValueError] is raised on the way: a clone that fails is answered 400
    "Failed to clone repository: ..." with nothing stored, so is a
    [ValueError] of the storage client, and no [ValueError] ever leaves the
    route.  It writes to the database only when it answers normally, and
    then the one new row has source type "github" and the URL of the
    repository. *)
Theorem clone_github_repo_answers_400 {Client : Type}
    (lower : pystr -> pystr) (unicode_isalnum : N -> bool)
    (encode : pystr -> pybytes) (md5 : pybytes -> N) (now : Z)
    (clone_from : pystr -> Path -> result FileSystem) (temp_dir : Path)
    (get_or_create_collection : pystr -> Client -> Client * result unit)
    (collection_add :
       pystr -> list pystr -> list Metadata -> list pystr -> Client
       -> Client * result unit)
    (repo_url name : pystr) (description : option pystr)
    (current_user : models.User.t) (s : Server Client) :
  let answer :=
    routers.clone_github_repo lower unicode_isalnum encode md5 now clone_from
      temp_dir get_or_create_collection collection_add repo_url name
      description current_user s in
  let collection :=
    create_collection_name lower unicode_isalnum encode md5 now
      (models.User.id current_user) name in
  (forall e, clone_from repo_url (joinpath temp_dir (str "repo")) = Raise e ->
     answer
     = (s, Throw (HTTPException 400
                    (str "Failed to clone repository: " ++ exn_str e))))
  /\ (forall e, answer.2 = Throw (Uncaught e) -> catches [ValueError] e = false)
  /\ (forall chunks metadatas ids c e,
        ingest_from_github lower CodebaseIngestion_init clone_from temp_dir
          repo_url
        = Ok (chunks, metadatas, ids) ->
        chunks <> [] ->
        get_or_create_collection collection (chroma_client (store s))
        = (c, Raise e) ->
        catches [ValueError] e = true ->
        answer.2 = Throw (HTTPException 400 (exn_str e)))
  /\ match answer.2 with
     | Return response =>
         codebase_projects (database answer.1)
         = codebase_projects (database s)
           ++ [stored (models.User.id current_user) name description
                 (str "github") (Some repo_url) collection
                 (schemas.CodebaseUploadResponse.file_count response)
                 (schemas.CodebaseUploadResponse.total_chunks response)
                 (schemas.CodebaseUploadResponse.project_id response)]
     | Throw e => database answer.1 = database s
     end.
Proof.
  intros answer collection. split; [| split; [| split]].
  - intros e Hclone. unfold answer, routers.clone_github_repo,
      routers.record_codebase, ingest_from_github, clone_github_repo.
    rewrite Hclone, catches_Exception. reflexivity.
  - intros e. unfold answer, routers.clone_github_repo.
    destruct (routers.record_codebase _ _ _ _ _ _ _ _ _ _ _ _ _ _ _ _)
      as [s' [response | [| | | e']]]; try discriminate.
    destruct (catches [ValueError] e') eqn:Hcatch; [discriminate |].
    by intros [= <-].
  - intros chunks metadatas ids c e Hingested Hchunks Hopen Hcatch.
    unfold answer, routers.clone_github_repo, routers.record_codebase.
    rewrite Hingested. rewrite bool_decide_eq_false_2 by done.
    fold collection. unfold VectorStore_init. rewrite Hopen.
    cbn [fst snd]. by rewrite Hcatch.
  - unfold answer, routers.clone_github_repo.
    match goal with
    | |- context [routers.record_codebase ?l ?u ?en ?m ?n ?g ?c ?i ?nf ?st
                    ?su ?pr ?na ?de ?cu ?s0] =>
        pose proof (record_codebase_cases l u en m n g c i nf st su pr na
                      de cu s0) as (_ & _ & _ & Hcases);
        destruct (routers.record_codebase l u en m n g c i nf st su pr na
                    de cu s0) as [s' r]
    end.
    cbn [fst snd] in Hcases. fold collection in Hcases.
    destruct r as [response | [| | | e]]; cbn [fst snd]; try done.
    + destruct Hcases as (chunks & metadatas & ids & paths & c & _ & _ & _
                          & _ & _ & Hrows & ->). exact Hrows.
    + by destruct (catches [ValueError] e).
Qed.

Lemma clone_github_repo_answers_400_witness :
  routers.clone_github_repo ascii_lower latin_1_isalnum ascii_encode
    sum_digest 1700000000 broken_clone sample_temp names_get_or_create
    names_add (str "https://example.org/gone") (str "gone") None ann
    sample_server
  = (sample_server,
     Throw (HTTPException 400
              (str "Failed to clone repository: repository not found"))).
Proof.
  exact (proj1 (clone_github_repo_answers_400 ascii_lower latin_1_isalnum
                  ascii_encode sum_digest 1700000000 broken_clone sample_temp
                  names_get_or_create names_add
                  (str "https://example.org/gone") (str "gone") None ann
                  sample_server) _ eq_refl).
Defined.

(** The sample archive, uploaded by Ann: one file, one chunk, project 3,
    and no temporary file left. *)
Example upload_codebase_sample :
  let answer :=
    routers.upload_codebase ascii_lower latin_1_isalnum ascii_encode
      sum_digest 1700000000 (fun _ _ => Ok sample_extracted) sample_temp
      sample_zip write_ok names_get_or_create names_add sample_upload
      (str "My Shop") None ann sample_server in
  answer.2
  = Return {| schemas.CodebaseUploadResponse.project_id := 3;
              schemas.CodebaseUploadResponse.name := str "My Shop";
              schemas.CodebaseUploadResponse.file_count := 1;
              schemas.CodebaseUploadResponse.total_chunks := 1;
              schemas.CodebaseUploadResponse.message :=
                str "Successfully processed 1 files into 1 chunks" |}
  /\ elements (files answer.1) = []
  /\ length (codebase_projects (database answer.1)) = 3%nat.
Proof. vm_compute. by repeat split. Qed.

(** The same upload on a full disk: the write raises, the error leaves
    the route, and the temporary file stays. *)
Example upload_codebase_full_disk :
  let answer :=
    routers.upload_codebase ascii_lower latin_1_isalnum ascii_encode
      sum_digest 1700000000 (fun _ _ => Ok sample_extracted) sample_temp
      sample_zip write_full names_get_or_create names_add sample_upload
      (str "My Shop") None ann sample_server in
  answer.2
  = Throw (Uncaught (Exn OSError (str "[Errno 28] No space left on device")))
  /\ elements (files answer.1) = [sample_zip]
  /\ database answer.1 = database sample_server.
Proof. vm_compute. by repeat split. Qed.

(** X17. An archive whose only top-level entry is a directory with one of
    the ignored names (dist, build, vendor, bin, ...) is answered 400 "No
    processable code files found in the ZIP": the unwrapped root carries
    the ignored name, so every file below it is skipped.  Nothing is
    stored, no collection is opened, and the temporary file, to which the
    upload was written, is removed. *)
Theorem upload_codebase_wrapped_in_ignored_directory {Client : Type}
    (lower : pystr -> pystr) (unicode_isalnum : N -> bool)
    (encode : pystr -> pybytes) (md5 : pybytes -> N) (now : Z)
    (unzip : pybytes -> Path -> result Extracted) (temp_dir temp_path : Path)
    (temp_write : Path -> pybytes -> result unit)
    (get_or_create_collection : pystr -> Client -> Client * result unit)
    (collection_add :
       pystr -> list pystr -> list Metadata -> list pystr -> Client
       -> Client * result unit)
    (file : UploadFile) (name : pystr) (description : option pystr)
    (current_user : models.User.t) (s : Server Client)
    (content : pybytes) (ex : Extracted) (d : pystr) :
  endswith (filename file) (str ".zip") = true ->
  read file = Ok content ->
  temp_write temp_path content = Ok tt ->
  unzip content temp_dir = Ok ex ->
  listdir ex temp_dir = [d] ->
  is_dir ex (joinpath temp_dir d) = true ->
  d ∈ IGNORE_DIRS ->
  (forall p, p ∈ rglob (tree ex) (joinpath temp_dir d) ->
             below (joinpath temp_dir d) p) ->
  routers.upload_codebase lower unicode_isalnum encode md5 now unzip
    temp_dir temp_path temp_write get_or_create_collection collection_add
    file name description current_user s
  = (routers.with_files s (files s ∖ {[temp_path]}),
     Throw (HTTPException 400
              (str "No processable code files found in the ZIP"))).
Proof.
  intros Hzip Hread Hwrite Hunzip Hlist Hdir Hign Hwalk.
  assert (forall p, p ∈ rglob (tree ex) (joinpath temp_dir d) ->
            should_process_file lower (tree ex) p = Ok false) as Hskip.
  { intros p Hp.
    apply (should_process_file_ignored_dir lower (tree ex) p d);
      [| exact Hign].
    apply (ancestor_dirs_below (joinpath temp_dir d)); [by apply Hwalk |].
    simpl. apply elem_of_app. right. by left. }
  assert (process_codebase lower (tree ex) CodebaseIngestion_init
            (joinpath temp_dir d) = Ok ([], [], [])) as Hrun.
  { rewrite process_codebase_returns.
    - unfold records. rewrite ingested_files_none; [reflexivity |].
      intros p Hp. unfold eligible. by rewrite (Hskip p Hp), andb_false_r.
    - intros p e Hp _ Hok. rewrite (Hskip p Hp) in Hok. discriminate. }
  unfold routers.upload_codebase. rewrite Hzip, Hread, Hwrite. cbn [negb].
  unfold routers.record_codebase, ingest_from_zip, extract_zip.
  rewrite Hunzip. cbn [mbind result_bind]. unfold iterdir. rewrite Hlist.
  cbn [map]. rewrite Hdir. cbn [mbind result_bind]. rewrite Hrun.
  rewrite bool_decide_eq_true_2 by done.
  unfold routers.with_files. cbn [database store files]. f_equal. f_equal.
  apply set_eq. intros p.
  rewrite !elem_of_difference, elem_of_union, elem_of_singleton. tauto.
Qed.

Lemma upload_codebase_wrapped_in_ignored_directory_witness :
  routers.upload_codebase ascii_lower latin_1_isalnum ascii_encode sum_digest
    1700000000 (fun _ _ => Ok wrapped_extracted) sample_temp sample_zip
    write_ok names_get_or_create names_add sample_upload (str "My Shop") None
    ann sample_server
  = (routers.with_files sample_server (files sample_server ∖ {[sample_zip]}),
     Throw (HTTPException 400
              (str "No processable code files found in the ZIP"))).
Proof.
  apply (upload_codebase_wrapped_in_ignored_directory ascii_lower
           latin_1_isalnum ascii_encode sum_digest 1700000000
           (fun _ _ => Ok wrapped_extracted) sample_temp sample_zip write_ok
           names_get_or_create names_add sample_upload (str "My Shop") None
           ann sample_server (bytes_of "PK") wrapped_extracted (str "dist")).
  - reflexivity.
  - reflexivity.
  - reflexivity.
  - reflexivity.
  - reflexivity.
  - reflexivity.
  - apply (bool_decide_unpack _). vm_compute. exact I.
  - intros p Hp. apply list_elem_of_singleton in Hp as ->.
    split; [reflexivity |]. exists [str "main.py"]. split; [discriminate |].
    reflexivity.
Defined.

(** ** The address of the storage server *)

Lemma is_prefix_elem (sep text : pystr) (c : N) :
  is_prefix sep text = true -> c ∈ sep -> c ∈ text.
Proof.
  revert text. induction sep as [|a sep IH]; intros text Hpre Hc;
    [by inversion Hc |].
  destruct text as [|b text]; [discriminate |]. simpl in Hpre.
  apply andb_true_iff in Hpre as [Hab Hrest]. apply N.eqb_eq in Hab as ->.
  apply elem_of_cons in Hc as [-> | Hc]; [by left | right; by apply IH].
Qed.

(** A text that lacks a character of the separator is one piece. *)
Lemma pieces_aux_absent (sep text : pystr) (d : N) :
  d ∈ sep -> d ∉ text ->
  forall cur, pieces_aux sep 0 cur text = [cur ++ text].
Proof.
  intros Hd. induction text as [|c text IH]; intros Habsent cur.
  - by rewrite app_nil_r.
  - cbn [pieces_aux].
    destruct (is_prefix sep (c :: text)) eqn:Hpre.
    + destruct Habsent. by apply (is_prefix_elem sep).
    + rewrite IH by (intros H; apply Habsent; by right).
      by rewrite <- app_assoc.
Qed.

Lemma pieces_aux_skip (sep skipped text cur : pystr) :
  pieces_aux sep (length skipped) cur (skipped ++ text)
  = pieces_aux sep 0 cur text.
Proof. induction skipped as [|c skipped IH]; [done | exact IH]. Qed.

(** Up to the first occurrence of a one-character separator. *)
Lemma pieces_aux_char (c : N) (before after : pystr) :
  c ∉ before ->
  forall cur,
    pieces_aux [c] 0 cur (before ++ c :: after)
    = (cur ++ before) :: pieces_aux [c] 0 [] after.
Proof.
  induction before as [|b before IH]; intros Habsent cur.
  - cbn [app pieces_aux is_prefix]. rewrite N.eqb_refl. cbn [andb length].
    by rewrite app_nil_r.
  - cbn [app pieces_aux is_prefix].
    assert (b <> c) as Hbc by (intros ->; apply Habsent; by left).
    apply N.eqb_neq in Hbc. rewrite N.eqb_sym in Hbc. rewrite Hbc.
    cbn [andb]. rewrite IH by (intros H; apply Habsent; by right).
    by rewrite <- app_assoc.
Qed.

Lemma contains_char (c : N) (text : pystr) :
  contains [c] text = bool_decide (c ∈ text).
Proof.
  induction text as [|b text IH]; [done |]. cbn [contains is_prefix].
  rewrite IH. destruct (N.eqb_spec c b) as [-> | Hne]; cbn [andb orb].
  - by rewrite bool_decide_eq_true_2 by (by left).
  - apply bool_decide_ext. rewrite elem_of_cons.
    split; [intros H; by right | intros [H | H]; [done | exact H]].
Qed.

(** [host:port] and [host] alone, without a scheme. *)
Lemma split_colon_address (host port : pystr) :
  58 ∉ host -> 58 ∉ port ->
  split (str ":") (host ++ 58 :: port) = [host; port].
Proof.
  intros Hhost Hport. unfold split, pieces.
  change (str ":") with [58]. rewrite pieces_aux_char by done.
  by rewrite (pieces_aux_absent [58] port 58) by (done || by left).
Qed.

Lemma replace_absent (old new text : pystr) (d : N) :
  d ∈ old -> d ∉ text -> replace old new text = text.
Proof.
  intros Hd Habsent. unfold replace, split, pieces.
  by rewrite (pieces_aux_absent old text d).
Qed.

Lemma is_prefix_self (sep text : pystr) : is_prefix sep (sep ++ text) = true.
Proof.
  induction sep as [|c sep IH]; [done |]. simpl. by rewrite N.eqb_refl, IH.
Qed.

(** A separator at the front ends the current piece. *)
Lemma pieces_aux_match (c : N) (sep text cur : pystr) :
  pieces_aux (c :: sep) 0 cur ((c :: sep) ++ text)
  = cur :: pieces_aux (c :: sep) 0 [] text.
Proof.
  change ((c :: sep) ++ text) with (c :: (sep ++ text)).
  cbn [pieces_aux].
  change (c :: (sep ++ text)) with ((c :: sep) ++ text).
  rewrite is_prefix_self. f_equal.
  replace (length (c :: sep) - 1)%nat with (length sep) by (simpl; lia).
  apply pieces_aux_skip.
Qed.

(** A character that does not start the separator joins the piece. *)
Lemma pieces_aux_step (sep text cur : pystr) (c : N) :
  is_prefix sep (c :: text) = false ->
  pieces_aux sep 0 cur (c :: text) = pieces_aux sep 0 (cur ++ [c]) text.
Proof. intros Hpre. cbn [pieces_aux]. by rewrite Hpre. Qed.

Lemma elem_of_47_http : 47 ∈ str "http://" /\ 47 ∈ str "https://"
  /\ 47 ∈ str "//".
Proof.
  split; [| split]; apply (bool_decide_unpack _); reflexivity.
Qed.

Ltac piece_steps := repeat (rewrite pieces_aux_step by reflexivity).

Section Address.
Variable rest : pystr.
Hypothesis no_slash : 47 ∉ rest.

Lemma replace_schemes (scheme : pystr) :
  scheme ∈ [[]; str "http://"; str "https://"] ->
  replace (str "https://") [] (replace (str "http://") [] (scheme ++ rest))
  = rest.
Proof.
  destruct elem_of_47_http as (Hhttp & Hhttps & _).
  intros Hscheme.
  apply elem_of_cons in Hscheme as [-> | Hscheme];
    [| apply elem_of_cons in Hscheme as [-> | Hscheme];
       [| apply list_elem_of_singleton in Hscheme as ->]].
  - cbn [app]. rewrite (replace_absent _ _ rest 47) by done.
    by rewrite (replace_absent _ _ rest 47).
  - assert (replace (str "http://") [] (str "http://" ++ rest) = rest) as ->.
    { unfold replace, split, pieces.
      change (str "http://") with (104 :: str "ttp://").
      rewrite pieces_aux_match.
      by rewrite (pieces_aux_absent _ rest 47) by (done || by right). }
    by rewrite (replace_absent _ _ rest 47).
  - assert (replace (str "http://") [] (str "https://" ++ rest)
            = str "https://" ++ rest) as ->.
    { unfold replace, split, pieces.
      change (str "https://" ++ rest)
        with (104 :: 116 :: 116 :: 112 :: 115 :: 58 :: 47 :: 47 :: rest).
      change (str "http://") with [104; 116; 116; 112; 58; 47; 47].
      piece_steps.
      by rewrite (pieces_aux_absent _ rest 47)
        by (done || (apply (bool_decide_unpack _); reflexivity)). }
    unfold replace, split, pieces.
    change (str "https://") with (104 :: str "ttps://").
    rewrite pieces_aux_match.
    by rewrite (pieces_aux_absent _ rest 47) by (done || by right).
Qed.

Lemma split_slashes (scheme : pystr) :
  scheme ∈ [[]; str "http://"; str "https://"] ->
  index_last (split (str "//") (scheme ++ rest)) = Ok rest.
Proof.
  intros Hscheme. unfold split, pieces.
  assert (pieces_aux (str "//") 0 [] rest = [rest]) as Hrest
    by (by rewrite (pieces_aux_absent _ rest 47) by (done || by left)).
  apply elem_of_cons in Hscheme as [-> | Hscheme];
    [| apply elem_of_cons in Hscheme as [-> | Hscheme];
       [| apply list_elem_of_singleton in Hscheme as ->]].
  - cbn [app]. by rewrite Hrest.
  - change (str "http://" ++ rest)
      with (104 :: 116 :: 116 :: 112 :: 58 :: ([47; 47] ++ rest)).
    change (str "//") with [47; 47]. piece_steps.
    rewrite pieces_aux_match. change [47; 47] with (str "//").
    by rewrite Hrest.
  - change (str "https://" ++ rest)
      with (104 :: 116 :: 116 :: 112 :: 115 :: 58 :: ([47; 47] ++ rest)).
    change (str "//") with [47; 47]. piece_steps.
    rewrite pieces_aux_match. change [47; 47] with (str "//").
    by rewrite Hrest.
Qed.
End Address.

Lemma split_colon_last (scheme host port : pystr) :
  scheme ∈ [[]; str "http://"; str "https://"] ->
  58 ∉ host -> 58 ∉ port ->
  index_last (split (str ":") (scheme ++ host ++ 58 :: port)) = Ok port.
Proof.
  intros Hscheme Hhost Hport.
  assert (forall before, 58 ∉ before ->
            index_last (pieces_aux [58] 0 [] (before ++ 58 :: port)) = Ok port)
    as Hlast.
  { intros before Hbefore. rewrite pieces_aux_char by done.
    by rewrite (pieces_aux_absent [58] port 58) by (done || by left). }
  unfold split, pieces. change (str ":") with [58].
  apply elem_of_cons in Hscheme as [-> | Hscheme];
    [| apply elem_of_cons in Hscheme as [-> | Hscheme];
       [| apply list_elem_of_singleton in Hscheme as ->]].
  - by apply Hlast.
  - change (str "http://" ++ host ++ 58 :: port)
      with (str "http" ++ 58 :: (str "//" ++ host) ++ 58 :: port).
    rewrite pieces_aux_char by (apply (bool_decide_unpack _); reflexivity).
    unfold index_last. rewrite last_cons.
    specialize (Hlast (str "//" ++ host)). unfold index_last in Hlast.
    destruct (last (pieces_aux [58] 0 [] ((str "//" ++ host) ++ 58 :: port)))
      as [x |] eqn:Hx.
    + apply Hlast. intros [H | H]%elem_of_app; [| done].
      revert H. apply (bool_decide_unpack _). reflexivity.
    + apply last_None in Hx. by apply pieces_aux_nonempty in Hx.
  - change (str "https://" ++ host ++ 58 :: port)
      with (str "https" ++ 58 :: (str "//" ++ host) ++ 58 :: port).
    rewrite pieces_aux_char by (apply (bool_decide_unpack _); reflexivity).
    unfold index_last. rewrite last_cons.
    specialize (Hlast (str "//" ++ host)). unfold index_last in Hlast.
    destruct (last (pieces_aux [58] 0 [] ((str "//" ++ host) ++ 58 :: port)))
      as [x |] eqn:Hx.
    + apply Hlast. intros [H | H]%elem_of_app; [| done].
      revert H. apply (bool_decide_unpack _). reflexivity.
    + apply last_None in Hx. by apply pieces_aux_nonempty in Hx.
Qed.

(** X18. For a [CHROMA_HOST] made of an optional "http://" or "https://",
    a host name and an optional ":port", where neither the host nor the
    port contains a colon or a slash: the client is given exactly the host
    name, and as port the value of [int] on the port text, or 8000 when
    there is no port. *)
Theorem http_client_address (int : pystr -> result Z)
    (scheme host : pystr) :
  scheme ∈ [[]; str "http://"; str "https://"] ->
  58 ∉ host -> 47 ∉ host ->
  (http_host (scheme ++ host) = Ok host
   /\ http_port int (scheme ++ host) = Ok 8000%Z)
  /\ forall port, 58 ∉ port -> 47 ∉ port ->
       http_host (scheme ++ host ++ 58 :: port) = Ok host
       /\ http_port int (scheme ++ host ++ 58 :: port) = int port.
Proof.
  intros Hscheme Hcolon Hslash. split.
  - unfold http_host, http_port.
    rewrite (replace_schemes host Hslash scheme Hscheme).
    rewrite (split_slashes host Hslash scheme Hscheme).
    cbn [mbind result_bind]. change (str ":") with [58].
    rewrite contains_char, bool_decide_eq_false_2 by done.
    split; [| done]. unfold split, pieces.
    by rewrite (pieces_aux_absent [58] host 58) by (done || by left).
  - intros port Hport Hport_slash.
    assert (47 ∉ host ++ 58 :: port) as Hrest.
    { intros [H | H]%elem_of_app; [done |].
      apply elem_of_cons in H as [H | H]; [discriminate | done]. }
    unfold http_host, http_port.
    rewrite (replace_schemes _ Hrest scheme Hscheme).
    rewrite (split_slashes _ Hrest scheme Hscheme).
    cbn [mbind result_bind].
    rewrite (split_colon_last scheme host port Hscheme Hcolon Hport).
    cbn [mbind result_bind]. change (str ":") with [58].
    rewrite contains_char, bool_decide_eq_true_2
      by (apply elem_of_app; right; by left).
    split; [| done].
    change [58] with (str ":"). by rewrite split_colon_address.
Qed.

Lemma http_client_address_witness :
  http_host (str "http://localhost:8000") = Ok (str "localhost")
  /\ http_port ascii_int (str "http://localhost:8000") = Ok 8000%Z.
Proof.
  assert (str "http://" ∈ [[]; str "http://"; str "https://"]) as Hscheme
    by (right; left).
  assert (58 ∉ str "localhost") as Hcolon
    by (apply (bool_decide_unpack _); reflexivity).
  assert (47 ∉ str "localhost") as Hslash
    by (apply (bool_decide_unpack _); reflexivity).
  assert (58 ∉ str "8000") as Hport
    by (apply (bool_decide_unpack _); reflexivity).
  assert (47 ∉ str "8000") as Hport_slash
    by (apply (bool_decide_unpack _); reflexivity).
  exact (proj2 (http_client_address ascii_int (str "http://")
                  (str "localhost") Hscheme Hcolon Hslash)
           (str "8000") Hport Hport_slash).
Defined.

(** A trailing slash ends up in the text given to [int], and an address
    without scheme and port gets port 8000. *)
Example http_client_address_samples :
  http_port ascii_int (str "http://localhost:8000/")
  = Raise (Exn ValueError
             (str "invalid literal for int() with base 10: '8000/'"))
  /\ http_host (str "chroma.internal") = Ok (str "chroma.internal")
  /\ http_port ascii_int (str "chroma.internal") = Ok 8000%Z.
Proof. vm_compute. by repeat split. Qed.
